(** * Happiness Agent: the workflow task-orchestration engine

    A shallow embedding of [OrchestratorClient] (the second class of
    src/core/minimal-orchestrator.js: [startWorkflow], [executeWorkflow],
    [executeStep], [getTaskStatus], [getStatusMessage], [getTaskArtifacts],
    [listTasks], [cancelTask]) and of [saveTasksToDisk] of
    [MinimalOrchestratorClient], followed by the properties of the engine
    and of the task registry; then of [MinimalOrchestratorClient] itself
    (the first class of the file, in the module [Minimal], with the two
    template generators after it) and of its properties.

    Conventions of the embedding.
    - JavaScript values are the inductive [value]; an object used as a
      dictionary is a [gmap string value] of its own enumerable properties
      (property order, which only shows in the layout of serialized text,
      is not modelled).  The properties that a plain object inherits from
      [Object.prototype] are modelled where the program reads or assigns a
      property whose name it was given: the lookup of a workflow name
      ([startWorkflow]) and the assignment of a result under the name of
      a step ([assign]).  The functions of the workflow table are
      functions of the own properties of the object they receive.
    - Numbers are integers ([VNum]) wherever the program only stores and
      compares them; the one place that computes with fractions, the
      progress percentage of [getTaskStatus], is carried out in IEEE 754
      binary64 with the Standard Library's [SpecFloat].  Strings are
      ASCII text.
    - The order in which a [Map] lists its entries is not modelled: an
      array made of the values of [this.tasks] is in the order of the
      map of the model.
    - A thrown value is an [Error] with a message; a call that may throw
      returns [except].
    - [this.tasks] is a map from task id to task object.  A task object is
      shared between the map and the local variables of a run, so a field
      assignment made through a local variable is written through to the
      map at once ([mutate]).
    - The values the program draws from its environment (a fresh uuid, the
      current time) are explicit arguments.
    - A run is followed to its end: the asynchronous [executeWorkflow]
      launched by [startWorkflow] is executed until its promise settles.
      The [journal] of the state records, newest first, what the run did:
      the calls to the functions of the workflow table and to the agent,
      every field assignment on the task, and every [logger.error]. *)

From Stdlib Require Import ZArith SpecFloat.
From stdpp Require Import gmap strings list fin_maps pretty sorting.

#[local] Set Warnings "-register-all".
#[local] Open Scope string_scope.
#[local] Open Scope list_scope.

(** ** JavaScript values and exceptions *)

Inductive value : Type :=
| VUndefined
| VNull
| VBool (b : bool)
| VNum (n : Z)
| VStr (s : string)
| VArr (l : list value)
| VObj (o : gmap string value).

Record Error := mkError { message : string }.

Inductive except (A : Type) : Type :=
| Ok (a : A)
| Throw (e : Error).
Arguments Ok {A} a.
Arguments Throw {A} e.

(** A computation that goes on with what the first one returns. *)
Definition andThen {A B : Type} (x : except A) (k : A -> except B) : except B :=
  match x with
  | Ok a => k a
  | Throw e => Throw e
  end.

Definition quote : string := String (Ascii.ascii_of_nat 34) EmptyString.
Definition apostrophe : string := String (Ascii.ascii_of_nat 39) EmptyString.

(** [!v], through [ToBoolean]. *)
Definition truthy (v : value) : bool :=
  match v with
  | VUndefined | VNull => false
  | VBool b => b
  | VNum n => negb (n =? 0)%Z
  | VStr s => negb (String.eqb s EmptyString)
  | VArr _ | VObj _ => true
  end.

Fixpoint chars (s : string) : list value :=
  match s with
  | EmptyString => []
  | String c rest => VStr (String c EmptyString) :: chars rest
  end.

Definition indexed (l : list value) : gmap string value :=
  list_to_map (imap (fun i v => (pretty i, v)) l).

(** The own enumerable properties that an object spread [{...v}] copies. *)
Definition ownProps (v : value) : gmap string value :=
  match v with
  | VObj o => o
  | VArr l => indexed l
  | VStr s => indexed (chars s)
  | _ => ∅
  end.

(** [v.k] for the properties the workflow table reads. *)
Definition getProp (v : value) (k : string) : except value :=
  match v with
  | VUndefined =>
      Throw (mkError ("Cannot read properties of undefined (reading "
                        +:+ apostrophe +:+ k +:+ apostrophe +:+ ")"))
  | VNull =>
      Throw (mkError ("Cannot read properties of null (reading "
                        +:+ apostrophe +:+ k +:+ apostrophe +:+ ")"))
  | VObj o => Ok (default VUndefined (o !! k))
  | VArr l =>
      Ok (if String.eqb k "length" then VNum (Z.of_nat (length l))
          else default VUndefined (indexed l !! k))
  | VStr s =>
      Ok (if String.eqb k "length" then VNum (Z.of_nat (String.length s))
          else default VUndefined (indexed (chars s) !! k))
  | VBool _ | VNum _ => Ok VUndefined
  end.

(** The names of the properties of [Object.prototype]: a plain object
    answers to them although it has no own property of that name.  Each
    of them holds a function, except [__proto__], an accessor that reads
    and sets the prototype of the object. *)
Definition Object_prototype : list string :=
  [ "constructor"; "__defineGetter__"; "__defineSetter__"; "hasOwnProperty";
    "__lookupGetter__"; "__lookupSetter__"; "isPrototypeOf";
    "propertyIsEnumerable"; "toString"; "valueOf"; "__proto__";
    "toLocaleString" ].

(** [obj[key] = v] on a plain object, as far as the own properties go:
    an assignment to [__proto__] is taken by the accessor of
    [Object.prototype] and makes no own property. *)
Definition assign (key : string) (v : value) (obj : gmap string value)
    : gmap string value :=
  if String.eqb key "__proto__" then obj else <[key := v]> obj.

(** ** Numeric strings and the comparison with zero *)

(** The white space and the line terminators of ASCII. *)
Definition is_space (c : Ascii.ascii) : bool :=
  let n := Ascii.nat_of_ascii c in
  Nat.eqb n 32 || (Nat.leb 9 n && Nat.leb n 13).

Fixpoint skip_spaces (l : list Ascii.ascii) : list Ascii.ascii :=
  match l with
  | c :: rest => if is_space c then skip_spaces rest else l
  | [] => []
  end.

Definition trim (l : list Ascii.ascii) : list Ascii.ascii :=
  reverse (skip_spaces (reverse (skip_spaces l))).

(** The value of a digit in a base up to sixteen. *)
Definition digit_value (c : Ascii.ascii) : option N :=
  let n := Ascii.N_of_ascii c in
  if (48 <=? n)%N && (n <=? 57)%N then Some (n - 48)%N
  else if (97 <=? n)%N && (n <=? 102)%N then Some (n - 87)%N
  else if (65 <=? n)%N && (n <=? 70)%N then Some (n - 55)%N
  else None.

(** The longest prefix of digits of the base: its value after [acc], the
    number of its digits, and what follows it. *)
Fixpoint digits (base : N) (acc : N) (count : nat) (l : list Ascii.ascii)
    : N * nat * list Ascii.ascii :=
  match l with
  | c :: rest =>
      match digit_value c with
      | Some d =>
          if (d <? base)%N then digits base (base * acc + d)%N (S count) rest
          else (acc, count, l)
      | None => (acc, count, l)
      end
  | [] => (acc, count, [])
  end.

Definition is_char (n : nat) (c : Ascii.ascii) : bool :=
  Nat.eqb (Ascii.nat_of_ascii c) n.

(** [0b], [0o] and [0x] literals: the value, when the text is one. *)
Definition non_decimal (l : list Ascii.ascii) : option N :=
  match l with
  | zero :: letter :: rest =>
      let base : N :=
        (if is_char 120 letter || is_char 88 letter then 16
         else if is_char 111 letter || is_char 79 letter then 8
         else if is_char 98 letter || is_char 66 letter then 2
         else 0)%N in
      if is_char 48 zero && negb (base =? 0)%N then
        match digits base 0 0 rest with
        | (n, S _, []) => Some n
        | _ => None
        end
      else None
  | _ => None
  end.

(** The exponent part that may end a decimal literal. *)
Definition exponent (l : list Ascii.ascii) : option Z :=
  match l with
  | [] => Some 0%Z
  | letter :: rest =>
      if is_char 101 letter || is_char 69 letter then
        let '(negative, rest) :=
          match rest with
          | sign :: rest' =>
              if is_char 45 sign then (true, rest')
              else if is_char 43 sign then (false, rest')
              else (false, rest)
          | [] => (false, rest)
          end in
        match digits 10 0 0 rest with
        | (n, S _, []) => Some (if negative then - Z.of_N n else Z.of_N n)%Z
        | _ => None
        end
      else None
  end.

(** An unsigned decimal literal with digits: [m] and [e] such that its
    value is [m] times ten to the [e]. *)
Definition decimal (l : list Ascii.ascii) : option (N * Z) :=
  let '(whole, n1, rest) := digits 10 0 0 l in
  let '(m, n2, rest) :=
    match rest with
    | dot :: rest' => if is_char 46 dot then digits 10 whole 0 rest' else (whole, 0, rest)
    | [] => (whole, 0, rest)
    end in
  match n1 + n2, exponent rest with
  | S _, Some e => Some (m, (e - Z.of_nat n2)%Z)
  | _, _ => None
  end.

(** [m] times ten to the [e] converts to a number above zero: it is
    more than two to the -1075, below which a value rounds to zero. *)
Definition above_zero (m : N) (e : Z) : bool :=
  (0 <? m)%N &&
  ((0 <=? e)%Z || (10 ^ (- e) <? Z.of_N m * 2 ^ 1075)%Z).

(** [Number(s) > 0] for an ASCII text [s]. *)
Definition positive_text (s : string) : bool :=
  let l := trim (String.list_ascii_of_string s) in
  match non_decimal l with
  | Some n => (0 <? n)%N
  | None =>
      let '(negative, l) :=
        match l with
        | sign :: rest =>
            if is_char 45 sign then (true, rest)
            else if is_char 43 sign then (false, rest)
            else (false, l)
        | [] => (false, l)
        end in
      if bool_decide (l = String.list_ascii_of_string "Infinity") then negb negative
      else
        match decimal l with
        | Some (m, e) => negb negative && above_zero m e
        | None => false
        end
  end.

(** A value without functions is converted to a primitive by the
    methods it inherits: an own property [toString] hides the inherited
    method, and nothing that can be called is left. *)
Definition NotPrimitive : Error :=
  mkError "Cannot convert object to primitive value".

(** [String(v)]: an array is joined with commas, [null] and [undefined]
    leaving an empty place; an object answers with the text of
    [Object.prototype.toString]. *)
Fixpoint ToString (v : value) : except string :=
  match v with
  | VUndefined => Ok "undefined"
  | VNull => Ok "null"
  | VBool b => Ok (if b then "true" else "false")
  | VNum n => Ok (pretty n)
  | VStr s => Ok s
  | VArr l =>
      (fix join (l : list value) : except string :=
         match l with
         | [] => Ok EmptyString
         | x :: rest =>
             andThen (match x with
                      | VUndefined | VNull => Ok EmptyString
                      | _ => ToString x
                      end) (fun a =>
             match rest with
             | [] => Ok a
             | _ => andThen (join rest) (fun b => Ok (a +:+ "," +:+ b))
             end)
         end) l
  | VObj o =>
      if bool_decide (is_Some (o !! "toString")) then Throw NotPrimitive
      else Ok "[object Object]"
  end.

(** [v > 0]: the operand is converted to a number, an array or an
    object through its text; the comparison with [NaN] is false. *)
Definition gt0 (v : value) : except bool :=
  match v with
  | VUndefined | VNull => Ok false
  | VBool b => Ok b
  | VNum n => Ok (0 <? n)%Z
  | VStr s => Ok (positive_text s)
  | VArr _ | VObj _ => andThen (ToString v) (fun s => Ok (positive_text s))
  end.

(** ** The data model *)

Inductive Status : Type :=
| PENDING | RUNNING | COMPLETED | FAILED | SKIPPED | CANCELLED.

#[global] Instance Status_eq_dec : EqDecision Status.
Proof. solve_decision. Defined.

Definition status_string (s : Status) : string :=
  match s with
  | PENDING => "PENDING"
  | RUNNING => "RUNNING"
  | COMPLETED => "COMPLETED"
  | FAILED => "FAILED"
  | SKIPPED => "SKIPPED"
  | CANCELLED => "CANCELLED"
  end.

Module StepRecord.
(** An element of [task.steps]; [error] is absent until a failure. *)
Record t : Type := mk {
  name : string;
  status : Status;
  result : value;
  error : option string
}.
Definition set_status (s : Status) (r : t) : t :=
  mk (name r) s (result r) (error r).
Definition set_result (v : value) (r : t) : t :=
  mk (name r) (status r) v (error r).
Definition set_error (e : string) (r : t) : t :=
  mk (name r) (status r) (result r) (Some e).
End StepRecord.

Module Task.
(** An entry of [this.tasks]; [completed_at] and [error] are absent until
    they are assigned. *)
Record t : Type := mk {
  id : string;
  type : string;
  status : Status;
  params : value;
  steps : list StepRecord.t;
  results : gmap string value;
  started_at : string;
  completed_at : option string;
  error : option string
}.
Definition set_status (s : Status) (k : t) : t :=
  mk (id k) (type k) s (params k) (steps k) (results k)
     (started_at k) (completed_at k) (error k).
Definition set_results (r : gmap string value) (k : t) : t :=
  mk (id k) (type k) (status k) (params k) (steps k) r
     (started_at k) (completed_at k) (error k).
Definition set_completed_at (d : string) (k : t) : t :=
  mk (id k) (type k) (status k) (params k) (steps k) (results k)
     (started_at k) (Some d) (error k).
Definition set_error (e : string) (k : t) : t :=
  mk (id k) (type k) (status k) (params k) (steps k) (results k)
     (started_at k) (completed_at k) (Some e).
(** An assignment through [taskStep = task.steps[i]]. *)
Definition update_step (i : nat) (f : StepRecord.t -> StepRecord.t) (k : t) : t :=
  mk (id k) (type k) (status k) (params k) (alter f i (steps k)) (results k)
     (started_at k) (completed_at k) (error k).
End Task.

(** [step.inputs] is a function of the parameters and of the results so
    far, or a constant. *)
Inductive Inputs : Type :=
| InputsFunction (f : value -> gmap string value -> except value)
| InputsConstant (v : value).

Module StepDefinition.
Record t : Type := mk {
  name : string;
  agent : string;
  action : string;
  inputs : Inputs;
  outputMapping : option (value -> except value);
  condition : option (gmap string value -> except value)
}.
End StepDefinition.

Module Workflow.
Record t : Type := mk { steps : list StepDefinition.t }.
End Workflow.

(** ** The state of the process *)

Inductive event : Type :=
| ConditionCalled (i : nat) (prevResults : gmap string value)
| InputsCalled (i : nat) (params : value) (prevResults : gmap string value)
| AgentCalled (i : nat) (agent action : string) (inputs : value)
| Assigned (taskId : string) (task : Task.t)
| ErrorLogged (text : string) (e : Error).

Record state : Type := mkState {
  tasks : gmap string Task.t;
  (** what the file tasks.json holds, [None] while it does not exist *)
  disk : option (list Task.t);
  journal : list event
}.

Definition record (ev : event) (st : state) : state :=
  mkState (tasks st) (disk st) (ev :: journal st).

(** [this.tasks.set(taskId, task)]. *)
Definition tasks_set (taskId : string) (task : Task.t) (st : state) : state :=
  mkState (<[taskId := task]> (tasks st)) (disk st) (journal st).

(** A field assignment on the task object registered under [taskId]: the
    object is the one the map holds, so the map shows the new contents. *)
Definition mutate (taskId : string) (task : Task.t) (st : state) : state :=
  record (Assigned taskId task) (tasks_set taskId task st).

(** [logger.error(text, error)]. *)
Definition logger_error (text : string) (e : Error) (st : state) : state :=
  record (ErrorLogged text e) st.

(** ** The workflow engine (OrchestratorClient) *)

Definition TaskNotFound (taskId : string) : Error :=
  mkError ("Task " +:+ taskId +:+ " not found").

Definition UnknownWorkflow (workflowName : string) : Error :=
  mkError ("Workflow " +:+ quote +:+ workflowName +:+ quote +:+ " not found").

Definition TaskNotCompleted (taskId : string) (s : Status) : Error :=
  mkError ("Task " +:+ taskId +:+ " is not completed (status: "
             +:+ status_string s +:+ ")").

Definition InvalidState (taskId : string) (s : Status) : Error :=
  mkError ("Task " +:+ taskId +:+ " cannot be cancelled (status: "
             +:+ status_string s +:+ ")").

(** Assigning a property of [task.steps[i]] when the array has no such
    element. *)
Definition NoSuchStep : Error :=
  mkError ("Cannot set properties of undefined (setting "
             +:+ apostrophe +:+ "status" +:+ apostrophe +:+ ")").

(** How one iteration of the loop of [executeWorkflow] ends: it goes on
    to the next step (by [continue] or by reaching the end of the body)
    with the results accumulated so far, or it leaves the function by the
    [return] of the catch block. *)
Inductive flow : Type :=
| Next (stepResults : gmap string value)
| Return.

Section Engine.

(** [this.executeStep], the agent invoker.  The engine is studied for
    every invoker; the stand-in of the source is [executeStep] below. *)
Variable invoke : string -> string -> value -> except value.

(** [step.condition && !step.condition(stepResults)] *)
Definition skips (step : StepDefinition.t) (i : nat)
    (stepResults : gmap string value) (st : state) : except bool * state :=
  match StepDefinition.condition step with
  | None => (Ok false, st)
  | Some condition =>
      let st := record (ConditionCalled i stepResults) st in
      match condition stepResults with
      | Ok v => (Ok (negb (truthy v)), st)
      | Throw e => (Throw e, st)
      end
  end.

(** The part of the [try] block that can throw: the inputs, the call of
    the agent and the output mapping.  The value is [mappedResult]. *)
Definition attempt (step : StepDefinition.t) (i : nat) (params : value)
    (stepResults : gmap string value) (st : state) : except value * state :=
  let '(inputs, st) :=
    match StepDefinition.inputs step with
    | InputsFunction f =>
        (f params stepResults, record (InputsCalled i params stepResults) st)
    | InputsConstant v => (Ok v, st)
    end in
  match inputs with
  | Throw e => (Throw e, st)
  | Ok inputs =>
      let st :=
        record (AgentCalled i (StepDefinition.agent step)
                  (StepDefinition.action step) inputs) st in
      match invoke (StepDefinition.agent step) (StepDefinition.action step) inputs with
      | Throw e => (Throw e, st)
      | Ok result =>
          match StepDefinition.outputMapping step with
          | Some outputMapping => (outputMapping result, st)
          | None => (Ok result, st)
          end
      end
  end.

(** The body of the [for] loop for [step = workflow.steps[i]]. *)
Definition iteration (taskId : string) (params : value)
    (step : StepDefinition.t) (i : nat) (stepResults : gmap string value)
    (task : Task.t) (st : state) : except flow * Task.t * state :=
  (* the condition is evaluated before the try block, and before any
     property of taskStep = task.steps[i] is assigned *)
  let '(skip, st) := skips step i stepResults st in
  match skip, Task.steps task !! i with
  | Throw e, _ => (Throw e, task, st)
  | Ok _, None => (Throw NoSuchStep, task, st)
  | Ok true, Some _ =>
      (* taskStep.status = 'SKIPPED'; continue *)
      let task := Task.update_step i (StepRecord.set_status SKIPPED) task in
      let st := mutate taskId task st in
      (Ok (Next stepResults), task, st)
  | Ok false, Some _ =>
      (* taskStep.status = 'RUNNING'; this.tasks.set(taskId, task) *)
      let task := Task.update_step i (StepRecord.set_status RUNNING) task in
      let st := mutate taskId task st in
      let st := tasks_set taskId task st in
      (* try *)
      let '(mappedResult, st) := attempt step i params stepResults st in
      match mappedResult with
      | Ok mappedResult =>
          (* stepResults[step.name] = mappedResult *)
          let stepResults :=
            assign (StepDefinition.name step) mappedResult stepResults in
          (* taskStep.result = mappedResult; taskStep.status = 'COMPLETED' *)
          let task := Task.update_step i (StepRecord.set_result mappedResult) task in
          let st := mutate taskId task st in
          let task := Task.update_step i (StepRecord.set_status COMPLETED) task in
          let st := mutate taskId task st in
          (* task.results = { ...task.results, ...mappedResult } *)
          let task :=
            Task.set_results (ownProps mappedResult ∪ Task.results task) task in
          let st := mutate taskId task st in
          let st := tasks_set taskId task st in
          (Ok (Next stepResults), task, st)
      | Throw error =>
          (* catch (error) *)
          let st :=
            logger_error ("Step execution error for task " +:+ taskId
                            +:+ ", step " +:+ StepDefinition.name step) error st in
          (* taskStep.status = 'FAILED'; taskStep.error = error.message *)
          let task := Task.update_step i (StepRecord.set_status FAILED) task in
          let st := mutate taskId task st in
          let task :=
            Task.update_step i (StepRecord.set_error (message error)) task in
          let st := mutate taskId task st in
          (* task.status = 'FAILED'; task.error = `Failed to execute step ...` *)
          let task := Task.set_status FAILED task in
          let st := mutate taskId task st in
          let task :=
            Task.set_error ("Failed to execute step " +:+ StepDefinition.name step
                              +:+ ": " +:+ message error) task in
          let st := mutate taskId task st in
          let st := tasks_set taskId task st in
          (* return *)
          (Ok Return, task, st)
      end
  end.

(** The [for] loop from index [i] on, over the steps that remain. *)
Fixpoint loop (taskId : string) (params : value)
    (remaining : list StepDefinition.t) (i : nat)
    (stepResults : gmap string value) (task : Task.t) (st : state)
    : except flow * Task.t * state :=
  match remaining with
  | [] => (Ok (Next stepResults), task, st)
  | step :: remaining =>
      match iteration taskId params step i stepResults task st with
      | (Ok (Next stepResults), task, st) =>
          loop taskId params remaining (S i) stepResults task st
      | stopped => stopped
      end
  end.

(** [executeWorkflow(taskId, workflow, params)], until its promise is
    settled: [Ok tt] when it is fulfilled, [Throw e] when it is rejected.
    [now] is the time read when all steps are done. *)
Definition executeWorkflow (now : string) (taskId : string)
    (workflow : Workflow.t) (params : value) (st : state) : except unit * state :=
  match tasks st !! taskId with
  | None => (Throw (TaskNotFound taskId), st)
  | Some task =>
      (* task.status = 'RUNNING'; this.tasks.set(taskId, task) *)
      let task := Task.set_status RUNNING task in
      let st := mutate taskId task st in
      let st := tasks_set taskId task st in
      (* const stepResults = {}; for (let i = 0; ...) *)
      match loop taskId params (Workflow.steps workflow) 0 ∅ task st with
      | (Throw e, _, st) => (Throw e, st)
      | (Ok Return, _, st) => (Ok tt, st)
      | (Ok (Next _), task, st) =>
          (* task.status = 'COMPLETED'; task.completed_at = ...;
             this.tasks.set(taskId, task) *)
          let task := Task.set_status COMPLETED task in
          let st := mutate taskId task st in
          let task := Task.set_completed_at now task in
          let st := mutate taskId task st in
          let st := tasks_set taskId task st in
          (Ok tt, st)
      end
  end.

(** The task that [startWorkflow] registers. *)
Definition newTask (taskId started : string) (workflowName : string)
    (workflow : Workflow.t) (params : value) : Task.t :=
  Task.mk taskId workflowName PENDING params
    ((fun step => StepRecord.mk (StepDefinition.name step) PENDING VNull None)
       <$> Workflow.steps workflow)
    ∅ started None None.

(** The handler that [startWorkflow] attaches with [.catch] to the
    promise of [executeWorkflow]. *)
Definition onRejected (taskId : string) (error : Error) (st : state) : state :=
  let st :=
    logger_error ("Workflow execution error for task " +:+ taskId) error st in
  match tasks st !! taskId with
  | Some task =>
      let task := Task.set_status FAILED task in
      let st := mutate taskId task st in
      let task := Task.set_error (message error) task in
      let st := mutate taskId task st in
      tasks_set taskId task st
  | None => st
  end.

(** The run that [startWorkflow] launches and does not await. *)
Definition launch (finished : string) (taskId : string)
    (workflow : Workflow.t) (params : value) (st : state) : state :=
  match executeWorkflow finished taskId workflow params st with
  | (Ok _, st) => st
  | (Throw error, st) => onRejected taskId error st
  end.

(** Reading [workflow.steps.map] when [workflow.steps] is undefined. *)
Definition NoSteps : Error :=
  mkError ("Cannot read properties of undefined (reading "
             +:+ apostrophe +:+ "map" +:+ apostrophe +:+ ")").

(** [startWorkflow(workflowName, params)]: what its caller receives, and
    the state once the launched run has settled.  [taskId] is the uuid
    drawn, [started] and [finished] the times read at creation and at
    completion.  [workflows] holds the own properties of
    [this.workflows], an object literal: under a name that is no own
    property but a property of [Object.prototype], the guard
    [!this.workflows[workflowName]] finds a function (or, for
    [__proto__], the prototype itself), which has no [steps], and
    [workflow.steps.map] throws before [this.tasks.set] is called. *)
Definition startWorkflow (workflows : gmap string Workflow.t)
    (taskId started finished : string)
    (workflowName : string) (params : value) (st : state)
    : except string * state :=
  match workflows !! workflowName with
  | Some workflow =>
      let st :=
        tasks_set taskId (newTask taskId started workflowName workflow params) st in
      (Ok taskId, launch finished taskId workflow params st)
  | None =>
      if bool_decide (workflowName ∈ Object_prototype)
      then (Throw NoSteps, st)
      else (Throw (UnknownWorkflow workflowName), st)
  end.

End Engine.

(** ** The task registry: status, artifacts, cancellation *)

(** IEEE 754 binary64, the numbers of JavaScript. *)
Definition prec : Z := 53.
Definition emax : Z := 1024.

Definition number_of_Z (z : Z) : spec_float := binary_normalize prec emax z 0 false.
Definition number_of_nat (n : nat) : spec_float := number_of_Z (Z.of_nat n).

(** [Math.floor]. *)
Definition Math_floor (x : spec_float) : spec_float :=
  match x with
  | S754_finite s m e =>
      let z := if s then Z.neg m else Z.pos m in
      number_of_Z (if (0 <=? e)%Z then z * 2 ^ e else Z.shiftr z (- e))%Z
  | _ => x
  end.

Module TaskStatus.
(** The object that [getTaskStatus] returns. *)
Record t : Type := mk {
  id : string;
  status : Status;
  progress : spec_float;
  error : option string;
  started_at : string;
  completed_at : option string;
  message : string
}.
End TaskStatus.

Definition is_status (s : Status) (r : StepRecord.t) : bool :=
  bool_decide (StepRecord.status r = s).

(** [s.status === 'COMPLETED' || s.status === 'SKIPPED'] *)
Definition counts_as_done (r : StepRecord.t) : bool :=
  is_status COMPLETED r || is_status SKIPPED r.

Definition getStatusMessage (task : Task.t) : string :=
  match Task.status task with
  | PENDING => "Task is queued and waiting to start"
  | RUNNING =>
      match List.find (is_status RUNNING) (Task.steps task) with
      | Some currentStep => "Executing step: " +:+ StepRecord.name currentStep
      | None => "Task is running"
      end
  | COMPLETED => "Task completed successfully"
  | FAILED =>
      match Task.error task with
      | Some e => if String.eqb e EmptyString then "Task failed" else e
      | None => "Task failed"
      end
  | CANCELLED => "Task was cancelled"
  | SKIPPED => "Unknown status"
  end.

(** [Math.floor((completedSteps / totalSteps) * 100)] *)
Definition progress_of (completedSteps totalSteps : nat) : spec_float :=
  Math_floor
    (SFmul prec emax
       (SFdiv prec emax (number_of_nat completedSteps) (number_of_nat totalSteps))
       (number_of_nat 100)).

Definition getTaskStatus (taskId : string) (st : state)
    : except TaskStatus.t * state :=
  match tasks st !! taskId with
  | None => (Throw (TaskNotFound taskId), st)
  | Some task =>
      let totalSteps := length (Task.steps task) in
      let completedSteps := length (List.filter counts_as_done (Task.steps task)) in
      let progress := progress_of completedSteps totalSteps in
      (Ok (TaskStatus.mk (Task.id task) (Task.status task) progress
             (Task.error task) (Task.started_at task) (Task.completed_at task)
             (getStatusMessage task)),
       st)
  end.

Definition newline : string := String (Ascii.ascii_of_nat 10) EmptyString.

Section Artifacts.

(** [JSON.stringify(v, null, 2)], a function of the language. *)
Variable JSON_stringify : value -> string.

Definition getTaskArtifacts (taskId : string) (st : state)
    : except (gmap string value) * state :=
  match tasks st !! taskId with
  | None => (Throw (TaskNotFound taskId), st)
  | Some task =>
      if bool_decide (Task.status task <> COMPLETED)
      then (Throw (TaskNotCompleted taskId (Task.status task)), st)
      else
        (Ok (<["results.json" := VStr (JSON_stringify (VObj (Task.results task)))]>
               (<["example.js" :=
                    VStr ("console.log(" +:+ quote
                            +:+ "Hello from the generated code!"
                            +:+ quote +:+ ");")]>
                  (<["README.md" :=
                       VStr ("# Generated Module" +:+ newline +:+ newline
                               +:+ "This module was generated by Happiness Agent.")]>
                     ∅))),
         st)
  end.

End Artifacts.

(** [cancelTask(taskId)]; [now] is the time read. *)
Definition cancelTask (now : string) (taskId : string) (st : state)
    : except bool * state :=
  match tasks st !! taskId with
  | None => (Throw (TaskNotFound taskId), st)
  | Some task =>
      if bool_decide (Task.status task <> RUNNING)
         && bool_decide (Task.status task <> PENDING)
      then (Throw (InvalidState taskId (Task.status task)), st)
      else
        let task := Task.set_status CANCELLED task in
        let st := mutate taskId task st in
        let task := Task.set_completed_at now task in
        let st := mutate taskId task st in
        let st := tasks_set taskId task st in
        (Ok true, st)
  end.

Module TaskSummary.
(** An element of the array that [listTasks] returns. *)
Record t : Type := mk {
  id : string;
  type : string;
  status : Status;
  started_at : string
}.
End TaskSummary.

(** [['PENDING', 'RUNNING'].includes(task.status)] *)
Definition is_active (task : Task.t) : bool :=
  bool_decide (Task.status task ∈ [PENDING; RUNNING]).

Definition summary (task : Task.t) : TaskSummary.t :=
  TaskSummary.mk (Task.id task) (Task.type task) (Task.status task)
    (Task.started_at task).

(** [listTasks()]; the order of the array is the one of the map as
    modelled. *)
Definition listTasks (st : state) : list TaskSummary.t * state :=
  (summary <$> List.filter is_active ((map_to_list (tasks st)).*2), st).

(** ** Persistence (MinimalOrchestratorClient) *)

(** [saveTasksToDisk()]: the array of all the values of [this.tasks]
    replaces the contents of tasks.json.  The write is taken to succeed,
    and the order of the array is the one of the map as modelled. *)
Definition saveTasksToDisk (st : state) : state :=
  mkState (tasks st) (Some ((map_to_list (tasks st)).*2)) (journal st).

(** ** The stand-in agents and the workflow table of the source *)

Definition object (props : list (string * value)) : value :=
  VObj (list_to_map props).

(** [executeStep(agentName, action, inputs)], after its delay. *)
Definition executeStep (agentName action : string) (inputs : value) : except value :=
  let key := agentName +:+ ":" +:+ action in
  if String.eqb key "consultant:analyze_prompt" then
    Ok (object
          [("scope_definition",
            object [("name", VStr "Sample Module");
                    ("features", VArr [VStr "Feature 1"; VStr "Feature 2"]);
                    ("requirements", VArr [VStr "Req 1"; VStr "Req 2"])])])
  else if String.eqb key "pm:create_task_plan" then
    Ok (object
          [("task_plan",
            object [("tasks",
                     VArr [object [("id", VNum 1); ("name", VStr "Task 1");
                                   ("description", VStr "Implement feature 1")];
                           object [("id", VNum 2); ("name", VStr "Task 2");
                                   ("description", VStr "Implement feature 2")]]);
                    ("dependencies", VArr [VArr [VNum 1; VNum 2]])])])
  else if String.eqb key "code_generator:generate_module" then
    Ok (object [("generated_code", VStr "generated/sample_module")])
  else if String.eqb key "test_runner:test_module" then
    Ok (object
          [("test_results",
            object [("total", VNum 5); ("passed", VNum 4); ("failures", VNum 1);
                    ("tests",
                     VArr [object [("name", VStr "Test 1"); ("status", VStr "PASSED")];
                           object [("name", VStr "Test 2"); ("status", VStr "PASSED")];
                           object [("name", VStr "Test 3"); ("status", VStr "FAILED");
                                   ("error", VStr "Expected 3, got 4")];
                           object [("name", VStr "Test 4"); ("status", VStr "PASSED")];
                           object [("name", VStr "Test 5"); ("status", VStr "PASSED")]])])])
  else if String.eqb key "linter:lint_code" then
    Ok (object
          [("lint_results",
            object [("issues",
                     VArr [object [("type", VStr "warning");
                                   ("location", VStr "file.js:10");
                                   ("message", VStr "Unused variable")];
                           object [("type", VStr "error");
                                   ("location", VStr "file.js:15");
                                   ("message", VStr "Missing semicolon")]])])])
  else if String.eqb key "error_analyzer:analyze_issues" then
    Ok (object
          [("error_analysis",
            object [("issues",
                     VArr [object [("type", VStr "test_failure");
                                   ("location", VStr "module.js:25");
                                   ("description", VStr "Incorrect calculation");
                                   ("suggested_fix", VStr "Change + to *")];
                           object [("type", VStr "lint_error");
                                   ("location", VStr "module.js:15");
                                   ("description", VStr "Missing semicolon");
                                   ("suggested_fix", VStr "Add semicolon")]]);
                    ("summary", VStr "Minor issues found")])])
  else if String.eqb key "code_generator:refine_code" then
    Ok (object [("refined_code", VStr "refined/sample_module")])
  else
    Throw (mkError ("Unknown agent action: " +:+ agentName +:+ ":" +:+ action)).

(** [v.a.b] *)
Definition path2 (v : value) (a b : string) : except value :=
  andThen (getProp v a) (fun x => getProp x b).

(** [result => ({ key: result.key })] *)
Definition pick (key : string) (result : value) : except value :=
  andThen (getProp result key) (fun x => Ok (object [(key, x)])).

(** The steps of [this.workflows.full_cycle], as [loadWorkflows] sets
    them. *)
Definition full_cycle : Workflow.t :=
  Workflow.mk
    [ StepDefinition.mk "analyze_requirements" "consultant" "analyze_prompt"
        (InputsFunction (fun params _ =>
           andThen (getProp params "user_prompt") (fun p =>
           Ok (object [("user_prompt", p)]))))
        (Some (pick "scope_definition"))
        None;
      StepDefinition.mk "decompose_tasks" "pm" "create_task_plan"
        (InputsFunction (fun _ prevResults =>
           andThen (path2 (VObj prevResults) "analyze_requirements" "scope_definition")
             (fun x => Ok (object [("scope_definition", x)]))))
        (Some (pick "task_plan"))
        None;
      StepDefinition.mk "generate_code" "code_generator" "generate_module"
        (InputsFunction (fun _ prevResults =>
           andThen (path2 (VObj prevResults) "decompose_tasks" "task_plan")
             (fun x => Ok (object [("task_plan", x)]))))
        (Some (pick "generated_code"))
        None;
      StepDefinition.mk "run_tests" "test_runner" "test_module"
        (InputsFunction (fun _ prevResults =>
           andThen (path2 (VObj prevResults) "generate_code" "generated_code")
             (fun x => Ok (object [("code_path", x)]))))
        (Some (pick "test_results"))
        None;
      StepDefinition.mk "lint_code" "linter" "lint_code"
        (InputsFunction (fun _ prevResults =>
           andThen (path2 (VObj prevResults) "generate_code" "generated_code")
             (fun x => Ok (object [("code_path", x)]))))
        (Some (pick "lint_results"))
        None;
      StepDefinition.mk "analyze_errors" "error_analyzer" "analyze_issues"
        (InputsFunction (fun _ prevResults =>
           andThen (path2 (VObj prevResults) "run_tests" "test_results") (fun t =>
           andThen (path2 (VObj prevResults) "lint_code" "lint_results") (fun l =>
           Ok (object [("test_results", t); ("lint_results", l)])))))
        (Some (pick "error_analysis"))
        (Some (fun prevResults =>
           andThen (path2 (VObj prevResults) "run_tests" "test_results")
             (fun testResults =>
           andThen (path2 (VObj prevResults) "lint_code" "lint_results")
             (fun lintResults =>
           andThen (getProp testResults "failures") (fun failures =>
           andThen (gt0 failures) (fun failed =>
           if failed then Ok (VBool true)
           else
             andThen (getProp lintResults "issues") (fun issues =>
             andThen (getProp issues "length") (fun n =>
             andThen (gt0 n) (fun found => Ok (VBool found))))))))));
      StepDefinition.mk "refine_code" "code_generator" "refine_code"
        (InputsFunction (fun _ prevResults =>
           andThen (path2 (VObj prevResults) "generate_code" "generated_code") (fun c =>
           andThen (path2 (VObj prevResults) "analyze_errors" "error_analysis") (fun a =>
           Ok (object [("code_path", c); ("error_analysis", a)])))))
        (Some (pick "refined_code"))
        (Some (fun prevResults =>
           andThen (getProp (VObj prevResults) "analyze_errors") (fun a =>
           if truthy a then getProp a "error_analysis" else Ok a))) ].

(** [this.workflows] after [loadWorkflows]. *)
Definition workflows : gmap string Workflow.t := {[ "full_cycle" := full_cycle ]}.

Definition initial : state := mkState ∅ None [].

Definition demo_params : value := object [("user_prompt", VStr "hi")].

(** The run of [full_cycle] with the stand-in agents. *)
Definition demo : except string * state :=
  startWorkflow executeStep workflows "t1" "12:00" "12:07" "full_cycle"
    demo_params initial.

(** Agents that answer like the stand-ins of the source, except that the
    test runner answers with an empty object: no [test_results]. *)
Definition silent_test_runner (agentName action : string) (inputs : value)
    : except value :=
  if String.eqb agentName "test_runner" then Ok (object [])
  else executeStep agentName action inputs.

(** Agents that answer like the stand-ins of the source, except that the
    test runner reports no failure and the linter no issue. *)
Definition clean_code (agentName action : string) (inputs : value)
    : except value :=
  if String.eqb agentName "test_runner" then
    Ok (object [("test_results",
                 object [("total", VNum 5); ("passed", VNum 5);
                         ("failures", VNum 0); ("tests", VArr [])])])
  else if String.eqb agentName "linter" then
    Ok (object [("lint_results", object [("issues", VArr [])])])
  else executeStep agentName action inputs.

(** A workflow of fifty steps: the first twenty-nine carry a condition
    that is false, the others ask an agent that does not exist. *)
Definition gated (i : nat) : StepDefinition.t :=
  StepDefinition.mk ("gated_" +:+ pretty i) "linter" "lint_code"
    (InputsConstant (object [])) None (Some (fun _ => Ok (VBool false))).

Definition stray (i : nat) : StepDefinition.t :=
  StepDefinition.mk ("stray_" +:+ pretty i) "nobody" "nothing"
    (InputsConstant (object [])) None None.

Definition fifty_steps : Workflow.t :=
  Workflow.mk ((gated <$> seq 0 29) ++ (stray <$> seq 29 21)).

(** A workflow of four steps whose second step asks the planner for an
    action it does not have. *)
Definition four_steps : Workflow.t :=
  Workflow.mk
    [ StepDefinition.mk "analyze" "consultant" "analyze_prompt"
        (InputsFunction (fun params _ =>
           andThen (getProp params "user_prompt") (fun p =>
           Ok (object [("user_prompt", p)]))))
        (Some (pick "scope_definition")) None;
      StepDefinition.mk "estimate" "pm" "estimate"
        (InputsConstant (object [])) None None;
      StepDefinition.mk "generate" "code_generator" "generate_module"
        (InputsConstant (object [])) (Some (pick "generated_code")) None;
      StepDefinition.mk "lint" "linter" "lint_code"
        (InputsConstant (object [])) (Some (pick "lint_results")) None ].

Definition four_steps_run : except string * state :=
  startWorkflow executeStep {[ "four" := four_steps ]} "t1" "12:00" "12:07"
    "four" demo_params initial.

Definition fifty_steps_run : except string * state :=
  startWorkflow executeStep {[ "fifty" := fifty_steps ]} "t1" "12:00" "12:07"
    "fifty" demo_params initial.





(** A workflow whose first step is named [__proto__] and maps the answer
    of its agent to a string. *)
Definition proto_step : Workflow.t :=
  Workflow.mk
    [ StepDefinition.mk "__proto__" "linter" "lint_code"
        (InputsConstant (object [])) (Some (fun _ => Ok (VStr "linted"))) None;
      StepDefinition.mk "b" "pm" "create_task_plan"
        (InputsFunction (fun _ prevResults => Ok (VObj prevResults))) None None ].

Definition proto_step_run : except string * state :=
  startWorkflow executeStep {[ "proto" := proto_step ]} "t1" "12:00" "12:07"
    "proto" demo_params initial.

(** A registry that holds one task without steps in the given status. *)
Definition sample_task (s : Status) : Task.t :=
  Task.mk "t1" "full_cycle" s demo_params [] ∅ "12:00" None None.

Definition registry_with (task : Task.t) : state :=
  mkState {[ Task.id task := task ]} None [].

(** * The code-generation client (MinimalOrchestratorClient)

    The first class of src/core/minimal-orchestrator.js.  Conventions
    proper to it.
    - Prompts, language names and paths are ASCII text, so that the
      characters of a [string] are the code units that [toLowerCase],
      [includes], [substring] and [length] see.
    - [options] is the object the command line builds: its properties
      [language] and [output] are strings when present.
    - The two template generators, [JSON.parse] and [path.join] are
      parameters; a set of generated files is a map from file name to
      contents.
    - tasks.json holds, when it exists, the array that [saveTasksToDisk]
      wrote, and a write of it succeeds.  The writes of the generated
      files are the environment's: the error they throw, if any, is an
      argument of the run, like the times read. *)

(** ** Strings *)

(** One character of [s.toLowerCase()]. *)
Definition lower (c : Ascii.ascii) : Ascii.ascii :=
  let n := Ascii.nat_of_ascii c in
  if Nat.leb 65 n && Nat.leb n 90 then Ascii.ascii_of_nat (n + 32) else c.

Fixpoint toLowerCase (s : string) : string :=
  match s with
  | EmptyString => EmptyString
  | String c rest => String (lower c) (toLowerCase rest)
  end.

(** [s.includes(t)] *)
Fixpoint includes (s t : string) : bool :=
  String.prefix t s ||
  match s with
  | EmptyString => false
  | String _ rest => includes rest t
  end.

(** The characters [:], [.] and [-]. *)
Definition colon : Ascii.ascii := Ascii.ascii_of_nat 58.
Definition dot : Ascii.ascii := Ascii.ascii_of_nat 46.
Definition dash : Ascii.ascii := Ascii.ascii_of_nat 45.

(** [s.replace(/[:.]/g, '-')] *)
Fixpoint dashed (s : string) : string :=
  match s with
  | EmptyString => EmptyString
  | String c rest =>
      String (if Ascii.eqb c colon || Ascii.eqb c dot then dash else c)
        (dashed rest)
  end.

(** The operand of [a || b] and of [!a] when [a] is a string or is
    missing: [Some] when it is truthy. *)
Definition truthy_string (a : option string) : option string :=
  match a with
  | Some s => if String.eqb s EmptyString then None else Some s
  | None => None
  end.

Module Minimal.

(** ** The data model *)

Record Options : Type := mkOptions {
  language : option string;
  output : option string
}.

Module Issue.
Record t : Type := mk { type : string; message : string }.
End Issue.

Module Validation.
Record t : Type := mk { passed : bool; issues : list Issue.t }.
(** [results.issues.push(issue)] *)
Definition push (issue : Issue.t) (v : t) : t := mk (passed v) (issues v ++ [issue]).
Definition set_passed (b : bool) (v : t) : t := mk b (issues v).
End Validation.

Module Results.
Record t : Type := mk { code : gmap string string; validation : Validation.t }.
End Results.

Module Task.
(** The class [Task] of interfaces/core, with the property [outputPath]
    that [executeCodeGeneration] adds. *)
Record t : Type := mk {
  id : string;
  prompt : string;
  options : Options;
  status : string;
  started_at : string;
  completed_at : option string;
  error : option string;
  results : option Results.t;
  outputPath : option string
}.

Definition set_status (s : string) (k : t) : t :=
  mk (id k) (prompt k) (options k) s (started_at k) (completed_at k) (error k)
    (results k) (outputPath k).
Definition set_completed_at (d : string) (k : t) : t :=
  mk (id k) (prompt k) (options k) (status k) (started_at k) (Some d) (error k)
    (results k) (outputPath k).
Definition set_error (e : string) (k : t) : t :=
  mk (id k) (prompt k) (options k) (status k) (started_at k) (completed_at k)
    (Some e) (results k) (outputPath k).
Definition set_results (r : Results.t) (k : t) : t :=
  mk (id k) (prompt k) (options k) (status k) (started_at k) (completed_at k)
    (error k) (Some r) (outputPath k).
Definition set_outputPath (p : string) (k : t) : t :=
  mk (id k) (prompt k) (options k) (status k) (started_at k) (completed_at k)
    (error k) (results k) (Some p).

(** [new Task(id, prompt, options)], [started] being the time read. *)
Definition new (id started prompt : string) (options : Options) : t :=
  mk id prompt options "PENDING" started None None None None.
End Task.

(** The properties of the configuration that the client reads. *)
Record Config : Type := mkConfig {
  supported_languages : option (list string);
  enable_basic_testing : bool;
  generations_path : option string
}.

Record state : Type := mkState {
  tasks : gmap string Task.t;
  (** what the file tasks.json holds, [None] while it does not exist *)
  disk : option (list Task.t);
  (** the calls of [logger.error], newest first *)
  logged : list (string * Error)
}.

(** What a run draws from its environment. *)
Record Env : Type := mkEnv {
  started : string;      (* the time read by [new Task] *)
  stamp : string;        (* the time read for the output directory *)
  finished : string;     (* the time read at completion *)
  caught : string;       (* the time read by the catch block *)
  handled : string;      (* the time read by the handler of [generateCode] *)
  written : option Error (* what the writes of the generated files throw *)
}.

(** [this.tasks.set(taskId, task)], also the effect of a field
    assignment on the task object that the map holds under [taskId]. *)
Definition assign (taskId : string) (task : Task.t) (st : state) : state :=
  mkState (<[taskId := task]> (tasks st)) (disk st) (logged st).

Definition logger_error (text : string) (e : Error) (st : state) : state :=
  mkState (tasks st) (disk st) ((text, e) :: logged st).

(** ** Persistence *)

(** [saveTasksToDisk()], over the tasks of this client. *)
Definition saveTasksToDisk (st : state) : state :=
  mkState (tasks st) (Some ((map_to_list (tasks st)).*2)) (logged st).

(** [loadTasksFromDisk()]: [this.tasks.set(task.id, task)] for each task
    of the array, in order. *)
Definition loadTasksFromDisk (st : state) : state :=
  match disk st with
  | Some tasksData =>
      mkState (foldl (fun m task => <[Task.id task := task]> m) (tasks st) tasksData)
        (disk st) (logged st)
  | None => st
  end.

(** The constructor, in a process that finds [file] as tasks.json. *)
Definition newClient (file : option (list Task.t)) : state :=
  loadTasksFromDisk (mkState ∅ file []).

(** ** Code generation *)

Definition TaskNotCompleted (taskId status : string) : Error :=
  mkError ("Task " +:+ taskId +:+ " is not completed (status: " +:+ status +:+ ")").

(** [task.results.code] when [task.results] is null. *)
Definition NoResults : Error :=
  mkError ("Cannot read properties of null (reading "
             +:+ apostrophe +:+ "code" +:+ apostrophe +:+ ")").

Section Generation.

Variable config : Config.
Variables generateJavaScriptCode generatePythonCode : string -> gmap string string.
(** [JSON.parse] and [path.join]. *)
Variable JSON_parse : string -> except value.
Variable path_join : string -> string -> string.

(** [this.supportedLanguages], as the constructor sets it. *)
Definition supportedLanguages : list string :=
  default ["javascript"; "python"] (supported_languages config).

Definition detectLanguage (prompt : string) : string :=
  let lowerPrompt := toLowerCase prompt in
  if includes lowerPrompt "python" || includes lowerPrompt "django"
     || includes lowerPrompt "flask"
  then "python"
  else if includes lowerPrompt "java" && negb (includes lowerPrompt "javascript")
  then "java"
  else "javascript".

Definition UnsupportedLanguage (language : string) : Error :=
  mkError ("Unsupported language: " +:+ language
             +:+ ". Supported languages are: "
             +:+ String.concat ", " supportedLanguages).

(** [callCodeGenerator(prompt, options)], after its delay. *)
Definition callCodeGenerator (prompt : string) (options : Options)
    : except (gmap string string) :=
  let language :=
    match truthy_string (language options) with
    | Some l => l
    | None => detectLanguage prompt
    end in
  if String.eqb language "javascript" then Ok (generateJavaScriptCode prompt)
  else if String.eqb language "python" then Ok (generatePythonCode prompt)
  else
    match truthy_string (Minimal.language options) with
    | Some l =>
        if negb (bool_decide (l ∈ supportedLanguages))
        then Throw (UnsupportedLanguage l)
        else Ok (generateJavaScriptCode prompt)
    | None => Ok (generateJavaScriptCode prompt)
    end.

Definition warning (text : string) : Issue.t := Issue.mk "warning" text.
Definition failure (text : string) : Issue.t := Issue.mk "error" text.

(** The [try] block of [validateCode]: the parse, then the two checks of
    the parsed object, with the results as they are when it is left. *)
Definition checkPackageJson (text : string) (results : Validation.t)
    : except unit * Validation.t :=
  match JSON_parse text with
  | Throw error => (Throw error, results)
  | Ok packageJson =>
      match getProp packageJson "name" with
      | Throw error => (Throw error, results)
      | Ok name =>
          let results :=
            if negb (truthy name)
            then Validation.push (warning "package.json is missing a name field")
                   results
            else results in
          match getProp packageJson "main" with
          | Throw error => (Throw error, results)
          | Ok main =>
              (Ok tt,
               if negb (truthy main)
               then Validation.push
                      (warning "package.json is missing a main field") results
               else results)
          end
      end
  end.

Definition validateCode (codeFiles : gmap string string) : Validation.t :=
  let results := Validation.mk true [] in
  (* Object.keys(codeFiles).length === 0 *)
  let results :=
    if bool_decide (codeFiles = ∅)
    then Validation.push (failure "No code files were generated")
           (Validation.set_passed false results)
    else results in
  (* !codeFiles['README.md'] *)
  let results :=
    match truthy_string (codeFiles !! "README.md") with
    | None => Validation.push (warning "README.md file is missing") results
    | Some _ => results
    end in
  match truthy_string (codeFiles !! "package.json") with
  | Some text =>
      match checkPackageJson text results with
      | (Ok _, results) => results
      | (Throw error, results) =>
          Validation.push (failure ("Invalid package.json: " +:+ message error))
            (Validation.set_passed false results)
      end
  | None => results
  end.

(** The body of the [try] block of [executeCodeGeneration] up to the
    last statement that can throw. *)
Definition generation (env : Env) (taskId prompt : string) (options : Options)
    (task : Task.t) (st : state) : except unit * Task.t * state :=
  match callCodeGenerator prompt options with
  | Throw error => (Throw error, task, st)
  | Ok generatedCode =>
      let '(task, st) :=
        if enable_basic_testing config then
          let task := Task.set_status "VALIDATING" task in
          let st := saveTasksToDisk (assign taskId task st) in
          let validationResult := validateCode generatedCode in
          let task :=
            Task.set_results (Results.mk generatedCode validationResult) task in
          (task, assign taskId task st)
        else
          let task :=
            Task.set_results
              (Results.mk generatedCode (Validation.mk true [])) task in
          (task, assign taskId task st) in
      match truthy_string (generations_path config) with
      | Some generations_path =>
          let task := Task.set_status "SAVING_ARTIFACTS" task in
          let st := saveTasksToDisk (assign taskId task st) in
          let timestamp := dashed (stamp env) in
          let outputDir :=
            path_join (default generations_path (truthy_string (output options)))
              ("gen-" +:+ timestamp) in
          (* ensureDir(outputDir); for (...) { ensureDir; writeFileSync } *)
          match written env with
          | Some error => (Throw error, task, st)
          | None =>
              let task := Task.set_outputPath outputDir task in
              (Ok tt, task, assign taskId task st)
          end
      | None => (Ok tt, task, st)
      end
  end.

(** [executeCodeGeneration(taskId, prompt, options)], until its promise
    is settled. *)
Definition executeCodeGeneration (env : Env) (taskId prompt : string)
    (options : Options) (st : state) : except unit * state :=
  match tasks st !! taskId with
  | None => (Throw (TaskNotFound taskId), st)
  | Some task =>
      let task := Task.set_status "RUNNING" task in
      let st := saveTasksToDisk (assign taskId task st) in
      (* try *)
      let task := Task.set_status "GENERATING_CODE" task in
      let st := saveTasksToDisk (assign taskId task st) in
      match generation env taskId prompt options task st with
      | (Ok _, task, st) =>
          let task := Task.set_status "COMPLETED" task in
          let task := Task.set_completed_at (finished env) task in
          (Ok tt, saveTasksToDisk (assign taskId task st))
      | (Throw error, task, st) =>
          (* catch (error) *)
          let st :=
            logger_error ("Task execution error for task " +:+ taskId) error st in
          let task := Task.set_status "FAILED" task in
          let task := Task.set_error (message error) task in
          let task := Task.set_completed_at (caught env) task in
          (Throw error, saveTasksToDisk (assign taskId task st))
      end
  end.

(** The handler that [generateCode] attaches with [.catch]. *)
Definition onRejected (env : Env) (taskId : string) (error : Error)
    (st : state) : state :=
  let st := logger_error ("Code generation error for task " +:+ taskId) error st in
  match tasks st !! taskId with
  | Some task =>
      let task := Task.set_status "FAILED" task in
      let task := Task.set_error (message error) task in
      let task := Task.set_completed_at (handled env) task in
      saveTasksToDisk (assign taskId task st)
  | None => st
  end.

(** [generateCode(prompt, options)]: what its caller receives, and the
    state once the generation it launches has settled.  [taskId] is the
    uuid drawn. *)
Definition generateCode (env : Env) (taskId prompt : string) (options : Options)
    (st : state) : string * state :=
  let task := Task.new taskId (started env) prompt options in
  let st := saveTasksToDisk (assign taskId task st) in
  match executeCodeGeneration env taskId prompt options st with
  | (Ok _, st) => (taskId, st)
  | (Throw error, st) => (taskId, onRejected env taskId error st)
  end.

End Generation.

(** ** Queries *)

Module TaskStatus.
Record t : Type := mk {
  id : string;
  status : string;
  prompt : string;
  error : option string;
  started_at : string;
  completed_at : option string;
  outputPath : option string
}.
End TaskStatus.

Definition getTaskStatus (taskId : string) (st : state) : except TaskStatus.t :=
  match tasks st !! taskId with
  | None => Throw (TaskNotFound taskId)
  | Some task =>
      Ok (TaskStatus.mk (Task.id task) (Task.status task) (Task.prompt task)
            (Task.error task) (Task.started_at task) (Task.completed_at task)
            (Task.outputPath task))
  end.

Definition getTaskArtifacts (taskId : string) (st : state)
    : except (gmap string string) :=
  match tasks st !! taskId with
  | None => Throw (TaskNotFound taskId)
  | Some task =>
      if negb (String.eqb (Task.status task) "COMPLETED")
      then Throw (TaskNotCompleted taskId (Task.status task))
      else
        match Task.results task with
        | Some results => Ok (Results.code results)
        | None => Throw NoResults
        end
  end.

Module TaskSummary.
Record t : Type := mk {
  id : string;
  status : string;
  prompt : string;
  started_at : string;
  completed_at : option string;
  outputPath : option string
}.
End TaskSummary.

(** [prompt.substring(0, 50) + (prompt.length > 50 ? '...' : '')] *)
Definition shortened (prompt : string) : string :=
  String.substring 0 50 prompt
    +:+ (if Nat.ltb 50 (String.length prompt) then "..." else EmptyString).

Definition summary (task : Task.t) : TaskSummary.t :=
  TaskSummary.mk (Task.id task) (Task.status task) (shortened (Task.prompt task))
    (Task.started_at task) (Task.completed_at task) (Task.outputPath task).

(** [listTasks()]; the order of the array is the one of the map as
    modelled. *)
Definition listTasks (st : state) : list TaskSummary.t :=
  summary <$> (map_to_list (tasks st)).*2.

End Minimal.

(** ** The template generators

    [generateJavaScriptCode] and [generatePythonCode] choose files by the
    keywords of the prompt and fill them with fixed texts.  The texts of
    the code files are parameters ([Templates]); the README, which is
    composed from the prompt and from the files chosen, is written out.
    An object under construction is the list of its properties in the
    order of their creation, which is the order of [Object.keys]. *)

Record Templates : Type := mkTemplates {
  server_js : string;
  package_json : string;
  App_js : string;
  App_css : string;
  app_py : string;
  flask_requirements : string;
  analysis_py : string;
  data_requirements : string
}.

(** [files[key] = text]: a property that exists keeps its place. *)
Fixpoint put (key text : string) (files : list (string * string))
    : list (string * string) :=
  match files with
  | [] => [(key, text)]
  | (k, v) :: rest =>
      if String.eqb k key then (k, text) :: rest
      else (k, v) :: put key text rest
  end.

(** The object as [callCodeGenerator] returns it. *)
Definition as_map (files : list (string * string)) : gmap string string :=
  list_to_map files.

(** [prompt.toLowerCase().includes(word)] *)
Definition mentions (prompt word : string) : bool :=
  includes (toLowerCase prompt) word.

Definition lines (l : list string) : string := String.concat newline l.

(** [Object.keys(files).map(file => `- ${file}`).join('\n')] *)
Definition structure (files : list (string * string)) : string :=
  lines ((fun file => "- " +:+ file) <$> files.*1).

Definition readme_js (prompt : string) (files : list (string * string)) : string :=
  lines
    [ "# Project Generated by Happiness Agent";
      EmptyString;
      "This project was automatically generated based on your prompt:";
      EmptyString;
      "> " +:+ prompt;
      EmptyString;
      "## Getting Started";
      EmptyString;
      "1. Install dependencies:";
      "   ```";
      "   npm install";
      "   ```";
      EmptyString;
      "2. Run the project:";
      "   ```";
      "   npm start";
      "   ```";
      EmptyString;
      "## Project Structure";
      EmptyString;
      structure files;
      EmptyString;
      "## Next Steps";
      EmptyString;
      "1. Review the generated code";
      "2. Add additional features as needed";
      "3. Write tests for your application";
      "4. Deploy your application";
      "    " ].

Definition generateJavaScriptCode (t : Templates) (prompt : string)
    : list (string * string) :=
  let isNodeBackend :=
    mentions prompt "api" || mentions prompt "server" || mentions prompt "backend" in
  let isReactFrontend :=
    mentions prompt "react" || mentions prompt "frontend" || mentions prompt "ui" in
  let files := [] in
  let files :=
    if isNodeBackend
    then put "package.json" (package_json t) (put "server.js" (server_js t) files)
    else files in
  let files :=
    if isReactFrontend
    then put "App.css" (App_css t) (put "App.js" (App_js t) files)
    else files in
  (* the template of the README is evaluated before the property is set *)
  put "README.md" (readme_js prompt files) files.

Definition readme_py (prompt : string) (isFlask : bool)
    (files : list (string * string)) : string :=
  lines
    [ "# Python Project Generated by Happiness Agent";
      EmptyString;
      "This project was automatically generated based on your prompt:";
      EmptyString;
      "> " +:+ prompt;
      EmptyString;
      "## Getting Started";
      EmptyString;
      "1. Create a virtual environment:";
      "   ```";
      "   python -m venv venv";
      "   source venv/bin/activate  # On Windows: venv\Scripts\activate";
      "   ```";
      EmptyString;
      "2. Install dependencies:";
      "   ```";
      "   pip install -r requirements.txt";
      "   ```";
      EmptyString;
      "3. Run the project:";
      "   ```";
      "   python " +:+ (if isFlask then "app.py" else "analysis.py");
      "   ```";
      EmptyString;
      "## Project Structure";
      EmptyString;
      structure files;
      EmptyString;
      "## Next Steps";
      EmptyString;
      "1. Review the generated code";
      "2. Add additional features as needed";
      "3. Write tests for your application";
      "4. Deploy your application";
      "    " ].

Definition generatePythonCode (t : Templates) (prompt : string)
    : list (string * string) :=
  let isFlask :=
    mentions prompt "flask" || mentions prompt "web" || mentions prompt "api" in
  let isDataScience :=
    mentions prompt "data" || mentions prompt "analysis"
    || mentions prompt "machine learning" in
  let files := [] in
  let files :=
    if isFlask
    then put "requirements.txt" (flask_requirements t)
           (put "app.py" (app_py t) files)
    else files in
  let files :=
    if isDataScience
    then put "requirements.txt" (data_requirements t)
           (put "analysis.py" (analysis_py t) files)
    else files in
  put "README.md" (readme_py prompt isFlask files) files.

(** ** The shipped configuration and stand-ins for the parameters *)

(** What the client reads of config/mvp.json. *)
Definition mvp : Minimal.Config :=
  Minimal.mkConfig (Some ["javascript"; "python"]) true
    (Some ".happiness/generated").

(** Generators that answer with a README of one line. *)
Definition sample_generator (kind prompt : string) : gmap string string :=
  {[ "README.md" := kind +:+ ": " +:+ prompt ]}.

(** A parser that accepts the empty object only. *)
Definition sample_parse (text : string) : except value :=
  if String.eqb text "{}" then Ok (VObj ∅)
  else Throw (mkError "Unexpected token").

Definition sample_join (a b : string) : string := a +:+ "/" +:+ b.

(** Templates of one line each. *)
Definition sample_templates : Templates :=
  mkTemplates "// server" "{}" "// App" "/* App */" "# app" "Flask"
    "# analysis" "pandas".

Definition sample_env (written : option Error) : Minimal.Env :=
  Minimal.mkEnv "12:00:00.000" "12:00:02.000" "12:00:03" "12:00:04" "12:00:05"
    written.

Definition sample_generation (language : option string) (written : option Error)
    : string * Minimal.state :=
  Minimal.generateCode mvp (sample_generator "js") (sample_generator "py")
    sample_parse sample_join (sample_env written) "g1" "a todo list"
    (Minimal.mkOptions language None) (Minimal.newClient None).

(** * The vocabulary of the properties *)

(** ** What a run leaves behind *)

(** The StepRecord that [startWorkflow] makes for a step. *)
Definition fresh (d : StepDefinition.t) : StepRecord.t :=
  StepRecord.mk (StepDefinition.name d) PENDING VNull None.

(** A record the loop has passed without stopping. *)
Definition settled (r : StepRecord.t) : Prop :=
  (StepRecord.status r = COMPLETED \/
   (StepRecord.status r = SKIPPED /\ StepRecord.result r = VNull)) /\
  StepRecord.error r = None.

(** [stepResults] as the records tell it: one assignment
    [stepResults[name] = result] per COMPLETED record, in order. *)
Definition accumulate (acc : gmap string value) (r : StepRecord.t)
    : gmap string value :=
  if is_status COMPLETED r
  then assign (StepRecord.name r) (StepRecord.result r) acc
  else acc.

Definition accumulated (rs : list StepRecord.t) : gmap string value :=
  foldl accumulate ∅ rs.

(** The results accumulated when the loop reaches step [j], as the
    records of the task tell them. *)
Definition before (task : Task.t) (j : nat) : gmap string value :=
  accumulated (take j (Task.steps task)).

(** What the assignment made for a record adds to [stepResults], and
    what the spread made for it adds to [task.results]. *)
Definition stored (r : StepRecord.t) : gmap string value :=
  if is_status COMPLETED r
  then assign (StepRecord.name r) (StepRecord.result r) ∅
  else ∅.


(** [task.results] as the records tell it: one spread
    [{...results, ...result}] per COMPLETED record, in order. *)
Definition merge (acc : gmap string value) (r : StepRecord.t)
    : gmap string value :=
  if is_status COMPLETED r then ownProps (StepRecord.result r) ∪ acc else acc.

Definition merged (rs : list StepRecord.t) : gmap string value :=
  foldl merge ∅ rs.

(** The order PENDING < RUNNING < COMPLETED, FAILED, SKIPPED of the
    statuses of a step. *)
Definition rank (s : Status) : nat :=
  match s with
  | PENDING => 0
  | RUNNING => 1
  | COMPLETED | FAILED | SKIPPED | CANCELLED => 2
  end.

(** A status stays as it is or moves forward. *)
Definition forward (s s' : Status) : Prop := s = s' \/ rank s < rank s'.

(** From one state of a task to a later one: the same number of steps,
    and no step has moved backward. *)
Definition advances (older newer : Task.t) : Prop :=
  Forall2 (fun r r' => forward (StepRecord.status r) (StepRecord.status r'))
    (Task.steps older) (Task.steps newer).

Definition succeeds (newer older : Task.t) : Prop := advances older newer.

(** The successive contents of the task [taskId] that a journal records,
    newest first. *)
Definition snapshots (taskId : string) (evs : list event) : list Task.t :=
  omap (fun ev =>
          match ev with
          | Assigned id task => if decide (id = taskId) then Some task else None
          | _ => None
          end) evs.

(** The errors passed to [logger.error], newest first. *)
Definition errors (evs : list event) : list Error :=
  omap (fun ev => match ev with ErrorLogged _ e => Some e | _ => None end) evs.

Definition add_events (evs : list event) (st : state) : state :=
  mkState (tasks st) (disk st) (evs ++ journal st).

(** Events that are no assignment. *)
Definition is_call (ev : event) : Prop :=
  match ev with
  | Assigned _ _ => False
  | _ => True
  end.

(** Events that are no report of an error. *)
Definition is_quiet (ev : event) : Prop :=
  match ev with
  | ErrorLogged _ _ => False
  | _ => True
  end.

(** The message that the catch block composes for the task. *)
Definition step_failure (d : StepDefinition.t) (e : Error) : string :=
  "Failed to execute step " +:+ StepDefinition.name d +:+ ": " +:+ message e.



(** ** The calls of an iteration *)

Section CallVocabulary.

Variable invoke : string -> string -> value -> except value.

(** What [skips] and [attempt] return, and the calls they record. *)
Definition skip_decision (d : StepDefinition.t) (sr : gmap string value)
    : except bool :=
  match StepDefinition.condition d with
  | None => Ok false
  | Some c =>
      match c sr with
      | Ok v => Ok (negb (truthy v))
      | Throw e => Throw e
      end
  end.

Definition condition_events (d : StepDefinition.t) (i : nat)
    (sr : gmap string value) : list event :=
  match StepDefinition.condition d with
  | None => []
  | Some _ => [ConditionCalled i sr]
  end.

Definition inputs_value (d : StepDefinition.t) (params : value)
    (sr : gmap string value) : except value :=
  match StepDefinition.inputs d with
  | InputsFunction f => f params sr
  | InputsConstant v => Ok v
  end.

Definition inputs_events (d : StepDefinition.t) (i : nat) (params : value)
    (sr : gmap string value) : list event :=
  match StepDefinition.inputs d with
  | InputsFunction _ => [InputsCalled i params sr]
  | InputsConstant _ => []
  end.

Definition agent_events (d : StepDefinition.t) (i : nat) (params : value)
    (sr : gmap string value) : list event :=
  match inputs_value d params sr with
  | Ok inputs =>
      [AgentCalled i (StepDefinition.agent d) (StepDefinition.action d) inputs]
  | Throw _ => []
  end.

Definition attempt_result (d : StepDefinition.t) (params : value)
    (sr : gmap string value) : except value :=
  andThen (inputs_value d params sr) (fun inputs =>
  andThen (invoke (StepDefinition.agent d) (StepDefinition.action d) inputs)
    (fun result =>
  match StepDefinition.outputMapping d with
  | Some outputMapping => outputMapping result
  | None => Ok result
  end)).

End CallVocabulary.

(** ** The invariant of the loop and its endings *)

Section Vocabulary.

Variable invoke : string -> string -> value -> except value.
Variables (taskId : string) (params : value).
(** The steps of the workflow, the task as [startWorkflow] registered it
    and the state in which it did. *)
Variable defs : list StepDefinition.t.
Variable created : Task.t.
Variable st0 : state.

(** What a recorded event tells about the records [L] of the task:
    a call received the results accumulated by the records before it;
    a condition that returned false left its step SKIPPED and one that
    threw left it PENDING; the inputs and the agent were only asked for
    steps that ended COMPLETED or FAILED, and FAILED with the message of
    the error when the call threw. *)
Definition explained (L : list StepRecord.t) (ev : event) : Prop :=
  match ev with
  | ConditionCalled j s =>
      j <= length L /\ s = accumulated (take j L) /\
      exists d c,
        defs !! j = Some d /\ StepDefinition.condition d = Some c /\
        (forall v, c s = Ok v -> truthy v = false ->
           exists r, L !! j = Some r /\ StepRecord.status r = SKIPPED) /\
        (forall e, c s = Throw e ->
           exists r, L !! j = Some r /\ StepRecord.status r = PENDING)
  | InputsCalled j p s =>
      p = params /\ s = accumulated (take j L) /\
      exists r d f,
        L !! j = Some r /\ defs !! j = Some d /\
        StepDefinition.inputs d = InputsFunction f /\
        (StepRecord.status r = COMPLETED \/ StepRecord.status r = FAILED) /\
        forall e, f p s = Throw e ->
          StepRecord.status r = FAILED /\ StepRecord.error r = Some (message e)
  | AgentCalled j a c inputs =>
      exists r,
        L !! j = Some r /\
        (StepRecord.status r = COMPLETED \/ StepRecord.status r = FAILED) /\
        forall e, invoke a c inputs = Throw e ->
          StepRecord.status r = FAILED /\ StepRecord.error r = Some (message e)
  | Assigned id task => id = taskId /\ length (Task.steps task) = length defs
  | ErrorLogged _ _ => True
  end.

(** A SKIPPED step is one whose condition returned a falsy value on the
    results accumulated before it.  A COMPLETED step is one that was not
    skipped, and the result recorded for it is the mapped result that its
    [try] block computed from the results accumulated before it. *)
Definition computed (L : list StepRecord.t) : Prop :=
  forall j d r,
    defs !! j = Some d -> L !! j = Some r ->
    (StepRecord.status r = SKIPPED ->
     skip_decision d (accumulated (take j L)) = Ok true) /\
    (StepRecord.status r = COMPLETED ->
     skip_decision d (accumulated (take j L)) = Ok false /\
     attempt_result invoke d params (accumulated (take j L))
     = Ok (StepRecord.result r)).

(** The state after the events [evs], the task being [task] now. *)
Record world (evs : list event) (task : Task.t) (st : state) : Prop := World {
  w_journal : journal st = evs ++ journal st0;
  w_disk : disk st = disk st0;
  w_task : tasks st !! taskId = Some task;
  w_others : forall other, other <> taskId -> tasks st !! other = tasks st0 !! other;
  w_history : StronglySorted succeeds (snapshots taskId evs ++ [created]);
  w_newest : head (snapshots taskId evs ++ [created]) = Some task;
  w_length : length (Task.steps task) = length defs
}.

(** At the head of the loop, [passed] being the steps passed, [pre] their
    records and [remaining] the steps to come. *)
Record at_head (passed remaining : list StepDefinition.t)
    (pre : list StepRecord.t) (evs : list event)
    (sr : gmap string value) (task : Task.t) (st : state) : Prop := AtHead {
  h_defs : defs = passed ++ remaining;
  h_steps : Task.steps task = pre ++ (fresh <$> remaining);
  h_pre : Forall2 (fun d r => StepRecord.name r = StepDefinition.name d /\ settled r)
            passed pre;
  h_sr : sr = accumulated pre;
  h_values : computed pre;
  h_results : Task.results task = merged pre;
  h_status : Task.status task = RUNNING;
  h_error : Task.error task = None;
  h_completed : Task.completed_at task = Task.completed_at created;
  h_world : world evs task st;
  h_events : Forall (explained pre) evs;
  h_errors : errors evs = []
}.

(** The three ways in which the loop ends: after the last step; by the
    [return] of the catch block, at the step that failed; by an exception
    that leaves the loop, thrown by the condition of a step. *)
Inductive ending (out : except flow) (evs : list event) (task : Task.t)
    (st : state) : Prop :=
| Finished sr pre :
    out = Ok (Next sr) ->
    at_head defs [] pre evs sr task st ->
    ending out evs task st
| StepFailed passed d rest pre e :
    out = Ok Return ->
    defs = passed ++ d :: rest ->
    Forall2 (fun d r => StepRecord.name r = StepDefinition.name d /\ settled r)
      passed pre ->
    computed pre ->
    skip_decision d (accumulated pre) = Ok false ->
    attempt_result invoke d params (accumulated pre) = Throw e ->
    Task.steps task
    = pre ++ StepRecord.mk (StepDefinition.name d) FAILED VNull (Some (message e))
          :: (fresh <$> rest) ->
    Task.status task = FAILED ->
    Task.error task = Some (step_failure d e) ->
    Task.results task = merged pre ->
    Task.completed_at task = Task.completed_at created ->
    world evs task st ->
    Forall (explained (Task.steps task)) evs ->
    errors evs = [e] ->
    ending out evs task st
| Rejected passed d rest pre c e :
    out = Throw e ->
    defs = passed ++ d :: rest ->
    Forall2 (fun d r => StepRecord.name r = StepDefinition.name d /\ settled r)
      passed pre ->
    computed pre ->
    Task.steps task = pre ++ (fresh <$> d :: rest) ->
    StepDefinition.condition d = Some c ->
    c (accumulated pre) = Throw e ->
    Task.status task = RUNNING ->
    Task.error task = None ->
    Task.results task = merged pre ->
    Task.completed_at task = Task.completed_at created ->
    world evs task st ->
    Forall (explained (Task.steps task)) evs ->
    errors evs = [] ->
    ending out evs task st.

End Vocabulary.

(** ** The report of a run *)


(** The task once the run that [startWorkflow] launched has settled, and
    the events [evs] of the run: either every step is COMPLETED or
    SKIPPED and the task is COMPLETED; or a step FAILED in its [try]
    block, the steps after it are untouched and the task is FAILED with
    the message composed for that step; or the condition of a step threw,
    no step is marked, and the handler of [startWorkflow] set the task to
    FAILED with the message of the error. *)
Inductive report (invoke : string -> string -> value -> except value)
    (params : value) (defs : list StepDefinition.t) (finished : string)
    (evs : list event) (task : Task.t) : Prop :=
| AllDone :
    Forall2 (fun d r => StepRecord.name r = StepDefinition.name d /\ settled r)
      defs (Task.steps task) ->
    computed invoke params defs (Task.steps task) ->
    Task.status task = COMPLETED ->
    Task.completed_at task = Some finished ->
    Task.error task = None ->
    Task.results task = merged (Task.steps task) ->
    errors evs = [] ->
    report invoke params defs finished evs task
| FailedAt passed d rest pre e :
    defs = passed ++ d :: rest ->
    Forall2 (fun d r => StepRecord.name r = StepDefinition.name d /\ settled r)
      passed pre ->
    computed invoke params defs pre ->
    skip_decision d (accumulated pre) = Ok false ->
    attempt_result invoke d params (accumulated pre) = Throw e ->
    Task.steps task
    = pre ++ StepRecord.mk (StepDefinition.name d) FAILED VNull (Some (message e))
          :: (fresh <$> rest) ->
    Task.status task = FAILED ->
    Task.error task = Some (step_failure d e) ->
    Task.results task = merged pre ->
    Task.completed_at task = None ->
    errors evs = [e] ->
    report invoke params defs finished evs task
| RejectedAt passed d rest pre c e :
    defs = passed ++ d :: rest ->
    Forall2 (fun d r => StepRecord.name r = StepDefinition.name d /\ settled r)
      passed pre ->
    computed invoke params defs pre ->
    Task.steps task = pre ++ (fresh <$> d :: rest) ->
    StepDefinition.condition d = Some c ->
    c (accumulated pre) = Throw e ->
    Task.status task = FAILED ->
    Task.error task = Some (message e) ->
    Task.results task = merged pre ->
    Task.completed_at task = None ->
    errors evs = [e] ->
    report invoke params defs finished evs task.

(** ** What a step does on the results accumulated before it *)

Section Outcomes.

Variable invoke : string -> string -> value -> except value.
Variable params : value.

(** [step.outputMapping ? step.outputMapping(result) : result] *)
Definition mapped_result (d : StepDefinition.t) (result : value) : except value :=
  match StepDefinition.outputMapping d with
  | Some outputMapping => outputMapping result
  | None => Ok result
  end.

(** The condition of [d] returns a falsy value on [s]: the step is
    skipped. *)
Definition declines (d : StepDefinition.t) (s : gmap string value) : Prop :=
  exists c v,
    StepDefinition.condition d = Some c /\ c s = Ok v /\ truthy v = false.

(** [d] has no condition, or its condition returns a truthy value on
    [s]: the step is entered. *)
Definition admits (d : StepDefinition.t) (s : gmap string value) : Prop :=
  StepDefinition.condition d = None \/
  exists c v,
    StepDefinition.condition d = Some c /\ c s = Ok v /\ truthy v = true.

(** The condition of [d] throws [e] on [s]. *)
Definition condition_raises (d : StepDefinition.t) (s : gmap string value)
    (e : Error) : Prop :=
  exists c, StepDefinition.condition d = Some c /\ c s = Throw e.

(** The inputs of [d] on [s], the agent on these inputs and the output
    mapping on the answer of the agent all return, the last one
    [mapped]. *)
Definition yields (d : StepDefinition.t) (s : gmap string value)
    (mapped : value) : Prop :=
  exists inputs result,
    inputs_value d params s = Ok inputs /\
    invoke (StepDefinition.agent d) (StepDefinition.action d) inputs = Ok result /\
    mapped_result d result = Ok mapped.

(** The inputs of [d] on [s], or the agent on these inputs, or the
    output mapping on the answer of the agent throws [e]. *)
Definition raises (d : StepDefinition.t) (s : gmap string value)
    (e : Error) : Prop :=
  inputs_value d params s = Throw e \/
  exists inputs,
    inputs_value d params s = Ok inputs /\
    (invoke (StepDefinition.agent d) (StepDefinition.action d) inputs = Throw e \/
     exists result,
       invoke (StepDefinition.agent d) (StepDefinition.action d) inputs
       = Ok result /\
       mapped_result d result = Throw e).

(** [r] is the record of step [d] after it ran on [s] without throwing:
    SKIPPED with its null result when the condition declined, COMPLETED
    with the mapped result otherwise. *)
Definition ran (d : StepDefinition.t) (s : gmap string value)
    (r : StepRecord.t) : Prop :=
  StepRecord.name r = StepDefinition.name d /\
  StepRecord.error r = None /\
  ((declines d s /\ StepRecord.status r = SKIPPED /\
    StepRecord.result r = VNull) \/
   (admits d s /\ yields d s (StepRecord.result r) /\
    StepRecord.status r = COMPLETED)).

End Outcomes.

(** ** Numbers, parameters and keys *)

(** The two numbers are the same datum. *)
Definition same_number (x y : spec_float) : bool :=
  match x, y with
  | S754_zero a, S754_zero b => Bool.eqb a b
  | S754_infinity a, S754_infinity b => Bool.eqb a b
  | S754_nan, S754_nan => true
  | S754_finite a m e, S754_finite b m' e' =>
      Bool.eqb a b && Pos.eqb m m' && Z.eqb e e'
  | _, _ => false
  end.

(** The progress computed for [c] steps done out of [t] is the floor of
    the percentage. *)
Definition exact_progress (c t : nat) : bool :=
  same_number (progress_of c t)
    (number_of_Z (100 * Z.of_nat c / Z.of_nat t)).

(** [v == null] *)
Definition nullish (v : value) : bool :=
  match v with
  | VUndefined | VNull => true
  | _ => false
  end.

(** An issue that is an error. *)
Definition is_failure (issue : Minimal.Issue.t) : bool :=
  String.eqb (Minimal.Issue.type issue) "error".

(** The text of a package.json cannot be read: the parse throws, or
    yields a value without properties. *)
Definition unreadable (parsed : except value) : bool :=
  match parsed with
  | Throw _ => true
  | Ok v => nullish v
  end.

(** The verdict stored with the generated files. *)
Definition verdict_of (config : Minimal.Config) (JSON_parse : string -> except value)
    (code : gmap string string) : Minimal.Validation.t :=
  if Minimal.enable_basic_testing config
  then Minimal.validateCode JSON_parse code
  else Minimal.Validation.mk true [].

(** The directory of the generated files, when the configuration asks
    for them to be saved. *)
Definition outputDir (config : Minimal.Config) (path_join : string -> string -> string)
    (env : Minimal.Env) (options : Minimal.Options) : option string :=
  match truthy_string (Minimal.generations_path config) with
  | Some generations_path =>
      Some (path_join
              (default generations_path (truthy_string (Minimal.output options)))
              ("gen-" +:+ dashed (Minimal.stamp env)))
  | None => None
  end.

(** Two contents of a task agree on what identifies it. *)
Definition same_identity (a b : Task.t) : Prop :=
  Task.id a = Task.id b /\ Task.type a = Task.type b /\
  Task.params a = Task.params b /\ Task.started_at a = Task.started_at b.

(** The pairs of an agent and an action that [executeStep] answers. *)
Definition handlers : list (string * string) :=
  [("consultant", "analyze_prompt"); ("pm", "create_task_plan");
   ("code_generator", "generate_module"); ("test_runner", "test_module");
   ("linter", "lint_code"); ("error_analyzer", "analyze_issues");
   ("code_generator", "refine_code")].

(** The string has a colon. *)
Fixpoint has_colon (s : string) : bool :=
  match s with
  | EmptyString => false
  | String c rest => Ascii.eqb c colon || has_colon rest
  end.

(** Every task of the map is registered under its own id. *)
Definition well_keyed (m : gmap string Minimal.Task.t) : Prop :=
  forall key task, m !! key = Some task -> Minimal.Task.id task = key.

(** * Properties of the task registry *)

(** C6. [cancelTask] fails with TaskNotFound on an unknown id, fails with
    InvalidState when the status of the task is neither PENDING nor
    RUNNING (so on every COMPLETED and every FAILED task), and otherwise
    succeeds: it returns [true], the task becomes CANCELLED and receives
    the time read as its completion timestamp; the other tasks are left
    as they were. *)
Theorem cancelTask_spec (now taskId : string) (st : state) :
  (tasks st !! taskId = None ->
   cancelTask now taskId st = (Throw (TaskNotFound taskId), st)) /\
  (forall task, tasks st !! taskId = Some task ->
   Task.status task <> PENDING -> Task.status task <> RUNNING ->
   cancelTask now taskId st
   = (Throw (InvalidState taskId (Task.status task)), st)) /\
  (forall task, tasks st !! taskId = Some task ->
   Task.status task = PENDING \/ Task.status task = RUNNING ->
   exists st',
     cancelTask now taskId st = (Ok true, st') /\
     (exists task',
        tasks st' !! taskId = Some task' /\
        Task.status task' = CANCELLED /\
        Task.completed_at task' = Some now /\
        Task.steps task' = Task.steps task /\
        Task.results task' = Task.results task) /\
     (forall other, other <> taskId -> tasks st' !! other = tasks st !! other)).
Proof.
  unfold cancelTask. repeat split.
  - intros ->. reflexivity.
  - intros task -> Hp Hr.
    rewrite !bool_decide_eq_true_2 by assumption. reflexivity.
  - intros task -> Hs. eexists. split.
    + destruct Hs as [Hs | Hs]; rewrite Hs; reflexivity.
    + split.
      * eexists. split; [apply lookup_insert_eq | done].
      * intros other Hne. simpl. by rewrite !lookup_insert_ne.
Qed.

Lemma cancelTask_spec_witness :
  cancelTask "13:00" "t9" (registry_with (sample_task RUNNING))
  = (Throw (TaskNotFound "t9"), registry_with (sample_task RUNNING)) /\
  cancelTask "13:00" "t1" (registry_with (sample_task FAILED))
  = (Throw (InvalidState "t1" FAILED), registry_with (sample_task FAILED)) /\
  exists st',
    cancelTask "13:00" "t1" (registry_with (sample_task RUNNING)) = (Ok true, st') /\
    exists task', tasks st' !! "t1" = Some task' /\ Task.status task' = CANCELLED.
Proof.
  split; [| split].
  - apply (proj1 (cancelTask_spec "13:00" "t9" (registry_with (sample_task RUNNING)))).
    reflexivity.
  - apply (proj1 (proj2 (cancelTask_spec "13:00" "t1"
                           (registry_with (sample_task FAILED))))
             (sample_task FAILED)).
    + reflexivity.
    + discriminate.
    + discriminate.
  - destruct (proj2 (proj2 (cancelTask_spec "13:00" "t1"
                              (registry_with (sample_task RUNNING))))
                (sample_task RUNNING) eq_refl (or_intror eq_refl))
      as (st' & Hc & (task' & Hl & Hs & _) & _).
    exists st'. split; [exact Hc |]. exists task'. split; assumption.
Defined.




(** C9. [getTaskStatus] and [getTaskArtifacts] leave the state as it is,
    and a second call in the state the first one leaves returns what the
    first one returned. *)
Theorem queries_are_idempotent (JSON_stringify : value -> string)
    (taskId : string) (st : state) :
  (snd (getTaskStatus taskId st) = st /\
   getTaskStatus taskId (snd (getTaskStatus taskId st)) = getTaskStatus taskId st) /\
  (snd (getTaskArtifacts JSON_stringify taskId st) = st /\
   getTaskArtifacts JSON_stringify taskId
     (snd (getTaskArtifacts JSON_stringify taskId st))
   = getTaskArtifacts JSON_stringify taskId st).
Proof.
  assert (Hs : snd (getTaskStatus taskId st) = st).
  { unfold getTaskStatus. destruct (tasks st !! taskId); reflexivity. }
  assert (Ha : snd (getTaskArtifacts JSON_stringify taskId st) = st).
  { unfold getTaskArtifacts. destruct (tasks st !! taskId) as [task |];
      [destruct (bool_decide (Task.status task <> COMPLETED)) |]; reflexivity. }
  rewrite Hs, Ha. auto.
Qed.

(** For a registered workflow name, [startWorkflow] registers under the
    uuid drawn a task that has one StepRecord per step of the workflow,
    each PENDING with a null result and the name of its step, whose
    status is PENDING and whose result map is empty; it launches the run
    on that state and returns the id.  For a name that is not registered
    it fails and leaves the state, so the set of tasks, as it was: with
    UnknownWorkflow, unless the name is the name of a property of
    [Object.prototype], for which it fails where it reads the steps of
    the workflow. *)
Lemma startWorkflow_cases (invoke : string -> string -> value -> except value)
    (table : gmap string Workflow.t) (taskId started finished : string)
    (workflowName : string) (params : value) (st : state) :
  (forall workflow, table !! workflowName = Some workflow ->
   exists created st0,
     tasks st0 !! taskId = Some created /\
     (forall other, other <> taskId -> tasks st0 !! other = tasks st !! other) /\
     length (Task.steps created) = length (Workflow.steps workflow) /\
     Forall (fun r => StepRecord.status r = PENDING /\ StepRecord.result r = VNull)
       (Task.steps created) /\
     StepRecord.name <$> Task.steps created
     = StepDefinition.name <$> Workflow.steps workflow /\
     Task.status created = PENDING /\
     Task.results created = ∅ /\
     Task.params created = params /\
     startWorkflow invoke table taskId started finished workflowName params st
     = (Ok taskId, launch invoke finished taskId workflow params st0)) /\
  (table !! workflowName = None -> workflowName ∉ Object_prototype ->
   startWorkflow invoke table taskId started finished workflowName params st
   = (Throw (UnknownWorkflow workflowName), st)) /\
  (table !! workflowName = None -> workflowName ∈ Object_prototype ->
   startWorkflow invoke table taskId started finished workflowName params st
   = (Throw NoSteps, st)).
Proof.
  unfold startWorkflow. split; [| split].
  - intros workflow ->.
    exists (newTask taskId started workflowName workflow params).
    exists (tasks_set taskId (newTask taskId started workflowName workflow params) st).
    split; [apply lookup_insert_eq |].
    split; [intros other Hne; simpl; by rewrite lookup_insert_ne |].
    simpl. rewrite length_fmap. split; [reflexivity |].
    split; [apply Forall_fmap, Forall_true; intros d; simpl; auto |].
    split; [rewrite <- list_fmap_compose; reflexivity |].
    repeat split.
  - intros -> Hout. by rewrite bool_decide_eq_false_2.
  - intros -> Hin. by rewrite bool_decide_eq_true_2.
Qed.

(** C8 does not hold of the code for every unregistered name.  The
    guard of [startWorkflow] tests [!this.workflows[workflowName]] on an
    object literal, so a name such as [constructor], which no workflow
    bears but which every object inherits from [Object.prototype], passes
    the guard: the call does not fail with UnknownWorkflow but where it
    reads [workflow.steps.map], with the TypeError of that reading.  No
    task is created.  A name that is neither registered nor inherited is
    rejected as the claim says. *)
Theorem startWorkflow_inherited_name :
  workflows !! "constructor" = None /\
  startWorkflow executeStep workflows "t1" "12:00" "12:07" "constructor"
    demo_params initial
  = (Throw NoSteps, initial) /\
  message NoSteps = "Cannot read properties of undefined (reading 'map')" /\
  NoSteps <> UnknownWorkflow "constructor" /\
  startWorkflow executeStep workflows "t1" "12:00" "12:07" "half_cycle"
    demo_params initial
  = (Throw (UnknownWorkflow "half_cycle"), initial).
Proof.
  split; [reflexivity |]. split; [reflexivity |]. split; [reflexivity |].
  split; [discriminate | reflexivity].
Qed.

(** * Properties of the engine *)

(** ** Statuses, histories and accumulated results *)

Lemma forward_refl s : forward s s.
Proof. by left. Qed.

Lemma forward_trans s1 s2 s3 : forward s1 s2 -> forward s2 s3 -> forward s1 s3.
Proof. unfold forward. intros [-> | H1] [-> | H2]; auto. right. lia. Qed.

Lemma forward_terminal s s' : rank s = 2 -> forward s s' -> s' = s.
Proof. unfold forward. intros Hr [-> | Hlt]; [done |]. destruct s'; simpl in *; lia. Qed.

Lemma advances_same_steps a b : Task.steps a = Task.steps b -> advances a b.
Proof.
  unfold advances. intros ->. apply Forall_Forall2_diag, Forall_true.
  intros r. apply forward_refl.
Qed.

Lemma advances_trans a b c : advances a b -> advances b c -> advances a c.
Proof.
  unfold advances. intros Hab Hbc.
  eapply Forall2_trans; [| exact Hab | exact Hbc].
  intros x y z. apply forward_trans.
Qed.

Lemma advances_middle a b pre x y post :
  Task.steps a = pre ++ x :: post ->
  Task.steps b = pre ++ y :: post ->
  forward (StepRecord.status x) (StepRecord.status y) ->
  advances a b.
Proof.
  unfold advances. intros -> -> Hf. apply Forall2_app.
  - apply Forall_Forall2_diag, Forall_true. intros r. apply forward_refl.
  - constructor; [exact Hf |].
    apply Forall_Forall2_diag, Forall_true. intros r. apply forward_refl.
Qed.

Lemma advances_length a b :
  advances a b -> length (Task.steps a) = length (Task.steps b).
Proof. apply Forall2_length. Qed.

Lemma history_push t h l :
  StronglySorted succeeds (h :: l) -> advances h t ->
  StronglySorted succeeds (t :: h :: l).
Proof.
  intros Hs Ha. constructor; [exact Hs |].
  constructor; [exact Ha |].
  apply StronglySorted_inv in Hs as [_ Hall].
  eapply Forall_impl; [exact Hall |].
  intros older Ho. unfold succeeds in *. eapply advances_trans; eassumption.
Qed.

Lemma alter_middle {A} (f : A -> A) (pre : list A) x post :
  alter f (length pre) (pre ++ x :: post) = pre ++ f x :: post.
Proof.
  rewrite alter_app_r_alt by lia. by rewrite Nat.sub_diag.
Qed.

Lemma accumulated_snoc rs r : accumulated (rs ++ [r]) = accumulate (accumulated rs) r.
Proof. unfold accumulated. by rewrite foldl_snoc. Qed.

Lemma merged_snoc rs r : merged (rs ++ [r]) = merge (merged rs) r.
Proof. unfold merged. by rewrite foldl_snoc. Qed.

(** ** The calls of one iteration *)

(** [skips] and [attempt] are their decision and the calls they record. *)
Lemma skips_eq d i sr st :
  skips d i sr st = (skip_decision d sr, add_events (condition_events d i sr) st).
Proof.
  unfold skips, skip_decision, condition_events, add_events, record.
  destruct st as [T D J].
  destruct (StepDefinition.condition d) as [c |]; [| reflexivity].
  destruct (c sr); reflexivity.
Qed.

Lemma attempt_eq invoke d i params sr st :
  attempt invoke d i params sr st
  = (attempt_result invoke d params sr,
     add_events (agent_events d i params sr ++ inputs_events d i params sr) st).
Proof.
  unfold attempt, attempt_result, agent_events, inputs_events, inputs_value,
    add_events, record, andThen.
  destruct st as [T D J].
  destruct (StepDefinition.inputs d) as [f | v]; simpl.
  - destruct (f params sr) as [inputs | e]; [| reflexivity]. simpl.
    destruct (invoke _ _ inputs); [| reflexivity].
    destruct (StepDefinition.outputMapping d); reflexivity.
  - destruct (invoke _ _ v); [| reflexivity].
    destruct (StepDefinition.outputMapping d); reflexivity.
Qed.

(** ** The invariant of the loop *)

Section Runs.

Variable invoke : string -> string -> value -> except value.
Variables (taskId : string) (params : value).
Variable defs : list StepDefinition.t.
Variable created : Task.t.
Variable st0 : state.

#[local] Abbreviation explained := (explained invoke taskId params defs).
#[local] Abbreviation computed := (computed invoke params defs).
#[local] Abbreviation world := (world taskId defs created st0).
#[local] Abbreviation at_head := (at_head invoke taskId params defs created st0).
#[local] Abbreviation ending := (ending invoke taskId params defs created st0).

Lemma computed_snoc passed d rest pre r :
  defs = passed ++ d :: rest -> length passed = length pre ->
  computed pre ->
  (StepRecord.status r = SKIPPED ->
   skip_decision d (accumulated pre) = Ok true) ->
  (StepRecord.status r = COMPLETED ->
   skip_decision d (accumulated pre) = Ok false /\
   attempt_result invoke d params (accumulated pre) = Ok (StepRecord.result r)) ->
  computed (pre ++ [r]).
Proof.
  intros Hdefs Hlen Hpre Hs Hr j d' r' Hd' Hj.
  apply lookup_app_Some in Hj as [Hj | [Hge Hj]].
  - rewrite take_app_le by (apply lookup_lt_Some in Hj; lia). by eapply Hpre.
  - pose proof (list_elem_of_lookup_2 _ _ _ Hj) as Heq.
    apply list_elem_of_singleton in Heq.
    apply lookup_lt_Some in Hj. simpl in Hj.
    assert (j = length pre) as -> by lia. subst r'.
    rewrite take_app_length.
    assert (d' = d) as ->; [| by split].
    rewrite Hdefs, <- Hlen, list_lookup_middle in Hd' by done. congruence.
Qed.

Lemma computed_app_unfinished pre M :
  computed pre ->
  Forall (fun r => StepRecord.status r <> COMPLETED /\
                   StepRecord.status r <> SKIPPED) M ->
  computed (pre ++ M).
Proof.
  intros Hpre HM j d r Hd Hj.
  apply lookup_app_Some in Hj as [Hj | [_ Hj]].
  - rewrite take_app_le by (apply lookup_lt_Some in Hj; lia). by eapply Hpre.
  - apply list_elem_of_lookup_2 in Hj. rewrite Forall_forall in HM.
    destruct (HM r Hj) as [Hc Hs]. split; intros Hst; by destruct Hst.
Qed.

Lemma explained_app L M ev : explained L ev -> explained (L ++ M) ev.
Proof.
  destruct ev as [j s | j p s | j a c inputs | id task | text e]; simpl.
  - intros (Hj & Hs & d & c & Hd & Hc & Hv & He).
    split; [rewrite length_app; lia |].
    split; [by rewrite take_app_le |].
    exists d, c. split; [done |]. split; [done |]. split.
    + intros v Hv1 Hv2. destruct (Hv v Hv1 Hv2) as (r & Hr & Hst).
      exists r. split; [by apply lookup_app_l_Some | done].
    + intros e He1. destruct (He e He1) as (r & Hr & Hst).
      exists r. split; [by apply lookup_app_l_Some | done].
  - intros (Hp & Hs & r & d & f & Hr & Hrest).
    split; [done |].
    split; [rewrite take_app_le; [done | apply lookup_lt_Some in Hr; lia] |].
    exists r, d, f. split; [by apply lookup_app_l_Some | done].
  - intros (r & Hr & Hrest). exists r. split; [by apply lookup_app_l_Some | done].
  - done.
  - done.
Qed.

Lemma explained_all_app L M evs :
  Forall (explained L) evs -> Forall (explained (L ++ M)) evs.
Proof.
  intros H. eapply Forall_impl; [exact H |]. intros ev. apply explained_app.
Qed.

(** An assignment that does not move a step backward extends the
    history. *)
Lemma world_mutate evs task st task' :
  world evs task st -> advances task task' ->
  world (Assigned taskId task' :: evs) task' (mutate taskId task' st).
Proof.
  intros [Hj Hd Ht Ho Hh Hn Hl] Ha. split; simpl.
  - by rewrite Hj.
  - done.
  - apply lookup_insert_eq.
  - intros other Hne. rewrite lookup_insert_ne by done. by apply Ho.
  - rewrite decide_True by done. simpl.
    destruct (snapshots taskId evs ++ [created]) as [| h l] eqn:Hs; [done |].
    simpl in Hn. injection Hn as ->. by apply history_push.
  - by rewrite decide_True.
  - rewrite <- Hl. symmetry. by apply advances_length.
Qed.

Lemma world_tasks_set evs task st :
  world evs task st -> world evs task (tasks_set taskId task st).
Proof.
  intros [Hj Hd Ht Ho Hh Hn Hl]. split; simpl; try done.
  - apply lookup_insert_eq.
  - intros other Hne. rewrite lookup_insert_ne by done. by apply Ho.
Qed.

Lemma snapshots_calls evs' evs :
  Forall is_call evs' -> snapshots taskId (evs' ++ evs) = snapshots taskId evs.
Proof.
  intros Hc. unfold snapshots. rewrite omap_app.
  induction Hc as [| ev evs' Hev _ IH]; [done |].
  destruct ev; simpl in *; try done.
Qed.

Lemma world_add evs' evs task st :
  Forall is_call evs' -> world evs task st ->
  world (evs' ++ evs) task (add_events evs' st).
Proof.
  intros Hc [Hj Hd Ht Ho Hh Hn Hl]. split; simpl; try done.
  - by rewrite Hj, app_assoc.
  - by rewrite snapshots_calls.
  - by rewrite snapshots_calls.
Qed.

Lemma steps_update_step task (pre : list StepRecord.t) x post f :
  Task.steps task = pre ++ x :: post ->
  Task.steps (Task.update_step (length pre) f task) = pre ++ f x :: post.
Proof. intros H. simpl. rewrite H. apply alter_middle. Qed.

Lemma condition_events_calls d i sr : Forall is_call (condition_events d i sr).
Proof.
  unfold condition_events. destruct (StepDefinition.condition d); repeat constructor.
Qed.

Lemma attempt_events_calls d i sr :
  Forall is_call (agent_events d i params sr ++ inputs_events d i params sr).
Proof.
  unfold agent_events, inputs_events. apply Forall_app. split.
  - destruct (inputs_value d params sr); repeat constructor.
  - destruct (StepDefinition.inputs d); repeat constructor.
Qed.

Lemma errors_nil evs : errors evs = [] <-> Forall is_quiet evs.
Proof.
  induction evs as [| ev evs IH]; [by split |].
  destruct ev; simpl; rewrite ?Forall_cons; unfold errors in *; simpl;
    try (rewrite IH; tauto).
  split; [discriminate | intros [[] _]].
Qed.

Lemma condition_events_quiet d i sr : Forall is_quiet (condition_events d i sr).
Proof.
  unfold condition_events. destruct (StepDefinition.condition d); repeat constructor.
Qed.

Lemma attempt_events_quiet d i sr :
  Forall is_quiet (agent_events d i params sr ++ inputs_events d i params sr).
Proof.
  unfold agent_events, inputs_events. apply Forall_app. split.
  - destruct (inputs_value d params sr); repeat constructor.
  - destruct (StepDefinition.inputs d); repeat constructor.
Qed.

Lemma errors_app evs1 evs2 : errors (evs1 ++ evs2) = errors evs1 ++ errors evs2.
Proof. apply omap_app. Qed.

Lemma defs_lookup passed d rest (pre : list StepRecord.t) :
  defs = passed ++ d :: rest -> length passed = length pre ->
  defs !! length pre = Some d.
Proof. intros -> <-. by apply list_lookup_middle. Qed.

Lemma explained_condition_events passed d rest pre r M :
  defs = passed ++ d :: rest -> length passed = length pre ->
  (forall c v, StepDefinition.condition d = Some c ->
               c (accumulated pre) = Ok v -> truthy v = false ->
               StepRecord.status r = SKIPPED) ->
  (forall c e, StepDefinition.condition d = Some c ->
               c (accumulated pre) = Throw e ->
               StepRecord.status r = PENDING) ->
  Forall (explained (pre ++ r :: M))
    (condition_events d (length passed) (accumulated pre)).
Proof.
  intros Hdefs Hlen Hv He. unfold condition_events.
  destruct (StepDefinition.condition d) as [c |] eqn:Hc; [| constructor].
  repeat constructor.
  - rewrite length_app. lia.
  - by rewrite take_app_length'.
  - exists d, c. rewrite Hlen.
    split; [by eapply defs_lookup |]. split; [done |]. split.
    + intros v Hv1 Hv2. exists r. split; [by apply list_lookup_middle |].
      by eapply Hv.
    + intros e He1. exists r. split; [by apply list_lookup_middle |].
      by eapply He.
Qed.

Lemma explained_inputs_events passed d rest pre r M :
  defs = passed ++ d :: rest -> length passed = length pre ->
  StepRecord.status r = COMPLETED \/ StepRecord.status r = FAILED ->
  (forall e, inputs_value d params (accumulated pre) = Throw e ->
             StepRecord.status r = FAILED /\
             StepRecord.error r = Some (message e)) ->
  Forall (explained (pre ++ r :: M))
    (inputs_events d (length passed) params (accumulated pre)).
Proof.
  intros Hdefs Hlen Hst He. unfold inputs_events.
  unfold inputs_value in He.
  destruct (StepDefinition.inputs d) as [f | v] eqn:Hf; [| constructor].
  repeat constructor.
  - by rewrite take_app_length'.
  - exists r, d, f. rewrite Hlen.
    split; [by apply list_lookup_middle |].
    split; [by eapply defs_lookup |]. done.
Qed.

Lemma explained_agent_events (passed : list StepDefinition.t) d pre r M :
  length passed = length pre ->
  StepRecord.status r = COMPLETED \/ StepRecord.status r = FAILED ->
  (forall inputs e,
     inputs_value d params (accumulated pre) = Ok inputs ->
     invoke (StepDefinition.agent d) (StepDefinition.action d) inputs = Throw e ->
     StepRecord.status r = FAILED /\ StepRecord.error r = Some (message e)) ->
  Forall (explained (pre ++ r :: M))
    (agent_events d (length passed) params (accumulated pre)).
Proof.
  intros Hlen Hst He. unfold agent_events.
  destruct (inputs_value d params (accumulated pre)) as [inputs | e] eqn:Hi;
    [| constructor].
  repeat constructor. exists r. rewrite Hlen.
  split; [by apply list_lookup_middle |]. split; [done |].
  intros e. by apply He.
Qed.

Lemma skip_decision_true d sr :
  skip_decision d sr = Ok true ->
  exists c v, StepDefinition.condition d = Some c /\ c sr = Ok v /\ truthy v = false.
Proof.
  unfold skip_decision. destruct (StepDefinition.condition d) as [c |]; [| done].
  destruct (c sr) as [v | e] eqn:Hc; [| done].
  intros [= Hv]. exists c, v.
  destruct (truthy v); [discriminate |].
  split; [reflexivity | split; [assumption | reflexivity]].
Qed.

Lemma skip_decision_false d sr c v :
  skip_decision d sr = Ok false ->
  StepDefinition.condition d = Some c -> c sr = Ok v -> truthy v = true.
Proof.
  unfold skip_decision. intros H Hd Hc. rewrite Hd, Hc in H.
  injection H. destruct (truthy v); [reflexivity | discriminate].
Qed.

Lemma attempt_result_ok d sr mapped :
  attempt_result invoke d params sr = Ok mapped ->
  exists inputs result,
    inputs_value d params sr = Ok inputs /\
    invoke (StepDefinition.agent d) (StepDefinition.action d) inputs = Ok result.
Proof.
  unfold attempt_result, andThen.
  destruct (inputs_value d params sr) as [inputs | e]; [| done].
  destruct (invoke _ _ inputs) as [result | e] eqn:Hinv; [| done].
  intros _. by exists inputs, result.
Qed.

Lemma attempt_result_throw d sr e :
  attempt_result invoke d params sr = Throw e ->
  (forall e', inputs_value d params sr = Throw e' -> e' = e) /\
  (forall inputs e',
     inputs_value d params sr = Ok inputs ->
     invoke (StepDefinition.agent d) (StepDefinition.action d) inputs = Throw e' ->
     e' = e).
Proof.
  unfold attempt_result, andThen.
  destruct (inputs_value d params sr) as [inputs | e0].
  - intros H. split; [discriminate |]. intros inputs' e' [= <-] He'.
    rewrite He' in H. congruence.
  - intros [= ->]. split; [congruence | discriminate].
Qed.

Lemma explained_assigned L evs task st :
  world evs task st -> explained L (Assigned taskId task).
Proof. intros Hw. split; [done | apply (w_length _ _ _ _ _ _ _ Hw)]. Qed.

Lemma skip_decision_returned d sr b c e :
  skip_decision d sr = Ok b ->
  StepDefinition.condition d = Some c -> c sr = Throw e -> False.
Proof.
  unfold skip_decision. intros H Hd Hc. rewrite Hd, Hc in H. discriminate.
Qed.

(** An iteration that goes on to the next step keeps the invariant: the
    step was SKIPPED, or it was COMPLETED with the mapped result. *)
Lemma iteration_next passed d rest pre evs sr task st sr' task' st' :
  at_head passed (d :: rest) pre evs sr task st ->
  iteration invoke taskId params d (length passed) sr task st
  = (Ok (Next sr'), task', st') ->
  exists r evs', at_head (passed ++ [d]) rest (pre ++ [r]) (evs' ++ evs) sr' task' st'.
Proof.
  intros [Hdefs Hsteps Hpre Hsr Hval Hres Hstat Herr Hcomp Hw Hev Hers] Hit.
  pose proof (Forall2_length _ _ _ Hpre) as Hlen.
  simpl in Hsteps.
  assert (Hlk : Task.steps task !! length passed = Some (fresh d)).
  { rewrite Hsteps, Hlen. by apply list_lookup_middle. }
  unfold iteration in Hit. rewrite skips_eq, Hlk in Hit.
  destruct (skip_decision d sr) as [[|] | e] eqn:Hskip; [| | discriminate].
  - injection Hit as <- <- <-.
    set (task1 := Task.update_step (length passed) (StepRecord.set_status SKIPPED) task).
    assert (Hs1 : Task.steps task1
                  = pre ++ StepRecord.set_status SKIPPED (fresh d) :: (fresh <$> rest)).
    { unfold task1. rewrite Hlen. exact (steps_update_step _ _ _ _ _ Hsteps). }
    assert (Hw1 : world ((Assigned taskId task1
                            :: condition_events d (length passed) sr) ++ evs)
                    task1
                    (mutate taskId task1
                       (add_events (condition_events d (length passed) sr) st))).
    { apply (world_mutate _ task).
      - apply world_add; [apply condition_events_calls | done].
      - eapply advances_middle; [exact Hsteps | exact Hs1 |]. right. simpl. lia. }
    exists (StepRecord.set_status SKIPPED (fresh d)), 
      (Assigned taskId task1 :: condition_events d (length passed) sr).
    split.
    + by rewrite <- app_assoc.
    + by rewrite Hs1, <- app_assoc.
    + apply Forall2_app; [done |]. constructor; [| constructor].
      split; [reflexivity |]. split; [right; split; reflexivity | reflexivity].
    + by rewrite accumulated_snoc.
    + eapply computed_snoc;
        [done | done | done | intros _; by rewrite <- Hsr | discriminate].
    + by rewrite merged_snoc.
    + done.
    + done.
    + done.
    + done.
    + simpl. constructor; [split; [done | apply (w_length _ _ _ _ _ _ _ Hw1)] |].
      apply Forall_app. split; [| by apply explained_all_app].
      subst sr. eapply explained_condition_events; [done | done | done |].
      intros c e Hc He. by destruct (skip_decision_returned _ _ _ _ _ Hskip Hc He).
    + apply errors_nil in Hers. apply errors_nil. simpl.
      constructor; [exact I |]. apply Forall_app. split; [| done].
      apply condition_events_quiet.
  - rewrite attempt_eq in Hit.
    destruct (attempt_result invoke d params sr) as [mapped | e] eqn:Hatt;
      [| discriminate].
    injection Hit as <- <- <-.
    destruct (attempt_result_ok _ _ _ Hatt) as (inputs & result & Hin & Hinv).
    set (r1 := StepRecord.set_status RUNNING (fresh d)).
    set (r2 := StepRecord.set_result mapped r1).
    set (r3 := StepRecord.set_status COMPLETED r2).
    set (task1 := Task.update_step (length passed) (StepRecord.set_status RUNNING) task).
    set (task2 := Task.update_step (length passed) (StepRecord.set_result mapped) task1).
    set (task3 := Task.update_step (length passed) (StepRecord.set_status COMPLETED) task2).
    set (task4 := Task.set_results (ownProps mapped ∪ Task.results task) task3).
    set (calls := agent_events d (length passed) params sr
                    ++ inputs_events d (length passed) params sr).
    assert (Hs1 : Task.steps task1 = pre ++ r1 :: (fresh <$> rest)).
    { unfold task1. rewrite Hlen. exact (steps_update_step _ _ _ _ _ Hsteps). }
    assert (Hs2 : Task.steps task2 = pre ++ r2 :: (fresh <$> rest)).
    { unfold task2. rewrite Hlen. exact (steps_update_step _ _ _ _ _ Hs1). }
    assert (Hs3 : Task.steps task3 = pre ++ r3 :: (fresh <$> rest)).
    { unfold task3. rewrite Hlen. exact (steps_update_step _ _ _ _ _ Hs2). }
    pose (evs1 := Assigned taskId task1
                    :: condition_events d (length passed) sr ++ evs).
    assert (Hw1 : world evs1 task1
                    (tasks_set taskId task1
                       (mutate taskId task1
                          (add_events (condition_events d (length passed) sr) st)))).
    { apply world_tasks_set, (world_mutate _ task).
      - apply world_add; [apply condition_events_calls | done].
      - eapply advances_middle; [exact Hsteps | exact Hs1 |]. right. simpl. lia. }
    apply (world_add calls) in Hw1 as Hwc; [| apply attempt_events_calls].
    apply (world_mutate _ _ _ task2) in Hwc as Hw2;
      [| eapply advances_middle; [exact Hs1 | exact Hs2 | apply forward_refl]].
    apply (world_mutate _ _ _ task3) in Hw2 as Hw3;
      [| eapply advances_middle; [exact Hs2 | exact Hs3 | right; simpl; lia]].
    apply (world_mutate _ _ _ task4) in Hw3 as Hw4;
      [| by apply advances_same_steps].
    apply world_tasks_set in Hw4 as Hw5.
    exists r3.
    exists (Assigned taskId task4 :: Assigned taskId task3 :: Assigned taskId task2
              :: calls ++ Assigned taskId task1
              :: condition_events d (length passed) sr).
    assert (Hshape :
      (Assigned taskId task4 :: Assigned taskId task3 :: Assigned taskId task2
         :: calls ++ Assigned taskId task1
         :: condition_events d (length passed) sr) ++ evs
      = Assigned taskId task4 :: Assigned taskId task3 :: Assigned taskId task2
          :: calls ++ evs1).
    { unfold evs1. simpl. by rewrite <- app_assoc. }
    rewrite Hshape.
    split.
    + by rewrite <- app_assoc.
    + change (Task.steps task4) with (Task.steps task3).
      by rewrite Hs3, <- app_assoc.
    + apply Forall2_app; [done |]. constructor; [| constructor].
      split; [reflexivity |]. split; [by left | reflexivity].
    + rewrite accumulated_snoc, <- Hsr. reflexivity.
    + eapply computed_snoc; [done | done | done | discriminate |].
      intros _. rewrite <- Hsr. by split.
    + rewrite merged_snoc, <- Hres. reflexivity.
    + done.
    + done.
    + done.
    + exact Hw5.
    + subst sr.
      constructor; [by eapply explained_assigned |].
      constructor; [by eapply explained_assigned |].
      constructor; [by eapply explained_assigned |].
      apply Forall_app. split.
      { apply Forall_app. split.
        - eapply explained_agent_events; [done | by left |].
          intros inputs' e' Hi He. congruence.
        - eapply explained_inputs_events; [done | done | by left |].
          intros e' He'. congruence. }
      constructor; [by eapply (explained_assigned _ evs1) |].
      apply Forall_app. split; [| by apply explained_all_app].
      eapply explained_condition_events; [done | done | |].
      * intros c v Hc Hv Ht.
        pose proof (skip_decision_false _ _ _ _ Hskip Hc Hv). congruence.
      * intros c e' Hc He.
        by destruct (skip_decision_returned _ _ _ _ _ Hskip Hc He).
    + apply errors_nil in Hers. apply errors_nil.
      do 3 (constructor; [exact I |]).
      apply Forall_app. split; [apply attempt_events_quiet |].
      constructor; [exact I |]. apply Forall_app. split; [| done].
      apply condition_events_quiet.
Qed.

Lemma skip_decision_throw d sr e :
  skip_decision d sr = Throw e ->
  exists c, StepDefinition.condition d = Some c /\ c sr = Throw e.
Proof.
  unfold skip_decision. destruct (StepDefinition.condition d) as [c |]; [| done].
  destruct (c sr) as [v | e'] eqn:Hc; [done |].
  intros [= ->]. by exists c.
Qed.

(** An iteration that does not go on ends the loop, by the [return] of
    the catch block or by the exception of a condition. *)
Lemma iteration_stops passed d rest pre evs sr task st out task' st' :
  at_head passed (d :: rest) pre evs sr task st ->
  iteration invoke taskId params d (length passed) sr task st = (out, task', st') ->
  (forall sr', out <> Ok (Next sr')) ->
  exists evs', ending out (evs' ++ evs) task' st'.
Proof.
  intros [Hdefs Hsteps Hpre Hsr Hval Hres Hstat Herr Hcomp Hw Hev Hers] Hit Hout.
  pose proof (Forall2_length _ _ _ Hpre) as Hlen.
  simpl in Hsteps.
  assert (Hlk : Task.steps task !! length passed = Some (fresh d)).
  { rewrite Hsteps, Hlen. by apply list_lookup_middle. }
  unfold iteration in Hit. rewrite skips_eq, Hlk in Hit.
  destruct (skip_decision d sr) as [[|] | e] eqn:Hskip.
  - injection Hit as <- _ _. by destruct (Hout sr).
  - rewrite attempt_eq in Hit.
    destruct (attempt_result invoke d params sr) as [mapped | e] eqn:Hatt.
    { injection Hit as <- _ _. by edestruct Hout. }
    injection Hit as <- <- <-.
    destruct (attempt_result_throw _ _ _ Hatt) as [Hin Hinv].
    set (text := "Step execution error for task " +:+ taskId +:+ ", step "
                   +:+ StepDefinition.name d).
    set (r1 := StepRecord.set_status RUNNING (fresh d)).
    set (r2 := StepRecord.set_status FAILED r1).
    set (r3 := StepRecord.set_error (message e) r2).
    set (task1 := Task.update_step (length passed) (StepRecord.set_status RUNNING) task).
    set (task2 := Task.update_step (length passed) (StepRecord.set_status FAILED) task1).
    set (task3 := Task.update_step (length passed) (StepRecord.set_error (message e)) task2).
    set (task4 := Task.set_status FAILED task3).
    set (task5 := Task.set_error _ task4).
    set (calls := agent_events d (length passed) params sr
                    ++ inputs_events d (length passed) params sr).
    assert (Hs1 : Task.steps task1 = pre ++ r1 :: (fresh <$> rest)).
    { unfold task1. rewrite Hlen. exact (steps_update_step _ _ _ _ _ Hsteps). }
    assert (Hs2 : Task.steps task2 = pre ++ r2 :: (fresh <$> rest)).
    { unfold task2. rewrite Hlen. exact (steps_update_step _ _ _ _ _ Hs1). }
    assert (Hs3 : Task.steps task3 = pre ++ r3 :: (fresh <$> rest)).
    { unfold task3. rewrite Hlen. exact (steps_update_step _ _ _ _ _ Hs2). }
    pose (evs1 := Assigned taskId task1
                    :: condition_events d (length passed) sr ++ evs).
    assert (Hw1 : world evs1 task1
                    (tasks_set taskId task1
                       (mutate taskId task1
                          (add_events (condition_events d (length passed) sr) st)))).
    { apply world_tasks_set, (world_mutate _ task).
      - apply world_add; [apply condition_events_calls | done].
      - eapply advances_middle; [exact Hsteps | exact Hs1 |]. right. simpl. lia. }
    apply (world_add calls) in Hw1 as Hwc; [| apply attempt_events_calls].
    apply (world_add [ErrorLogged text e]) in Hwc as Hwl; [| by repeat constructor].
    apply (world_mutate _ _ _ task2) in Hwl as Hw2;
      [| eapply advances_middle; [exact Hs1 | exact Hs2 | right; simpl; lia]].
    apply (world_mutate _ _ _ task3) in Hw2 as Hw3;
      [| eapply advances_middle; [exact Hs2 | exact Hs3 | apply forward_refl]].
    apply (world_mutate _ _ _ task4) in Hw3 as Hw4;
      [| by apply advances_same_steps].
    apply (world_mutate _ _ _ task5) in Hw4 as Hw5;
      [| by apply advances_same_steps].
    apply world_tasks_set in Hw5 as Hw6.
    exists (Assigned taskId task5 :: Assigned taskId task4 :: Assigned taskId task3
              :: Assigned taskId task2 :: ErrorLogged text e
              :: calls ++ Assigned taskId task1
              :: condition_events d (length passed) sr).
    assert (Hshape :
      (Assigned taskId task5 :: Assigned taskId task4 :: Assigned taskId task3
         :: Assigned taskId task2 :: ErrorLogged text e
         :: calls ++ Assigned taskId task1
         :: condition_events d (length passed) sr) ++ evs
      = Assigned taskId task5 :: Assigned taskId task4 :: Assigned taskId task3
          :: Assigned taskId task2 :: [ErrorLogged text e] ++ calls ++ evs1).
    { unfold evs1. simpl. by rewrite <- app_assoc. }
    rewrite Hshape.
    assert (Hs5 : Task.steps task5 = pre ++ r3 :: (fresh <$> rest)) by exact Hs3.
    pose proof Hskip as Hskip'. pose proof Hatt as Hatt'.
    rewrite Hsr in Hskip', Hatt'.
    eapply (StepFailed _ _ _ _ _ _ _ _ _ _ passed d rest pre e); try done.
    + rewrite Hs5. subst sr.
      do 4 (constructor; [by eapply explained_assigned |]).
      constructor; [exact I |].
      apply Forall_app. split.
      { apply Forall_app. split.
        - eapply explained_agent_events; [done | by right |].
          intros inputs' e' Hi He. rewrite (Hinv _ _ Hi He). by split.
        - eapply explained_inputs_events; [done | done | by right |].
          intros e' He'. rewrite (Hin _ He'). by split. }
      constructor; [by eapply (explained_assigned _ evs1) |].
      apply Forall_app. split; [| by apply explained_all_app].
      eapply explained_condition_events; [done | done | |].
      * intros c v Hc Hv Ht.
        pose proof (skip_decision_false _ _ _ _ Hskip Hc Hv). congruence.
      * intros c e' Hc He.
        by destruct (skip_decision_returned _ _ _ _ _ Hskip Hc He).
    + apply errors_nil in Hers.
      assert (Hq : errors (calls ++ evs1) = []).
      { apply errors_nil. apply Forall_app. split; [apply attempt_events_quiet |].
        constructor; [exact I |]. apply Forall_app. split; [| done].
        apply condition_events_quiet. }
      change (e :: errors (calls ++ evs1) = [e]). by rewrite Hq.
  - injection Hit as <- <- <-.
    destruct (skip_decision_throw _ _ _ Hskip) as (c & Hc & Hthrow).
    exists (condition_events d (length passed) sr).
    eapply Rejected; try done.
    + by subst sr.
    + apply world_add; [apply condition_events_calls | done].
    + rewrite Hsteps. apply Forall_app. split; [| by apply explained_all_app].
      subst sr. eapply explained_condition_events; [done | done | | done].
      intros c' v Hc' Hv. congruence.
    + apply errors_nil in Hers. apply errors_nil.
      apply Forall_app. split; [apply condition_events_quiet | done].
Qed.

(** From a head where the invariant holds, the loop ends in one of the
    three ways. *)
Lemma loop_ends remaining : forall passed pre evs sr task st out task' st',
  at_head passed remaining pre evs sr task st ->
  loop invoke taskId params remaining (length passed) sr task st = (out, task', st') ->
  exists evs', ending out (evs' ++ evs) task' st'.
Proof.
  induction remaining as [| d rest IH];
    intros passed pre evs sr task st out task' st' Hhead Hloop.
  - simpl in Hloop. injection Hloop as <- <- <-.
    exists []. eapply Finished; [reflexivity |].
    pose proof (h_defs _ _ _ _ _ _ _ _ _ _ _ _ _ Hhead) as Hd.
    rewrite app_nil_r in Hd. subst passed. exact Hhead.
  - simpl in Hloop.
    destruct (iteration invoke taskId params d (length passed) sr task st)
      as [[o task1] st1] eqn:Hit.
    destruct o as [[sr1 |] | e].
    + destruct (iteration_next _ _ _ _ _ _ _ _ _ _ _ Hhead Hit) as (r & evs1 & Hnext).
      replace (S (length passed)) with (length (passed ++ [d])) in Hloop
        by (rewrite length_app; simpl; lia).
      destruct (IH _ _ _ _ _ _ _ _ _ Hnext Hloop) as (evs2 & Hend).
      exists (evs2 ++ evs1). by rewrite <- app_assoc.
    + injection Hloop as <- <- <-.
      eapply iteration_stops; [exact Hhead | exact Hit | discriminate].
    + injection Hloop as <- <- <-.
      eapply iteration_stops; [exact Hhead | exact Hit | discriminate].
Qed.

End Runs.

(** ** From the loop to the settled run *)

Lemma world_rebase taskId defs created st evs task st' :
  world taskId defs created (tasks_set taskId created st) evs task st' ->
  world taskId defs created st evs task st'.
Proof.
  intros [Hj Hd Ht Ho Hh Hn Hl]. split; try done.
  intros other Hne. rewrite Ho by done. simpl. by rewrite lookup_insert_ne.
Qed.

(** The run launched on the task that [startWorkflow] has just
    registered: its events explain the records of the settled task, the
    history of the task only advances, and the task is as one of the
    three reports says. *)
Lemma launch_report (invoke : string -> string -> value -> except value)
    (taskId started finished workflowName : string) (workflow : Workflow.t)
    (params : value) (st : state) :
  let created := newTask taskId started workflowName workflow params in
  let st' := launch invoke finished taskId workflow params
               (tasks_set taskId created st) in
  exists evs task,
    world taskId (Workflow.steps workflow) created st evs task st' /\
    Forall (explained invoke taskId params (Workflow.steps workflow)
              (Task.steps task)) evs /\
    report invoke params (Workflow.steps workflow) finished evs task.
Proof.
  intros created st'. subst st'.
  set (defs := Workflow.steps workflow).
  set (st0 := tasks_set taskId created st).
  set (task_r := Task.set_status RUNNING created).
  assert (Hw0 : world taskId defs created st0 [] created st0).
  { split; simpl; try done.
    - apply lookup_insert_eq.
    - repeat constructor.
    - unfold defs. by rewrite length_fmap. }
  assert (Hwr : world taskId defs created st0 [Assigned taskId task_r] task_r
                  (tasks_set taskId task_r (mutate taskId task_r st0))).
  { apply world_tasks_set, (world_mutate _ _ _ _ _ created); [done |].
    by apply advances_same_steps. }
  assert (Hhead : at_head invoke taskId params defs created st0 [] defs []
                    [Assigned taskId task_r] ∅ task_r
                    (tasks_set taskId task_r (mutate taskId task_r st0))).
  { split; try done.
    repeat constructor. apply (w_length _ _ _ _ _ _ _ Hwr). }
  unfold launch, executeWorkflow.
  replace (tasks st0 !! taskId) with (Some created)
    by (symmetry; apply lookup_insert_eq).
  fold task_r. fold defs.
  destruct (loop invoke taskId params defs 0 ∅ task_r _)
    as [[out task'] st'] eqn:Hloop.
  destruct (loop_ends invoke taskId params defs created st0 defs [] [] _ _ _ _ _ _ _
              Hhead Hloop) as (evs' & Hend).
  destruct Hend as
    [sr pre -> [_ Hs Hpre _ Hval Hres _ Herr Hcomp Hw Hev Hers]
    | passed d rest pre e -> Hdefs Hpre Hval Hskip Hatt Hs Hstat Herr Hres Hcomp
        Hw Hev Hers
    | passed d rest pre c e -> Hdefs Hpre Hval Hs Hc Hthrow Hstat Herr Hres Hcomp
        Hw Hev Hers].
  - simpl in Hs. rewrite app_nil_r in Hs.
    set (task1 := Task.set_status COMPLETED task').
    set (task2 := Task.set_completed_at finished task1).
    apply (world_mutate _ _ _ _ _ _ _ task1) in Hw as Hw1;
      [| by apply advances_same_steps].
    apply (world_mutate _ _ _ _ _ _ _ task2) in Hw1 as Hw2;
      [| by apply advances_same_steps].
    apply world_tasks_set in Hw2.
    exists (Assigned taskId task2 :: Assigned taskId task1
              :: evs' ++ [Assigned taskId task_r]), task2.
    split; [by apply world_rebase |]. split.
    + constructor; [by eapply explained_assigned |].
      constructor; [by eapply explained_assigned |].
      change (Task.steps task2) with (Task.steps task'). by rewrite Hs.
    + apply AllDone; try done.
      * change (Task.steps task2) with (Task.steps task'). by rewrite Hs.
      * change (Task.steps task2) with (Task.steps task'). by rewrite Hs.
      * change (Task.results task' = merged (Task.steps task')). by rewrite Hs.
  - exists (evs' ++ [Assigned taskId task_r]), task'.
    split; [by apply world_rebase |]. split; [done |].
    eapply FailedAt; done.
  - unfold onRejected.
    set (text := "Workflow execution error for task " +:+ taskId).
    apply (world_add _ _ _ _ [ErrorLogged text e]) in Hw as Hwl;
      [| by repeat constructor].
    change (logger_error text e st')
      with (add_events [ErrorLogged text e] st').
    rewrite (w_task _ _ _ _ _ _ _ Hwl).
    set (task1 := Task.set_status FAILED task').
    set (task2 := Task.set_error (message e) task1).
    apply (world_mutate _ _ _ _ _ _ _ task1) in Hwl as Hw1;
      [| by apply advances_same_steps].
    apply (world_mutate _ _ _ _ _ _ _ task2) in Hw1 as Hw2;
      [| by apply advances_same_steps].
    apply world_tasks_set in Hw2.
    exists (Assigned taskId task2 :: Assigned taskId task1
              :: [ErrorLogged text e] ++ evs' ++ [Assigned taskId task_r]), task2.
    split; [by apply world_rebase |]. split.
    + constructor; [by eapply explained_assigned |].
      constructor; [by eapply explained_assigned |].
      constructor; [exact I |]. exact Hev.
    + eapply RejectedAt; try done.
      change (e :: errors (evs' ++ [Assigned taskId task_r]) = [e]).
      by rewrite Hers.
Qed.

Lemma settled_lookup (defs : list StepDefinition.t) (L : list StepRecord.t) j r :
  Forall2 (fun d r => StepRecord.name r = StepDefinition.name d /\ settled r) defs L ->
  L !! j = Some r ->
  StepRecord.status r = COMPLETED \/ StepRecord.status r = SKIPPED.
Proof.
  intros HF Hr. destruct (Forall2_lookup_r _ _ _ _ _ HF Hr) as (d & _ & _ & [Hs _]).
  destruct Hs as [Hs | [Hs _]]; auto.
Qed.

Lemma report_failed invoke params defs finished evs task :
  report invoke params defs finished evs task ->
  Task.status task = COMPLETED /\ errors evs = [] /\
  Forall2 (fun d r => StepRecord.name r = StepDefinition.name d /\ settled r)
    defs (Task.steps task) \/
  Task.status task = FAILED /\
  exists e, errors evs = [e] /\
    (Task.error task = Some (message e) \/
     exists d, d ∈ defs /\ Task.error task = Some (step_failure d e)).
Proof.
  intros [Hall _ Hs _ _ _ He
         | passed d rest pre e Hdefs _ _ _ _ _ Hs Her _ _ He
         | passed d rest pre c e Hdefs _ _ _ _ _ Hs Her _ _ He].
  - left. done.
  - right. split; [done |]. exists e. split; [done |]. right.
    exists d. split; [| done]. rewrite Hdefs. set_solver.
  - right. split; [done |]. exists e. split; [done |]. by left.
Qed.

(** * The engine: what a settled run guarantees *)

(** C2 does not hold of the code: a task can be FAILED although none of
    its StepRecords is FAILED.  In [full_cycle], when the test runner
    answers without [test_results], the condition of [analyze_errors]
    throws while reading [testResults.failures].  The loop evaluates the
    condition of a step before it enters the [try] block whose [catch]
    marks the StepRecord FAILED, so the exception rejects the run: the
    handler of [startWorkflow] marks the task FAILED with the message of
    the error, and the step that raised it stays PENDING. *)
Theorem failed_task_without_failed_step :
  exists task,
    tasks (snd (startWorkflow silent_test_runner workflows "t1" "12:00" "12:07"
                  "full_cycle" demo_params initial)) !! "t1" = Some task /\
    Task.status task = FAILED /\
    Task.error task
    = Some "Cannot read properties of undefined (reading 'failures')" /\
    StepRecord.name <$> Task.steps task
    = ["analyze_requirements"; "decompose_tasks"; "generate_code"; "run_tests";
       "lint_code"; "analyze_errors"; "refine_code"] /\
    StepRecord.status <$> Task.steps task
    = [COMPLETED; COMPLETED; COMPLETED; COMPLETED; COMPLETED; PENDING; PENDING] /\
    ~ (Task.status task = FAILED <->
       Exists (fun r => StepRecord.status r = FAILED) (Task.steps task)).
Proof.
  set (final := tasks (snd (startWorkflow silent_test_runner workflows "t1"
                              "12:00" "12:07" "full_cycle" demo_params initial))
                !! "t1").
  assert (H1 : Task.status <$> final = Some FAILED) by (vm_compute; reflexivity).
  assert (H2 : (fun t => StepRecord.status <$> Task.steps t) <$> final
               = Some [COMPLETED; COMPLETED; COMPLETED; COMPLETED; COMPLETED;
                       PENDING; PENDING]) by (vm_compute; reflexivity).
  assert (H3 : Task.error <$> final
               = Some (Some "Cannot read properties of undefined (reading 'failures')"))
    by (vm_compute; reflexivity).
  assert (H4 : (fun t => StepRecord.name <$> Task.steps t) <$> final
               = Some ["analyze_requirements"; "decompose_tasks"; "generate_code";
                       "run_tests"; "lint_code"; "analyze_errors"; "refine_code"])
    by (vm_compute; reflexivity).
  destruct final as [task |]; [| discriminate H1].
  injection H1 as H1. injection H2 as H2. injection H3 as H3. injection H4 as H4.
  exists task. split; [reflexivity |]. split; [exact H1 |]. split; [exact H3 |].
  split; [exact H4 |]. split; [exact H2 |].
  intros [H _]. specialize (H H1).
  apply Exists_exists in H as (r & Hin & Hst).
  assert (Hf : FAILED ∈ StepRecord.status <$> Task.steps task).
  { apply list_elem_of_fmap. exists r. by rewrite Hst. }
  rewrite H2 in Hf.
  repeat (apply elem_of_cons in Hf as [Hf | Hf]; [discriminate Hf |]).
  by apply elem_of_nil in Hf.
Qed.

Lemma settled_counts (defs : list StepDefinition.t) (L : list StepRecord.t) :
  Forall2 (fun d r => StepRecord.name r = StepDefinition.name d /\ settled r) defs L ->
  Forall (fun r => counts_as_done r = true) L.
Proof.
  intros HF. apply Forall_forall. intros r Hin.
  apply list_elem_of_lookup in Hin as [j Hj].
  unfold counts_as_done, is_status.
  destruct (settled_lookup _ _ _ _ HF Hj) as [-> | ->]; reflexivity.
Qed.

Lemma history_lengths (history : list Task.t) task n :
  StronglySorted succeeds history -> head history = Some task ->
  length (Task.steps task) = n ->
  Forall (fun t => length (Task.steps t) = n) history.
Proof.
  destruct history as [| h tl]; [done |].
  intros Hs [= ->] Hn. apply StronglySorted_inv in Hs as [_ Hall].
  constructor; [done |].
  eapply Forall_impl; [exact Hall |].
  intros older Ho. rewrite <- Hn. by apply advances_length.
Qed.

(** What holds of the ledger of every run launched by [startWorkflow]:
    at every moment of the run, from the task as created through every
    assignment made on it, the task has as many StepRecords as the
    workflow has steps, and from one moment to any later one no
    StepRecord moves backward in PENDING < RUNNING < {COMPLETED, FAILED,
    SKIPPED}; once the run has settled, the task is COMPLETED if and only
    if every StepRecord is COMPLETED or SKIPPED, and the task is FAILED
    if some StepRecord is FAILED.  A FAILED task has a FAILED StepRecord,
    except when the condition of a step threw on the results accumulated
    before it: then no StepRecord is FAILED, the record of that step is
    PENDING and the task carries the message of the error. *)
Lemma ledger_invariants
    (invoke : string -> string -> value -> except value)
    (table : gmap string Workflow.t) (taskId started finished : string)
    (workflowName : string) (params : value) (st : state)
    (workflow : Workflow.t) :
  table !! workflowName = Some workflow ->
  exists st' evs task,
    startWorkflow invoke table taskId started finished workflowName params st
    = (Ok taskId, st') /\
    journal st' = evs ++ journal st /\
    tasks st' !! taskId = Some task /\
    let history :=
      snapshots taskId evs
        ++ [newTask taskId started workflowName workflow params] in
    head history = Some task /\
    Forall (fun t => length (Task.steps t) = length (Workflow.steps workflow))
      history /\
    StronglySorted succeeds history /\
    (Task.status task = COMPLETED <->
     Forall (fun r => counts_as_done r = true) (Task.steps task)) /\
    (Exists (fun r => StepRecord.status r = FAILED) (Task.steps task) ->
     Task.status task = FAILED) /\
    (Task.status task = FAILED ->
     Exists (fun r => StepRecord.status r = FAILED) (Task.steps task) \/
     (Forall (fun r => StepRecord.status r <> FAILED) (Task.steps task) /\
      exists k d c e r,
        Workflow.steps workflow !! k = Some d /\
        StepDefinition.condition d = Some c /\
        c (before task k) = Throw e /\
        Task.steps task !! k = Some r /\
        StepRecord.status r = PENDING /\
        Task.error task = Some (message e))).
Proof.
  intros Hwf. unfold startWorkflow. rewrite Hwf.
  destruct (launch_report invoke taskId started finished workflowName workflow
              params st) as (evs & task & Hw & Hev & Hrep).
  eexists _, evs, task. split; [reflexivity |].
  split; [apply (w_journal _ _ _ _ _ _ _ Hw) |].
  split; [apply (w_task _ _ _ _ _ _ _ Hw) |].
  cbv zeta.
  split; [apply (w_newest _ _ _ _ _ _ _ Hw) |].
  split.
  { eapply history_lengths;
      [apply (w_history _ _ _ _ _ _ _ Hw) | apply (w_newest _ _ _ _ _ _ _ Hw)
      | apply (w_length _ _ _ _ _ _ _ Hw)]. }
  split; [apply (w_history _ _ _ _ _ _ _ Hw) |].
  destruct Hrep as
    [Hall _ Hs _ _ _ _
    | passed d rest pre e Hdefs Hpre _ _ _ Hsteps Hs Her _ _ _
    | passed d rest pre c e Hdefs Hpre _ Hsteps Hc Hthrow Hs Her _ _ _].
  - split; [split; [intros _; by eapply settled_counts | done] |].
    split.
    + intros Hex. apply Exists_exists in Hex as (r & Hin & Hst).
      apply list_elem_of_lookup in Hin as [j Hj].
      destruct (settled_lookup _ _ _ _ Hall Hj); congruence.
    + intros Hf. congruence.
  - assert (Hex : Exists (fun r => StepRecord.status r = FAILED) (Task.steps task)).
    { rewrite Hsteps. apply Exists_app. right. by left. }
    split; [split; [intros Hcmp; congruence |] |].
    + intros Hdone. rewrite Hsteps in Hdone.
      apply Forall_app in Hdone as [_ Hdone].
      apply Forall_cons in Hdone as [Hdone _]. discriminate Hdone.
    + split; [done | by left].
  - split; [split; [intros Hcmp; congruence |] |].
    + intros Hdone. rewrite Hsteps in Hdone.
      apply Forall_app in Hdone as [_ Hdone]. simpl in Hdone.
      apply Forall_cons in Hdone as [Hdone _]. discriminate Hdone.
    + split; [done |]. intros _. right. split.
      { rewrite Hsteps. apply Forall_app. split.
        - apply Forall_forall. intros r [j Hj]%list_elem_of_lookup.
          destruct (settled_lookup _ _ _ _ Hpre Hj); congruence.
        - apply Forall_fmap, Forall_true. intros d'. discriminate. }
      exists (length pre), d, c, e, (fresh d).
      pose proof (Forall2_length _ _ _ Hpre) as Hlen.
      split; [by eapply defs_lookup |]. split; [done |].
      unfold before. rewrite Hsteps, take_app_length.
      split; [done |]. split; [by apply list_lookup_middle | done].
Qed.


Lemma fresh_lookup (defs : list StepDefinition.t) j r :
  (fresh <$> defs) !! j = Some r ->
  StepRecord.status r = PENDING /\ StepRecord.result r = VNull.
Proof.
  rewrite list_lookup_fmap. destruct (defs !! j); [| done].
  intros [= <-]. done.
Qed.









(** A map built by successive writes holds, under each key, what the
    last write of that key left. *)
Lemma last_write {A} (w : A -> gmap string value)
    (f : gmap string value -> A -> gmap string value) (L : list A) key v :
  (forall acc x, f acc x = w x ∪ acc) ->
  foldl f ∅ L !! key = Some v <->
  exists j x, L !! j = Some x /\ w x !! key = Some v /\
    forall j' x', j < j' -> L !! j' = Some x' -> w x' !! key = None.
Proof.
  intros Hf. induction L as [| y L IH] using rev_ind.
  - simpl. rewrite lookup_empty. split; [done | by intros (j & x & Hx & _)].
  - rewrite foldl_snoc, Hf, lookup_union_Some_raw, IH. split.
    + intros [Hy | [Hy (j & x & Hx & Hv & Hlast)]].
      * exists (length L), y. split; [by apply list_lookup_middle |].
        split; [done |]. intros j' x' Hlt Hx'.
        apply lookup_lt_Some in Hx'. rewrite length_app in Hx'. simpl in Hx'. lia.
      * exists j, x. split; [by apply lookup_app_l_Some |]. split; [done |].
        intros j' x' Hlt [Hx' | [Hge Hx']]%lookup_app_Some; [by eapply Hlast |].
        apply list_elem_of_lookup_2 in Hx'.
        apply list_elem_of_singleton in Hx'. by subst.
    + intros (j & x & Hx & Hv & Hlast).
      apply lookup_app_Some in Hx as [Hx | [Hge Hx]].
      * right. split.
        { apply (Hlast (length L));
            [apply lookup_lt_Some in Hx; lia | by apply list_lookup_middle]. }
        exists j, x. split; [done |]. split; [done |].
        intros j' x' Hlt Hx'. eapply Hlast; [done | by apply lookup_app_l_Some].
      * left. apply list_elem_of_lookup_2 in Hx.
        apply list_elem_of_singleton in Hx. by subst.
Qed.

Lemma accumulate_stored acc r : accumulate acc r = stored r ∪ acc.
Proof.
  unfold accumulate, stored, assign.
  destruct (is_status COMPLETED r); [| by rewrite (left_id_L ∅ (∪))].
  destruct (String.eqb _ _); [by rewrite (left_id_L ∅ (∪)) |].
  by rewrite insert_empty, <- insert_union_singleton_l.
Qed.


Lemma stored_lookup r key v :
  stored r !! key = Some v <->
  StepRecord.name r = key /\ key <> "__proto__" /\
  StepRecord.status r = COMPLETED /\ StepRecord.result r = v.
Proof.
  unfold stored, assign, is_status. case_bool_decide as Hst.
  - destruct (String.eqb (StepRecord.name r) "__proto__") eqn:Hp.
    + apply String.eqb_eq in Hp. rewrite lookup_empty.
      split; [done |]. intros (Hn & Hk & _). congruence.
    + apply String.eqb_neq in Hp. rewrite lookup_insert_Some, lookup_empty. split.
      * intros [[<- <-] | [_ Hno]]; done.
      * intros (<- & _ & _ & <-). by left.
  - rewrite lookup_empty. split; [done | by intros (_ & _ & Hs & _)].
Qed.

Lemma stored_none r key :
  stored r !! key = None <->
  ~ (StepRecord.name r = key /\ key <> "__proto__" /\
     StepRecord.status r = COMPLETED).
Proof.
  rewrite eq_None_not_Some. split.
  - intros H (Hn & Hk & Hs). apply H. exists (StepRecord.result r).
    by apply stored_lookup.
  - intros H [v (Hn & Hk & Hs & _)%stored_lookup]. by apply H.
Qed.



(** The accumulated results hold, under each name other than
    [__proto__], the result of the last COMPLETED record of that name,
    and nothing else. *)
Lemma accumulated_lookup (L : list StepRecord.t) key v :
  accumulated L !! key = Some v <->
  key <> "__proto__" /\
  exists j r, L !! j = Some r /\ StepRecord.name r = key /\
              StepRecord.status r = COMPLETED /\ StepRecord.result r = v /\
              forall j' r', j < j' -> L !! j' = Some r' ->
                StepRecord.name r' = key -> StepRecord.status r' <> COMPLETED.
Proof.
  unfold accumulated.
  rewrite (last_write stored accumulate) by apply accumulate_stored. split.
  - intros (j & r & Hr & (Hn & Hk & Hs & Hv)%stored_lookup & Hlast).
    split; [done |]. exists j, r.
    split; [done |]. split; [done |]. split; [done |]. split; [done |].
    intros j' r' Hlt Hr' Hn' Hs'.
    specialize (Hlast j' r' Hlt Hr'). apply stored_none in Hlast. by apply Hlast.
  - intros (Hk & j & r & Hr & Hn & Hs & Hv & Hlast). exists j, r.
    split; [done |]. split; [by apply stored_lookup |].
    intros j' r' Hlt Hr'. apply stored_none. intros (Hn' & _ & Hs').
    by eapply Hlast.
Qed.


Lemma merged_app_unfinished (L M : list StepRecord.t) :
  Forall (fun r => StepRecord.status r <> COMPLETED) M ->
  merged (L ++ M) = merged L.
Proof.
  intros HM. unfold merged. rewrite foldl_app.
  generalize (foldl merge ∅ L). intros acc.
  induction HM as [| r M Hr _ IH]; [done |].
  simpl. unfold merge at 2, is_status.
  by rewrite bool_decide_eq_false_2.
Qed.

Lemma fresh_unfinished (defs : list StepDefinition.t) :
  Forall (fun r => StepRecord.status r <> COMPLETED) (fresh <$> defs).
Proof. apply Forall_fmap, Forall_true. intros d. discriminate. Qed.

Lemma fresh_untouched (defs : list StepDefinition.t) :
  Forall (fun r => StepRecord.status r <> COMPLETED /\
                   StepRecord.status r <> SKIPPED) (fresh <$> defs).
Proof. apply Forall_fmap, Forall_true. intros d. split; discriminate. Qed.

Lemma settled_names (defs : list StepDefinition.t) (L : list StepRecord.t) :
  Forall2 (fun d r => StepRecord.name r = StepDefinition.name d /\ settled r) defs L ->
  StepRecord.name <$> L = StepDefinition.name <$> defs.
Proof.
  induction 1 as [| d r defs L [Hn _] _ IH]; [done |].
  by rewrite !fmap_cons, Hn, IH.
Qed.

Lemma fresh_names (defs : list StepDefinition.t) :
  StepRecord.name <$> (fresh <$> defs) = StepDefinition.name <$> defs.
Proof. by rewrite <- list_fmap_compose. Qed.

(** What every settled run has in common. *)
Lemma report_records invoke params defs finished evs task :
  report invoke params defs finished evs task ->
  StepRecord.name <$> Task.steps task = StepDefinition.name <$> defs /\
  computed invoke params defs (Task.steps task) /\
  Task.results task = merged (Task.steps task) /\
  (forall r, r ∈ Task.steps task -> StepRecord.status r = SKIPPED ->
             StepRecord.result r = VNull).
Proof.
  assert (Hskip : forall (ds : list StepDefinition.t) (L : list StepRecord.t) r,
            Forall2 (fun d r => StepRecord.name r = StepDefinition.name d /\ settled r)
              ds L ->
            r ∈ L -> StepRecord.status r = SKIPPED -> StepRecord.result r = VNull).
  { intros ds L r HF [j Hj]%list_elem_of_lookup Hst.
    destruct (Forall2_lookup_r _ _ _ _ _ HF Hj) as (d & _ & _ & [Hs _]).
    destruct Hs as [Hs | [_ Hs]]; congruence. }
  intros [Hall Hval _ _ _ Hres _
         | passed d rest pre e Hdefs Hpre Hval _ _ Hsteps _ _ Hres _ _
         | passed d rest pre c e Hdefs Hpre Hval Hsteps _ _ _ _ Hres _ _].
  - split; [by apply settled_names |]. split; [done |]. split; [done |].
    intros r. by eapply Hskip.
  - split; [| split; [| split]].
    + rewrite Hsteps, Hdefs, !fmap_app, !fmap_cons, fresh_names.
      by rewrite (settled_names _ _ Hpre).
    + rewrite Hsteps. apply computed_app_unfinished; [done |].
      constructor; [split; discriminate | apply fresh_untouched].
    + rewrite Hsteps, Hres. symmetry. apply merged_app_unfinished.
      constructor; [discriminate | apply fresh_unfinished].
    + intros r Hin Hst. rewrite Hsteps in Hin.
      apply elem_of_app in Hin as [Hin | Hin]; [by eapply Hskip |].
      apply elem_of_cons in Hin as [-> | Hin]; [discriminate Hst |].
      apply list_elem_of_lookup in Hin as [j Hj].
      by apply fresh_lookup in Hj as [_ Hn].
  - split; [| split; [| split]].
    + rewrite Hsteps, Hdefs, !fmap_app, fresh_names.
      by rewrite (settled_names _ _ Hpre).
    + rewrite Hsteps. apply computed_app_unfinished; [done |].
      apply fresh_untouched.
    + rewrite Hsteps, Hres. symmetry. apply merged_app_unfinished.
      apply fresh_unfinished.
    + intros r Hin Hst. rewrite Hsteps in Hin.
      apply elem_of_app in Hin as [Hin | Hin]; [by eapply Hskip |].
      apply list_elem_of_lookup in Hin as [j Hj].
      by apply fresh_lookup in Hj as [_ Hn].
Qed.


Lemma skip_decision_admits d s : skip_decision d s = Ok false -> admits d s.
Proof.
  unfold skip_decision, admits.
  destruct (StepDefinition.condition d) as [c |]; [| by left].
  destruct (c s) as [v | e] eqn:Hc; [| done]. intros [= Hv]. right. exists c, v.
  split; [done |]. split; [done |]. by destruct (truthy v).
Qed.

Lemma attempt_result_yields invoke params d s mapped :
  attempt_result invoke d params s = Ok mapped -> yields invoke params d s mapped.
Proof.
  unfold attempt_result, yields, mapped_result, andThen.
  destruct (inputs_value d params s) as [inputs | e]; [| done].
  destruct (invoke _ _ inputs) as [result | e] eqn:Hinv; [| done].
  intros Hm. by exists inputs, result.
Qed.

Lemma attempt_result_raises invoke params d s e :
  attempt_result invoke d params s = Throw e -> raises invoke params d s e.
Proof.
  unfold attempt_result, raises, mapped_result, andThen.
  destruct (inputs_value d params s) as [inputs | e0]; [| intros [= ->]; by left].
  intros H. right. exists inputs. split; [done |].
  destruct (invoke _ _ inputs) as [result | e0] eqn:Hinv;
    [| injection H as ->; by left].
  right. by exists result.
Qed.

(** A record that the loop has passed is the record of a step that ran
    without throwing on the results accumulated before it. *)
Lemma computed_ran invoke params defs (L : list StepRecord.t) j d r :
  computed invoke params defs L ->
  defs !! j = Some d -> L !! j = Some r ->
  StepRecord.name r = StepDefinition.name d /\ settled r ->
  ran invoke params d (accumulated (take j L)) r.
Proof.
  intros Hval Hd Hr [Hn [Hs He]]. destruct (Hval j d r Hd Hr) as [Hskip Hcomp].
  split; [done |]. split; [done |].
  destruct Hs as [Hs | [Hs Hnull]].
  - right. destruct (Hcomp Hs) as [Hdec Hatt].
    split; [by apply skip_decision_admits |].
    split; [by apply attempt_result_yields | done].
  - left. split; [by apply skip_decision_true, Hskip | done].
Qed.

(** How far a settled run went: the steps before [n] ran without
    throwing, each on the results accumulated before it; the steps from
    [n] on are neither COMPLETED nor SKIPPED and have their null result;
    and either [n] is the number of steps and the task is COMPLETED, or
    step [n] stopped the run, by its condition or in its [try] block, and
    the task is FAILED with the message of what was thrown. *)
Lemma run_outcome invoke params defs finished evs task :
  report invoke params defs finished evs task ->
  exists n,
    (forall j d, j < n -> defs !! j = Some d ->
       exists r, Task.steps task !! j = Some r /\
                 ran invoke params d (before task j) r) /\
    (forall j r, n <= j -> Task.steps task !! j = Some r ->
       StepRecord.status r <> COMPLETED /\ StepRecord.status r <> SKIPPED /\
       StepRecord.result r = VNull) /\
    ((n = length defs /\ Task.status task = COMPLETED /\
      Task.error task = None /\ errors evs = []) \/
     (exists d e,
        defs !! n = Some d /\ Task.status task = FAILED /\ errors evs = [e] /\
        ((condition_raises d (before task n) e /\
          Task.error task = Some (message e)) \/
         (admits d (before task n) /\ raises invoke params d (before task n) e /\
          Task.error task = Some (step_failure d e))))).
Proof.
  intros Hrep.
  destruct (report_records _ _ _ _ _ _ Hrep) as (_ & Hval & _ & _).
  assert (Hpassed : forall (passed tail : list StepDefinition.t)
                      (pre M : list StepRecord.t),
            defs = passed ++ tail -> Task.steps task = pre ++ M ->
            Forall2 (fun d r => StepRecord.name r = StepDefinition.name d /\ settled r)
              passed pre ->
            forall j d, j < length pre -> defs !! j = Some d ->
              exists r, Task.steps task !! j = Some r /\
                        ran invoke params d (before task j) r).
  { intros passed tail pre M Hdefs Hsteps Hpre j d Hlt Hd.
    pose proof (Forall2_length _ _ _ Hpre) as Hlen.
    assert (Hdp : passed !! j = Some d).
    { rewrite Hdefs, lookup_app_l in Hd by lia. done. }
    destruct (Forall2_lookup_l _ _ _ _ _ Hpre Hdp) as (r & Hr & Hnr).
    assert (Hrt : Task.steps task !! j = Some r).
    { rewrite Hsteps. by apply lookup_app_l_Some. }
    exists r. split; [done |]. unfold before. by eapply computed_ran. }
  destruct Hrep as
    [Hall _ Hs _ Her _ He
    | passed d rest pre e Hdefs Hpre _ Hskip Hatt Hsteps Hs Her _ _ He
    | passed d rest pre c e Hdefs Hpre _ Hsteps Hc Hthrow Hs Her _ _ He].
  - exists (length defs).
    pose proof (Forall2_length _ _ _ Hall) as Hlen.
    split.
    { intros j d Hlt Hd.
      apply (Hpassed defs [] (Task.steps task) []); try done.
      - by rewrite app_nil_r.
      - by rewrite app_nil_r.
      - lia. }
    split.
    { intros j r Hge Hr. apply lookup_lt_Some in Hr. lia. }
    left. done.
  - pose proof (Forall2_length _ _ _ Hpre) as Hlen.
    exists (length pre). split; [by eapply Hpassed |]. split.
    { intros j r Hge Hr. rewrite Hsteps in Hr.
      apply lookup_app_Some in Hr as [Hr | [_ Hr]].
      { apply lookup_lt_Some in Hr. lia. }
      apply lookup_cons_Some in Hr as [[_ <-] | [_ Hr]]; [done |].
      apply fresh_lookup in Hr as [Hp Hn]. rewrite Hp. done. }
    right. exists d, e.
    split; [rewrite Hdefs, <- Hlen; by apply list_lookup_middle |].
    split; [done |]. split; [done |]. right.
    unfold before. rewrite Hsteps, take_app_length.
    split; [by apply skip_decision_admits |].
    split; [by apply attempt_result_raises | done].
  - pose proof (Forall2_length _ _ _ Hpre) as Hlen.
    exists (length pre). split; [by eapply Hpassed |]. split.
    { intros j r Hge Hr. rewrite Hsteps in Hr.
      apply lookup_app_Some in Hr as [Hr | [_ Hr]].
      { apply lookup_lt_Some in Hr. lia. }
      apply fresh_lookup in Hr as [Hp Hn]. rewrite Hp. done. }
    right. exists d, e.
    split; [rewrite Hdefs, <- Hlen; by apply list_lookup_middle |].
    split; [done |]. split; [done |]. left.
    unfold before. rewrite Hsteps, take_app_length.
    split; [by exists c | done].
Qed.

(** C1. For a registered workflow, [startWorkflow] returns the id of the
    task to its caller, whatever happens in the run it launches: no
    exception of the run reaches the caller.  Once the run has settled,
    either the task is COMPLETED without an error, nothing was caught,
    and every step ran without throwing on the results accumulated
    before it (its condition returned; when it was entered, its inputs,
    the agent and its output mapping returned); or the task is FAILED:
    the steps before some step [k] ran without throwing, and a call of
    step [k] threw an error [e], which was caught, whose message is in
    the error field of the task.  When the condition of [k] threw, the
    field holds the message of [e]; when the inputs, the agent or the
    output mapping threw, it holds the message composed for step [k]. *)
Theorem startWorkflow_captures_failures
    (invoke : string -> string -> value -> except value)
    (table : gmap string Workflow.t) (taskId started finished : string)
    (workflowName : string) (params : value) (st : state)
    (workflow : Workflow.t) :
  table !! workflowName = Some workflow ->
  exists st' evs task,
    startWorkflow invoke table taskId started finished workflowName params st
    = (Ok taskId, st') /\
    journal st' = evs ++ journal st /\
    tasks st' !! taskId = Some task /\
    ((Task.status task = COMPLETED /\ Task.error task = None /\
      errors evs = [] /\
      forall j d, Workflow.steps workflow !! j = Some d ->
        exists r, Task.steps task !! j = Some r /\
                  ran invoke params d (before task j) r) \/
     (Task.status task = FAILED /\
      exists k d e,
        Workflow.steps workflow !! k = Some d /\
        errors evs = [e] /\
        (forall j d', j < k -> Workflow.steps workflow !! j = Some d' ->
           exists r, Task.steps task !! j = Some r /\
                     ran invoke params d' (before task j) r) /\
        ((condition_raises d (before task k) e /\
          Task.error task = Some (message e)) \/
         (admits d (before task k) /\
          raises invoke params d (before task k) e /\
          Task.error task = Some (step_failure d e))))).
Proof.
  intros Hwf. unfold startWorkflow. rewrite Hwf.
  destruct (launch_report invoke taskId started finished workflowName workflow
              params st) as (evs & task & Hw & _ & Hrep).
  eexists _, evs, task. split; [reflexivity |].
  split; [apply (w_journal _ _ _ _ _ _ _ Hw) |].
  split; [apply (w_task _ _ _ _ _ _ _ Hw) |].
  destruct (run_outcome _ _ _ _ _ _ Hrep) as (n & Hran & _ & Hend).
  destruct Hend as [(-> & Hs & Her & He) | (d & e & Hd & Hs & He & Hcase)].
  - left. split; [done |]. split; [done |]. split; [done |].
    intros j d Hd. apply Hran; [| done]. by eapply lookup_lt_Some.
  - right. split; [done |]. exists n, d, e. done.
Qed.

Lemma startWorkflow_captures_failures_witness :
  exists st' evs task,
    four_steps_run = (Ok "t1", st') /\
    journal st' = evs ++ journal initial /\
    tasks st' !! "t1" = Some task /\
    Task.status task = FAILED /\
    errors evs = [mkError "Unknown agent action: pm:estimate"] /\
    Task.error task
    = Some "Failed to execute step estimate: Unknown agent action: pm:estimate".
Proof.
  destruct (startWorkflow_captures_failures executeStep {[ "four" := four_steps ]}
              "t1" "12:00" "12:07" "four" demo_params initial four_steps)
    as (st' & evs & task & Hrun & Hj & Ht & Hcase).
  { reflexivity. }
  exists st', evs, task.
  split; [exact Hrun |]. split; [exact Hj |]. split; [exact Ht |].
  assert (Hestimate : forall s r,
            ~ ran executeStep demo_params
                (StepDefinition.mk "estimate" "pm" "estimate"
                   (InputsConstant (object [])) None None) s r).
  { intros s r (_ & _ & [((c & v & Hc & _) & _) | (_ & Hy & _)]).
    - discriminate Hc.
    - destruct Hy as (inputs & result & Hi & Hinv & _).
      injection Hi as <-. vm_compute in Hinv. discriminate Hinv. }
  destruct Hcase as [(_ & _ & _ & Hall) | (Hs & k & d & e & Hd & He & Hbefore & Hk)].
  - destruct (Hall 1 _ eq_refl) as (r & _ & Hr). destruct (Hestimate _ _ Hr).
  - split; [exact Hs |].
    destruct k as [| [| k]].
    + injection Hd as <-.
      destruct Hk as [((c & Hc & _) & _) | (_ & Hraise & _)]; [discriminate Hc |].
      destruct Hraise as [Hi | (inputs & Hi & [Hinv | (result & Hinv & Hm)])].
      * vm_compute in Hi. discriminate Hi.
      * vm_compute in Hi. injection Hi as <-.
        vm_compute in Hinv. discriminate Hinv.
      * vm_compute in Hi. injection Hi as <-.
        vm_compute in Hinv. injection Hinv as <-.
        vm_compute in Hm. discriminate Hm.
    + injection Hd as <-.
      destruct Hk as [((c & Hc & _) & _) | (_ & Hraise & Her)]; [discriminate Hc |].
      destruct Hraise as [Hi | (inputs & Hi & [Hinv | (result & Hinv & Hm)])].
      * discriminate Hi.
      * injection Hi as <-. vm_compute in Hinv. injection Hinv as <-.
        split; [exact He | exact Her].
      * injection Hi as <-. vm_compute in Hinv. discriminate Hinv.
    + destruct (Hbefore 1 _ ltac:(lia) eq_refl) as (r & _ & Hr).
      destruct (Hestimate _ _ Hr).
Defined.


(** A step named [__proto__] that completes leaves no key in the object
    handed to the steps after it: in the run of [proto_step], the inputs
    function of the second step receives the empty object. *)
Lemma proto_step_leaves_no_key :
  exists task,
    tasks (snd proto_step_run) !! "t1" = Some task /\
    StepRecord.name <$> Task.steps task = ["__proto__"; "b"] /\
    StepRecord.status <$> Task.steps task = [COMPLETED; COMPLETED] /\
    InputsCalled 1 demo_params ∅ ∈ journal (snd proto_step_run).
Proof.
  set (final := tasks (snd proto_step_run) !! "t1").
  assert (H1 : (fun t => StepRecord.name <$> Task.steps t) <$> final
               = Some ["__proto__"; "b"]) by (vm_compute; reflexivity).
  assert (H2 : (fun t => StepRecord.status <$> Task.steps t) <$> final
               = Some [COMPLETED; COMPLETED]) by (vm_compute; reflexivity).
  destruct final as [task |]; [| discriminate H1].
  injection H1 as H1. injection H2 as H2.
  exists task. split; [reflexivity |]. split; [exact H1 |]. split; [exact H2 |].
  apply (list_elem_of_lookup_2 _ 6). vm_compute. reflexivity.
Qed.



(** ** Conditions and progress *)

(** The comparison [v > 0] converts its operand: a text or an array
    that reads as a number above zero compares as that number, what does
    not read as a number compares as [NaN], and an object whose own
    [toString] hides the inherited method cannot be converted. *)
Lemma gt0_converts :
  gt0 (VNum 1) = Ok true /\ gt0 VNull = Ok false /\
  gt0 (VStr "1") = Ok true /\ gt0 (VStr " 0x10 ") = Ok true /\
  gt0 (VStr "2.4e-324") = Ok false /\ gt0 (VStr "one") = Ok false /\
  gt0 (VArr [VNum 5]) = Ok true /\ gt0 (VArr [VNum 1; VNum 2]) = Ok false /\
  gt0 (VArr []) = Ok false /\ gt0 (VObj ∅) = Ok false /\
  gt0 (VObj {[ "toString" := VNum 1 ]}) = Throw NotPrimitive.
Proof. repeat split; vm_compute; reflexivity. Qed.

(** The first half of C4 holds: when the condition of step [k] returns a
    falsy value on the results accumulated so far, the StepRecord of [k]
    ends SKIPPED with a null result, the agent is never called for [k],
    and the record is one of those [getTaskStatus] counts. *)
Lemma false_condition_skips
    (invoke : string -> string -> value -> except value)
    (table : gmap string Workflow.t) (taskId started finished : string)
    (workflowName : string) (params : value) (st : state)
    (workflow : Workflow.t) (evs : list event) (k : nat)
    (s : gmap string value) d c v :
  table !! workflowName = Some workflow ->
  journal (snd (startWorkflow invoke table taskId started finished
                  workflowName params st))
  = evs ++ journal st ->
  ConditionCalled k s ∈ evs ->
  Workflow.steps workflow !! k = Some d ->
  StepDefinition.condition d = Some c ->
  c s = Ok v -> truthy v = false ->
  exists task r,
    tasks (snd (startWorkflow invoke table taskId started finished
                  workflowName params st)) !! taskId = Some task /\
    Task.steps task !! k = Some r /\
    StepRecord.status r = SKIPPED /\
    StepRecord.result r = VNull /\
    counts_as_done r = true /\
    (forall a b inputs, AgentCalled k a b inputs ∉ evs).
Proof.
  intros Hwf. unfold startWorkflow. rewrite Hwf. simpl snd.
  destruct (launch_report invoke taskId started finished workflowName workflow
              params st) as (evs0 & task & Hw & Hev & Hrep).
  rewrite (w_journal _ _ _ _ _ _ _ Hw).
  intros Hj Hin Hd Hc Hv Hfalse. apply app_inv_tail in Hj as <-.
  rewrite Forall_forall in Hev.
  destruct (Hev _ Hin) as (_ & _ & d' & c' & Hd' & Hc' & Hskip & _).
  assert (d' = d) as -> by congruence.
  assert (c' = c) as -> by congruence.
  destruct (Hskip v Hv Hfalse) as (r & Hr & Hst).
  destruct (report_records _ _ _ _ _ _ Hrep) as (_ & _ & _ & Hnull).
  exists task, r. split; [apply (w_task _ _ _ _ _ _ _ Hw) |].
  split; [done |]. split; [done |].
  split; [apply Hnull; [by eapply list_elem_of_lookup_2 | done] |].
  split; [unfold counts_as_done, is_status; by rewrite Hst |].
  intros a b inputs Hcall.
  destruct (Hev _ Hcall) as (r' & Hr' & [Hs | Hs] & _); congruence.
Qed.

(** C4, where the code departs from it: the progress that
    [getTaskStatus] reports is not always the floor of the percentage.
    After the run of [fifty_steps], 29 of the 50 StepRecords are SKIPPED
    (the thirtieth is FAILED), the percentage is exactly 58, and
    [Math.floor((29 / 50) * 100)], computed in binary64, is 57. *)
Theorem progress_of_29_of_50_is_57 :
  exists task status,
    tasks (snd fifty_steps_run) !! "t1" = Some task /\
    length (Task.steps task) = 50 /\
    length (List.filter counts_as_done (Task.steps task)) = 29 /\
    length (List.filter (is_status SKIPPED) (Task.steps task)) = 29 /\
    fst (getTaskStatus "t1" (snd fifty_steps_run)) = Ok status /\
    TaskStatus.progress status = number_of_Z 57 /\
    (100 * 29 / 50 = 58)%Z.
Proof.
  unfold getTaskStatus.
  set (final := tasks (snd fifty_steps_run) !! "t1").
  assert (H : (fun t => (length (Task.steps t),
                         length (List.filter counts_as_done (Task.steps t)),
                         length (List.filter (is_status SKIPPED) (Task.steps t))))
                <$> final = Some (50, 29, 29)) by (vm_compute; reflexivity).
  destruct final as [task |]; [| discriminate H].
  injection H as H50 H29 Hsk.
  eexists task, _. split; [reflexivity |].
  split; [exact H50 |]. split; [exact H29 |]. split; [exact Hsk |].
  split; [reflexivity |]. simpl. rewrite H50, H29.
  split; [vm_compute; reflexivity | reflexivity].
Qed.

(** For a workflow without steps the progress is not a number. *)
Lemma progress_of_no_step : progress_of 0 0 = S754_nan.
Proof. reflexivity. Qed.

(** For the seven steps of [full_cycle] the progress is the floor of the
    percentage, whatever the number of steps done. *)
Lemma progress_of_seven_steps :
  Forall (fun c => progress_of c 7 = number_of_Z (100 * Z.of_nat c / 7))
    (seq 0 8).
Proof. repeat constructor. Qed.

(** ** The scenarios of the specification, run on the model *)

(** With the stand-in agents every step of [full_cycle] is COMPLETED, the
    task is COMPLETED and its result map has the keys merged from all the
    steps. *)
Lemma scenario_all_steps_succeed :
  (fun task => (Task.status task, StepRecord.status <$> Task.steps task,
                elements (dom (Task.results task))))
    <$> tasks (snd demo) !! "t1"
  = Some (COMPLETED,
          [COMPLETED; COMPLETED; COMPLETED; COMPLETED; COMPLETED; COMPLETED;
           COMPLETED],
          elements (list_to_set (C := gset string)
                      ["scope_definition"; "task_plan"; "generated_code";
                       "test_results"; "lint_results"; "error_analysis";
                       "refined_code"])).
Proof. vm_compute. reflexivity. Qed.

(** When the tests pass and the linter finds nothing, the two conditional
    steps are SKIPPED, the task is COMPLETED and its progress is 100. *)
Lemma scenario_conditional_steps_skipped :
  let st := snd (startWorkflow clean_code workflows "t1" "12:00" "12:07"
                   "full_cycle" demo_params initial) in
  (fun task => (Task.status task, StepRecord.status <$> Task.steps task))
    <$> tasks st !! "t1"
  = Some (COMPLETED,
          [COMPLETED; COMPLETED; COMPLETED; COMPLETED; COMPLETED; SKIPPED;
           SKIPPED]) /\
  match fst (getTaskStatus "t1" st) with
  | Ok status => TaskStatus.progress status = number_of_Z 100
  | Throw _ => False
  end.
Proof. split; vm_compute; reflexivity. Qed.

(** When the agent has no handler for the second of four steps, the first
    step is COMPLETED, the second FAILED, the others PENDING, and the task
    is FAILED with an error that names the second step. *)
Lemma scenario_unknown_action :
  (fun task => (Task.status task, StepRecord.status <$> Task.steps task,
                Task.error task))
    <$> tasks (snd four_steps_run) !! "t1"
  = Some (FAILED, [COMPLETED; FAILED; PENDING; PENDING],
          Some "Failed to execute step estimate: Unknown agent action: pm:estimate").
Proof. vm_compute. reflexivity. Qed.
(** * The registry: further properties *)

(** ** What [listTasks] shows *)

Lemma elem_of_listTasks (st : state) (s : TaskSummary.t) :
  s ∈ fst (listTasks st) <->
  exists taskId task,
    tasks st !! taskId = Some task /\ is_active task = true /\ s = summary task.
Proof.
  unfold listTasks. simpl. rewrite list_elem_of_fmap. split.
  - intros (task & -> & Hin).
    apply list_elem_of_In, filter_In in Hin as [Hin Hact].
    apply list_elem_of_In, list_elem_of_fmap in Hin as ([k t] & -> & Hkt).
    apply elem_of_map_to_list in Hkt. by exists k, t.
  - intros (k & task & Hl & Hact & ->). exists task. split; [done |].
    apply list_elem_of_In, filter_In. split; [| done].
    apply list_elem_of_In, list_elem_of_fmap. exists (k, task).
    split; [done |]. by apply elem_of_map_to_list.
Qed.

Lemma is_active_spec (task : Task.t) :
  is_active task = true <->
  Task.status task = PENDING \/ Task.status task = RUNNING.
Proof.
  unfold is_active. rewrite bool_decide_eq_true.
  rewrite !elem_of_cons, elem_of_nil. tauto.
Qed.

(** The active tasks once the task [taskId] has left them, the other
    tasks being those of [st]. *)
Lemma listTasks_without (st st' : state) (taskId : string) (task : Task.t) :
  tasks st' !! taskId = Some task ->
  is_active task = false ->
  (forall other, other <> taskId -> tasks st' !! other = tasks st !! other) ->
  forall s, s ∈ fst (listTasks st') <->
    exists other task',
      other <> taskId /\ tasks st !! other = Some task' /\
      (Task.status task' = PENDING \/ Task.status task' = RUNNING) /\
      s = summary task'.
Proof.
  intros Ht Hina Ho s. rewrite elem_of_listTasks. split.
  - intros (k & t & Hk & Hact & ->).
    destruct (decide (k = taskId)) as [-> | Hne]; [congruence |].
    exists k, t. rewrite <- Ho by done. by rewrite <- is_active_spec.
  - intros (k & t & Hne & Hk & Hact & ->). exists k, t.
    rewrite Ho by done. by rewrite is_active_spec.
Qed.

(** ** The identity of a task *)

Lemma iteration_holds_task invoke taskId params d i sr task st :
  tasks st !! taskId = Some task ->
  tasks (snd (iteration invoke taskId params d i sr task st)) !! taskId
  = Some (snd (fst (iteration invoke taskId params d i sr task st))).
Proof.
  intros Ht. unfold iteration. rewrite skips_eq.
  destruct (skip_decision d sr) as [[|] | e], (Task.steps task !! i);
    simpl; try exact Ht; try apply lookup_insert_eq.
  rewrite attempt_eq. destruct (attempt_result invoke d params sr);
    simpl; apply lookup_insert_eq.
Qed.

Lemma loop_holds_task invoke taskId params remaining :
  forall i sr task st,
    tasks st !! taskId = Some task ->
    tasks (snd (loop invoke taskId params remaining i sr task st)) !! taskId
    = Some (snd (fst (loop invoke taskId params remaining i sr task st))).
Proof.
  induction remaining as [| d rest IH]; intros i sr task st Ht; [exact Ht |].
  simpl. pose proof (iteration_holds_task invoke taskId params d i sr task st Ht) as Hd.
  destruct (iteration invoke taskId params d i sr task st) as [[o task1] st1].
  simpl in Hd. destruct o as [[sr1 |] | e]; try exact Hd.
  by apply IH.
Qed.

Lemma same_identity_trans (a b c : Task.t) :
  same_identity a b -> same_identity b c -> same_identity a c.
Proof. unfold same_identity. intros (-> & -> & -> & ->) (-> & -> & -> & ->). done. Qed.

Lemma iteration_identity invoke taskId params d i sr task st :
  same_identity task (snd (fst (iteration invoke taskId params d i sr task st))).
Proof.
  unfold iteration. rewrite skips_eq.
  destruct (skip_decision d sr) as [[|] | e], (Task.steps task !! i);
    try done.
  rewrite attempt_eq. by destruct (attempt_result invoke d params sr).
Qed.

Lemma loop_identity invoke taskId params remaining :
  forall i sr task st,
    same_identity task (snd (fst (loop invoke taskId params remaining i sr task st))).
Proof.
  induction remaining as [| d rest IH]; intros i sr task st; [done |].
  simpl. pose proof (iteration_identity invoke taskId params d i sr task st) as Hd.
  destruct (iteration invoke taskId params d i sr task st) as [[o task1] st1].
  simpl in Hd. destruct o as [[sr1 |] | e]; try exact Hd.
  eapply same_identity_trans; [exact Hd | apply IH].
Qed.

(** The task that a run leaves is the task that [startWorkflow]
    registered, as to its id, type, parameters and starting time. *)
Lemma launch_identity invoke finished taskId workflow params created st task :
  tasks (launch invoke finished taskId workflow params
           (tasks_set taskId created st)) !! taskId = Some task ->
  same_identity created task.
Proof.
  unfold launch, executeWorkflow.
  replace (tasks (tasks_set taskId created st) !! taskId) with (Some created)
    by (symmetry; apply lookup_insert_eq).
  set (task_r := Task.set_status RUNNING created).
  set (st1 := tasks_set taskId task_r (mutate taskId task_r _)).
  assert (Ht1 : tasks st1 !! taskId = Some task_r) by apply lookup_insert_eq.
  pose proof (loop_holds_task invoke taskId params (Workflow.steps workflow)
                0 ∅ task_r st1 Ht1) as Hheld.
  pose proof (loop_identity invoke taskId params (Workflow.steps workflow)
                0 ∅ task_r st1) as Hsame.
  destruct (loop invoke taskId params _ 0 ∅ task_r st1) as [[out t] s].
  simpl in Hheld, Hsame.
  assert (Hc : same_identity created t) by exact Hsame.
  destruct out as [[sr |] | e].
  - simpl. rewrite lookup_insert_eq. by intros [= <-].
  - rewrite Hheld. by intros [= <-].
  - unfold onRejected. simpl. rewrite Hheld. simpl.
    rewrite lookup_insert_eq. by intros [= <-].
Qed.

(** X1. Once the run that [startWorkflow] launched has settled, the
    task has left the active tasks: [listTasks] shows the PENDING and
    RUNNING tasks among the others, which the run has not touched, and
    the task can no longer be cancelled, [cancelTask] failing with
    InvalidState on its final status. *)
Theorem settled_run_is_not_active
    (invoke : string -> string -> value -> except value)
    (table : gmap string Workflow.t) (taskId started finished : string)
    (workflowName : string) (params : value) (st : state)
    (workflow : Workflow.t) :
  table !! workflowName = Some workflow ->
  let st' := snd (startWorkflow invoke table taskId started finished
                    workflowName params st) in
  (forall other, other <> taskId -> tasks st' !! other = tasks st !! other) /\
  (forall s, s ∈ fst (listTasks st') <->
     exists other task,
       other <> taskId /\ tasks st !! other = Some task /\
       (Task.status task = PENDING \/ Task.status task = RUNNING) /\
       s = summary task) /\
  snd (listTasks st') = st' /\
  exists final,
    (final = COMPLETED \/ final = FAILED) /\
    forall now, cancelTask now taskId st' = (Throw (InvalidState taskId final), st').
Proof.
  intros Hwf st'. subst st'. unfold startWorkflow. rewrite Hwf. simpl snd.
  destruct (launch_report invoke taskId started finished workflowName workflow
              params st) as (evs & task & Hw & _ & Hrep).
  pose proof (w_task _ _ _ _ _ _ _ Hw) as Ht.
  pose proof (w_others _ _ _ _ _ _ _ Hw) as Ho.
  assert (Hfinal : Task.status task = COMPLETED \/ Task.status task = FAILED).
  { destruct (report_failed _ _ _ _ _ _ Hrep) as [(Hs & _) | (Hs & _)]; auto. }
  split; [exact Ho |]. split; [| split; [reflexivity |]].
  - apply (listTasks_without _ _ _ task); [done | | done].
    unfold is_active. destruct Hfinal as [-> | ->]; reflexivity.
  - exists (Task.status task). split; [done |].
    intros now. unfold cancelTask. rewrite Ht.
    destruct Hfinal as [-> | ->]; reflexivity.
Qed.

Lemma settled_run_is_not_active_witness :
  let st' := snd demo in
  (forall other, other <> "t1" -> tasks st' !! other = tasks initial !! other) /\
  (forall s, s ∈ fst (listTasks st') <->
     exists other task,
       other <> "t1" /\ tasks initial !! other = Some task /\
       (Task.status task = PENDING \/ Task.status task = RUNNING) /\
       s = summary task) /\
  snd (listTasks st') = st' /\
  exists final,
    (final = COMPLETED \/ final = FAILED) /\
    forall now, cancelTask now "t1" st' = (Throw (InvalidState "t1" final), st').
Proof.
  apply (settled_run_is_not_active executeStep workflows "t1" "12:00" "12:07"
           "full_cycle" demo_params initial full_cycle).
  reflexivity.
Defined.

Lemma filter_all {A} (f : A -> bool) (l : list A) :
  Forall (fun x => f x = true) l -> List.filter f l = l.
Proof.
  induction 1 as [| x l Hx _ IH]; simpl; [done |]. by rewrite Hx, IH.
Qed.

(** X2. What the registry answers about a settled run.
    [getTaskStatus] shows the id drawn and the starting time read by
    [startWorkflow].  When the task is COMPLETED, [getTaskStatus] shows the completion time, no error,
    the message of success and the progress of all steps out of all
    steps, and [getTaskArtifacts] serializes the merge of the results of
    its steps.  When it is FAILED, [getTaskStatus] shows no completion
    time, and as message the error text of the task (its fallback when
    that text is empty), and [getTaskArtifacts] fails with
    TaskNotCompleted.  The task is in one of the two cases. *)
Theorem settled_run_report
    (invoke : string -> string -> value -> except value)
    (JSON_stringify : value -> string)
    (table : gmap string Workflow.t) (taskId started finished : string)
    (workflowName : string) (params : value) (st : state)
    (workflow : Workflow.t) :
  table !! workflowName = Some workflow ->
  let st' := snd (startWorkflow invoke table taskId started finished
                    workflowName params st) in
  let n := length (Workflow.steps workflow) in
  exists task status,
    tasks st' !! taskId = Some task /\
    getTaskStatus taskId st' = (Ok status, st') /\
    TaskStatus.id status = taskId /\
    TaskStatus.started_at status = started /\
    (TaskStatus.status status = COMPLETED /\
     TaskStatus.completed_at status = Some finished /\
     TaskStatus.error status = None /\
     TaskStatus.message status = "Task completed successfully" /\
     TaskStatus.progress status = progress_of n n /\
     (exists artifacts,
        getTaskArtifacts JSON_stringify taskId st' = (Ok artifacts, st') /\
        artifacts !! "results.json"
        = Some (VStr (JSON_stringify (VObj (merged (Task.steps task))))))
     \/
     TaskStatus.status status = FAILED /\
     TaskStatus.completed_at status = None /\
     (exists text,
        TaskStatus.error status = Some text /\
        TaskStatus.message status
        = if String.eqb text EmptyString then "Task failed" else text) /\
     getTaskArtifacts JSON_stringify taskId st'
     = (Throw (TaskNotCompleted taskId FAILED), st')).
Proof.
  intros Hwf st' n. subst st' n. unfold startWorkflow. rewrite Hwf. simpl snd.
  destruct (launch_report invoke taskId started finished workflowName workflow
              params st) as (evs & task & Hw & _ & Hrep).
  pose proof (w_task _ _ _ _ _ _ _ Hw) as Ht.
  pose proof (w_length _ _ _ _ _ _ _ Hw) as Hlen.
  destruct (launch_identity _ _ _ _ _ _ _ _ Ht) as (Hid & _ & _ & Hstart).
  exists task. unfold getTaskStatus, getTaskArtifacts. rewrite Ht.
  eexists. split; [reflexivity |]. split; [reflexivity |]. simpl.
  split; [done |]. split; [done |].
  unfold getStatusMessage.
  destruct Hrep as
    [Hall _ Hs Hc He Hres _
    | passed d rest pre e _ _ _ _ _ _ Hs He _ Hc _
    | passed d rest pre c e _ _ _ _ _ _ Hs He _ Hc _].
  - left. rewrite Hs, Hc, He. repeat split.
    + rewrite filter_all by (by eapply settled_counts). by rewrite Hlen.
    + eexists. split; [reflexivity |]. rewrite lookup_insert_eq. by rewrite Hres.
  - right. rewrite Hs, Hc, He. repeat split. by eexists.
  - right. rewrite Hs, Hc, He. repeat split. by eexists.
Qed.

Lemma settled_run_report_witness :
  exists task status,
    tasks (snd demo) !! "t1" = Some task /\
    getTaskStatus "t1" (snd demo) = (Ok status, snd demo) /\
    (TaskStatus.status status = COMPLETED \/ TaskStatus.status status = FAILED).
Proof.
  destruct (settled_run_report executeStep (fun _ => "{}") workflows "t1" "12:00"
              "12:07" "full_cycle" demo_params initial full_cycle eq_refl)
    as (task & status & Ht & Hg & _ & _ & [(Hs & _) | (Hs & _)]);
    exists task, status; auto.
Defined.

(** X3. A cancellation is visible at once.  In the state that a
    successful [cancelTask] leaves, [getTaskStatus] shows the task CANCELLED
    with the time read and the message of cancellation, its progress
    being what it was; a second [cancelTask] fails with InvalidState and
    [getTaskArtifacts] with TaskNotCompleted, both leaving the state as
    it is; and [listTasks] shows the active tasks among the others. *)
Theorem cancelled_task_is_final (JSON_stringify : value -> string)
    (now taskId : string) (st : state) (task : Task.t) :
  tasks st !! taskId = Some task ->
  Task.status task = PENDING \/ Task.status task = RUNNING ->
  exists st' before after,
    cancelTask now taskId st = (Ok true, st') /\
    getTaskStatus taskId st = (Ok before, st) /\
    getTaskStatus taskId st' = (Ok after, st') /\
    TaskStatus.status after = CANCELLED /\
    TaskStatus.completed_at after = Some now /\
    TaskStatus.message after = "Task was cancelled" /\
    TaskStatus.progress after = TaskStatus.progress before /\
    (forall later,
       cancelTask later taskId st' = (Throw (InvalidState taskId CANCELLED), st')) /\
    getTaskArtifacts JSON_stringify taskId st'
    = (Throw (TaskNotCompleted taskId CANCELLED), st') /\
    (forall s, s ∈ fst (listTasks st') <->
       exists other task',
         other <> taskId /\ tasks st !! other = Some task' /\
         (Task.status task' = PENDING \/ Task.status task' = RUNNING) /\
         s = summary task').
Proof.
  intros Ht Hs.
  set (task' := Task.set_completed_at now (Task.set_status CANCELLED task)).
  assert (Hc : exists st',
            cancelTask now taskId st = (Ok true, st') /\
            tasks st' = <[taskId := task']> (tasks st)).
  { unfold cancelTask. rewrite Ht.
    destruct Hs as [-> | ->]; simpl; eexists; (split; [reflexivity |]);
      simpl; by rewrite !insert_insert_eq. }
  destruct Hc as (st' & Hc & Hm).
  assert (Ht' : tasks st' !! taskId = Some task')
    by (rewrite Hm; apply lookup_insert_eq).
  exists st'. unfold getTaskStatus, getTaskArtifacts. rewrite Ht, Ht'.
  eexists _, _. split; [exact Hc |].
  split; [reflexivity |]. split; [reflexivity |]. simpl.
  repeat split.
  - intros later. unfold cancelTask. by rewrite Ht'.
  - apply (listTasks_without st st' taskId task'); [done | done |].
    intros other Hne. rewrite Hm. by apply lookup_insert_ne.
  - apply (listTasks_without st st' taskId task'); [done | done |].
    intros other Hne. rewrite Hm. by apply lookup_insert_ne.
Qed.

Lemma cancelled_task_is_final_witness :
  exists st' before after,
    cancelTask "13:00" "t1" (registry_with (sample_task RUNNING)) = (Ok true, st') /\
    getTaskStatus "t1" (registry_with (sample_task RUNNING))
    = (Ok before, registry_with (sample_task RUNNING)) /\
    getTaskStatus "t1" st' = (Ok after, st') /\
    TaskStatus.status after = CANCELLED.
Proof.
  destruct (cancelled_task_is_final (fun _ => "{}") "13:00" "t1"
              (registry_with (sample_task RUNNING)) (sample_task RUNNING)
              eq_refl (or_intror eq_refl))
    as (st' & before & after & Hc & Hb & Ha & Hs & _).
  exists st', before, after. auto.
Defined.

(** ** The progress of a task *)

Lemma same_number_eq (x y : spec_float) : same_number x y = true -> x = y.
Proof.
  destruct x as [a | a | | a m e], y as [b | b | | b m' e']; simpl; try done.
  - by intros ->%Bool.eqb_prop.
  - by intros ->%Bool.eqb_prop.
  - intros [[->%Bool.eqb_prop ->%Pos.eqb_eq]%andb_prop ->%Z.eqb_eq]%andb_prop.
    reflexivity.
Qed.

Lemma exact_progress_below_fifty :
  forallb (fun t => forallb (fun c => exact_progress c t) (seq 0 (S t))) (seq 1 49)
  = true.
Proof. vm_compute. reflexivity. Qed.

(** X4. For a task of fewer than fifty steps, the progress that
    [getTaskStatus] reports is the floor of the percentage of its steps
    that are COMPLETED or SKIPPED; fifty is the least number of steps for
    which the computation in double precision can fall short of it. *)
Theorem progress_is_exact_below_fifty_steps (taskId : string) (st : state)
    (task : Task.t) :
  tasks st !! taskId = Some task ->
  0 < length (Task.steps task) < 50 ->
  let done := length (List.filter counts_as_done (Task.steps task)) in
  let total := length (Task.steps task) in
  exists status,
    getTaskStatus taskId st = (Ok status, st) /\
    TaskStatus.progress status
    = number_of_Z (100 * Z.of_nat done / Z.of_nat total) /\
    exact_progress 29 50 = false.
Proof.
  intros Ht Hlen done total. unfold getTaskStatus. rewrite Ht.
  eexists. split; [reflexivity |]. simpl. split; [| by vm_compute].
  apply same_number_eq.
  pose proof exact_progress_below_fifty as Htable.
  rewrite forallb_forall in Htable.
  assert (Hin : In total (seq 1 49)) by (apply in_seq; subst total; lia).
  specialize (Htable total Hin). rewrite forallb_forall in Htable.
  apply (Htable done). apply in_seq. subst done total.
  pose proof (List.filter_length_le counts_as_done (Task.steps task)). lia.
Qed.

Lemma progress_is_exact_below_fifty_steps_witness :
  let task := newTask "t1" "12:00" "full_cycle" full_cycle demo_params in
  exists status,
    getTaskStatus "t1" (tasks_set "t1" task initial)
    = (Ok status, tasks_set "t1" task initial) /\
    TaskStatus.progress status = number_of_Z (100 * 0 / 7).
Proof.
  intros task.
  destruct (progress_is_exact_below_fifty_steps "t1" (tasks_set "t1" task initial)
              task)
    as (status & Hg & Hp & _).
  - reflexivity.
  - simpl. lia.
  - exists status. split; [exact Hg | exact Hp].
Defined.

(** ** The shipped workflow *)

(** The loop of [full_cycle] with the stand-in agents, on parameters
    that are an object or a primitive value. *)
Lemma full_cycle_loop_completes taskId started params st :
  nullish params = false ->
  match fst (loop executeStep taskId params (Workflow.steps full_cycle) 0 ∅
               (Task.set_status RUNNING
                  (newTask taskId started "full_cycle" full_cycle params)) st) with
  | (Ok (Next _), task) =>
      bool_decide (StepRecord.status <$> Task.steps task = replicate 7 COMPLETED)
      && bool_decide (dom (Task.results task)
                      = list_to_set ["scope_definition"; "task_plan";
                                     "generated_code"; "test_results";
                                     "lint_results"; "error_analysis";
                                     "refined_code"])
      && bool_decide (Task.error task = None)
  | _ => false
  end = true.
Proof.
  intros Hn. destruct params; try discriminate Hn; vm_compute; reflexivity.
Qed.

(** The same loop on parameters that are [undefined] or [null]. *)
Lemma full_cycle_loop_fails taskId started params st :
  nullish params = true ->
  match fst (loop executeStep taskId params (Workflow.steps full_cycle) 0 ∅
               (Task.set_status RUNNING
                  (newTask taskId started "full_cycle" full_cycle params)) st),
        getProp params "user_prompt" with
  | (Ok Return, task), Throw e =>
      bool_decide (StepRecord.status <$> Task.steps task
                   = FAILED :: replicate 6 PENDING)
      && bool_decide (Task.results task = ∅)
      && bool_decide (Task.status task = FAILED)
      && bool_decide (Task.completed_at task = None)
      && bool_decide (Task.error task
                      = Some ("Failed to execute step analyze_requirements: "
                                +:+ message e))
  | _, _ => false
  end = true.
Proof.
  intros Hn. destruct params; try discriminate Hn; vm_compute; reflexivity.
Qed.

(** X5. The workflow [full_cycle] with the stand-in agents of the
    source, for every task id, time, registry and parameters.  When the
    parameters are an object (or any value other than [undefined] and
    [null]), the task ends COMPLETED, all seven steps COMPLETED (the
    stand-in test runner reports a failure, so the two conditional steps
    run), and its result map has the seven keys of the output mappings.
    When the parameters are [undefined] or [null], the first step fails
    while reading [params.user_prompt]: the task ends FAILED with the
    message composed for that step, the six other steps PENDING and its
    result map empty. *)
Theorem full_cycle_with_the_stand_in_agents
    (taskId started finished : string) (params : value) (st : state) :
  exists task,
    tasks (snd (startWorkflow executeStep workflows taskId started finished
                  "full_cycle" params st)) !! taskId = Some task /\
    if nullish params
    then
      Task.status task = FAILED /\
      StepRecord.status <$> Task.steps task = FAILED :: replicate 6 PENDING /\
      Task.results task = ∅ /\
      Task.completed_at task = None /\
      exists e, getProp params "user_prompt" = Throw e /\
                Task.error task
                = Some ("Failed to execute step analyze_requirements: "
                          +:+ message e)
    else
      Task.status task = COMPLETED /\
      StepRecord.status <$> Task.steps task = replicate 7 COMPLETED /\
      dom (Task.results task)
      = list_to_set ["scope_definition"; "task_plan"; "generated_code";
                     "test_results"; "lint_results"; "error_analysis";
                     "refined_code"] /\
      Task.completed_at task = Some finished /\
      Task.error task = None.
Proof.
  unfold startWorkflow.
  change (workflows !! "full_cycle") with (Some full_cycle). simpl snd.
  unfold launch, executeWorkflow.
  set (created := newTask taskId started "full_cycle" full_cycle params).
  replace (tasks (tasks_set taskId created st) !! taskId) with (Some created)
    by (symmetry; apply lookup_insert_eq).
  set (task_r := Task.set_status RUNNING created).
  set (st1 := tasks_set taskId task_r (mutate taskId task_r _)).
  assert (Ht1 : tasks st1 !! taskId = Some task_r) by apply lookup_insert_eq.
  pose proof (loop_holds_task executeStep taskId params
                (Workflow.steps full_cycle) 0 ∅ task_r st1 Ht1) as Hheld.
  destruct (nullish params) eqn:Hn.
  - pose proof (full_cycle_loop_fails taskId started params st1 Hn) as Hrun.
    fold created task_r in Hrun.
    destruct (loop executeStep taskId params _ 0 ∅ task_r st1)
      as [[out task] st2].
    simpl in Hrun, Hheld.
    destruct out as [[sr |] | e0]; try discriminate Hrun.
    destruct (getProp params "user_prompt") as [v | e]; [discriminate Hrun |].
    apply andb_prop in Hrun as [Hrun He%bool_decide_eq_true].
    apply andb_prop in Hrun as [Hrun Hc%bool_decide_eq_true].
    apply andb_prop in Hrun as [Hrun Hs%bool_decide_eq_true].
    apply andb_prop in Hrun as [Hst%bool_decide_eq_true Hr%bool_decide_eq_true].
    exists task. split; [exact Hheld |]. repeat split; try done. by exists e.
  - pose proof (full_cycle_loop_completes taskId started params st1 Hn) as Hrun.
    fold created task_r in Hrun.
    destruct (loop executeStep taskId params _ 0 ∅ task_r st1)
      as [[out task] st2].
    simpl in Hrun, Hheld.
    destruct out as [[sr |] | e0]; try discriminate Hrun.
    apply andb_prop in Hrun as [Hrun He%bool_decide_eq_true].
    apply andb_prop in Hrun as [Hst%bool_decide_eq_true Hd%bool_decide_eq_true].
    eexists. split; [apply lookup_insert_eq |]. simpl. done.
Qed.

Lemma take_names (L : list StepRecord.t) (names : list string) n :
  StepRecord.name <$> L = names ->
  StepRecord.name <$> take n L = take n names.
Proof. intros <-. by rewrite fmap_take. Qed.

(** X6. In [full_cycle], whatever the agents answer and whatever the
    parameters are, the refinement never completes without an error
    analysis: when the record of [refine_code] is COMPLETED, the one of
    [analyze_errors] is COMPLETED and its result is an object; so when
    the task is COMPLETED and [analyze_errors] was SKIPPED, [refine_code]
    was SKIPPED too. *)
Theorem refinement_needs_an_analysis
    (invoke : string -> string -> value -> except value)
    (taskId started finished : string) (params : value) (st : state) :
  exists task analysis refine,
    tasks (snd (startWorkflow invoke workflows taskId started finished
                  "full_cycle" params st)) !! taskId = Some task /\
    Task.steps task !! 5 = Some analysis /\
    StepRecord.name analysis = "analyze_errors" /\
    Task.steps task !! 6 = Some refine /\
    StepRecord.name refine = "refine_code" /\
    (StepRecord.status refine = COMPLETED ->
     StepRecord.status analysis = COMPLETED /\
     nullish (StepRecord.result analysis) = false) /\
    (Task.status task = COMPLETED -> StepRecord.status analysis = SKIPPED ->
     StepRecord.status refine = SKIPPED).
Proof.
  unfold startWorkflow.
  change (workflows !! "full_cycle") with (Some full_cycle). simpl snd.
  destruct (launch_report invoke taskId started finished "full_cycle" full_cycle
              params st) as (evs & task & Hw & _ & Hrep).
  destruct (report_records _ _ _ _ _ _ Hrep) as (Hnames & Hval & _ & _).
  change (StepDefinition.name <$> Workflow.steps full_cycle)
    with ["analyze_requirements"; "decompose_tasks"; "generate_code";
          "run_tests"; "lint_code"; "analyze_errors"; "refine_code"] in Hnames.
  assert (Hname : forall j r, Task.steps task !! j = Some r ->
            ["analyze_requirements"; "decompose_tasks"; "generate_code";
             "run_tests"; "lint_code"; "analyze_errors"; "refine_code"] !! j
            = Some (StepRecord.name r)).
  { intros j r Hr. rewrite <- Hnames, list_lookup_fmap, Hr. reflexivity. }
  destruct (Task.steps task !! 5) as [analysis |] eqn:H5; cycle 1.
  { apply (f_equal length) in Hnames. rewrite length_fmap in Hnames.
    apply lookup_ge_None in H5. simpl in Hnames. lia. }
  destruct (Task.steps task !! 6) as [refine |] eqn:H6; cycle 1.
  { apply (f_equal length) in Hnames. rewrite length_fmap in Hnames.
    apply lookup_ge_None in H6. simpl in Hnames. lia. }
  assert (Hneeds : StepRecord.status refine = COMPLETED ->
            StepRecord.status analysis = COMPLETED /\
            nullish (StepRecord.result analysis) = false).
  { intros Hc.
    pose proof (proj2 (proj2 (Hval 6 _ refine eq_refl H6) Hc)) as Hattempt.
    set (acc := accumulated (take 6 (Task.steps task))) in Hattempt.
    assert (Hsome : exists x, acc !! "analyze_errors" = Some x /\ nullish x = false).
    { unfold attempt_result, inputs_value in Hattempt. simpl in Hattempt.
      unfold path2, andThen in Hattempt. simpl in Hattempt.
      destruct (acc !! "analyze_errors") as [x |] eqn:Hx.
      - exists x. split; [done |].
        destruct x; try reflexivity; simpl in Hattempt;
          destruct (getProp (default VUndefined (acc !! "generate_code")) _);
          discriminate Hattempt.
      - simpl in Hattempt.
        destruct (getProp (default VUndefined (acc !! "generate_code")) _);
          discriminate Hattempt. }
    destruct Hsome as (x & Hx & Hnn).
    apply accumulated_lookup in Hx as (_ & j & r & Hr & Hn & Hst & Hres & _).
    apply lookup_take_Some in Hr as [Hr Hlt].
    pose proof (Hname _ _ Hr) as Hj. rewrite Hn in Hj.
    assert (j = 5) as ->.
    { do 6 (destruct j as [| j]; [by (discriminate Hj || reflexivity) |]). lia. }
    assert (r = analysis) as -> by congruence.
    by rewrite Hres. }
  exists task, analysis, refine.
  split; [apply (w_task _ _ _ _ _ _ _ Hw) |].
  pose proof (Hname _ _ H5) as Hn5. pose proof (Hname _ _ H6) as Hn6.
  injection Hn5 as Hn5. injection Hn6 as Hn6.
  repeat split; try done.
  - by apply Hneeds.
  - by apply Hneeds.
  - intros Hdone Hskipped.
    destruct (report_failed _ _ _ _ _ _ Hrep) as [(_ & _ & Hall) | (Hf & _)];
      [| congruence].
    destruct (settled_lookup _ _ _ _ Hall H6) as [Hc | Hs]; [| done].
    destruct (Hneeds Hc) as [Hc5 _]. congruence.
Qed.

Lemma refinement_needs_an_analysis_witness :
  exists task analysis refine,
    tasks (snd (startWorkflow clean_code workflows "t1" "12:00" "12:07"
                  "full_cycle" demo_params initial)) !! "t1" = Some task /\
    Task.steps task !! 5 = Some analysis /\
    Task.steps task !! 6 = Some refine /\
    StepRecord.status refine = SKIPPED.
Proof.
  destruct (refinement_needs_an_analysis clean_code "t1" "12:00" "12:07"
              demo_params initial)
    as (task & analysis & refine & Ht & H5 & _ & H6 & _ & _ & Hskip).
  exists task, analysis, refine. repeat split; try assumption.
  apply Hskip.
  - assert (H : Task.status <$> tasks (snd (startWorkflow clean_code workflows
                  "t1" "12:00" "12:07" "full_cycle" demo_params initial)) !! "t1"
                = Some COMPLETED) by (vm_compute; reflexivity).
    rewrite Ht in H. by injection H.
  - assert (H : (fun t => StepRecord.status <$> Task.steps t !! 5)
                <$> tasks (snd (startWorkflow clean_code workflows
                  "t1" "12:00" "12:07" "full_cycle" demo_params initial)) !! "t1"
                = Some (Some SKIPPED)) by (vm_compute; reflexivity).
    rewrite Ht in H. simpl in H. rewrite H5 in H. simpl in H. congruence.
Defined.

(** ** The stand-in agents *)

Lemma has_colon_app (a c : string) : has_colon (a +:+ ":" +:+ c) = true.
Proof.
  induction a as [| ch a IH]; [done |].
  change (Ascii.eqb ch colon || has_colon (a +:+ ":" +:+ c) = true).
  by rewrite IH, orb_true_r.
Qed.

(** A key [agent:action] without another colon determines the agent and
    the action. *)
Lemma key_inj (x y : string) :
  has_colon x = false -> has_colon y = false ->
  forall a c, a +:+ ":" +:+ c = x +:+ ":" +:+ y -> a = x /\ c = y.
Proof.
  intros Hx Hy. induction x as [| h x IH]; intros a c Heq.
  - destruct a as [| ch a].
    + change (String colon c = String colon y) in Heq. by injection Heq as ->.
    + change (String ch (a +:+ ":" +:+ c) = String colon y) in Heq.
      injection Heq as -> <-. by rewrite has_colon_app in Hy.
  - simpl in Hx. apply orb_false_elim in Hx as [Hh Hx].
    destruct a as [| ch a].
    + change (String colon c = String h (x +:+ ":" +:+ y)) in Heq.
      injection Heq as <- _. discriminate Hh.
    + change (String ch (a +:+ ":" +:+ c) = String h (x +:+ ":" +:+ y)) in Heq.
      injection Heq as -> Heq. destruct (IH Hx a c Heq) as [-> ->]. done.
Qed.

Lemma key_of_handler (x y agentName action : string) :
  has_colon x = false -> has_colon y = false ->
  (agentName, action) <> (x, y) ->
  String.eqb (agentName +:+ ":" +:+ action) (x +:+ ":" +:+ y) = false.
Proof.
  intros Hx Hy Hne. apply String.eqb_neq. intros Heq.
  destruct (key_inj x y Hx Hy _ _ Heq) as [-> ->]. done.
Qed.

(** X7. The stand-in agents of [executeStep] answer exactly the seven
    pairs of an agent and an action that [full_cycle] uses, each with an
    object of one property, and never look at the inputs; for every
    other pair [executeStep] throws, naming the agent and the action. *)
Theorem executeStep_handlers (agentName action : string) (inputs inputs' : value) :
  executeStep agentName action inputs = executeStep agentName action inputs' /\
  ((agentName, action) ∈ handlers ->
   exists key v, executeStep agentName action inputs = Ok (object [(key, v)])) /\
  ((agentName, action) ∉ handlers ->
   executeStep agentName action inputs
   = Throw (mkError ("Unknown agent action: " +:+ agentName +:+ ":" +:+ action))) /\
  Forall (fun step =>
            (StepDefinition.agent step, StepDefinition.action step) ∈ handlers)
    (Workflow.steps full_cycle).
Proof.
  split; [reflexivity |]. split; [| split].
  - unfold handlers. rewrite !elem_of_cons, elem_of_nil.
    intros [[= -> ->] | [[= -> ->] | [[= -> ->] | [[= -> ->] | [[= -> ->]
            | [[= -> ->] | [[= -> ->] | []]]]]]]]; eexists _, _; reflexivity.
  - unfold handlers. rewrite !not_elem_of_cons.
    intros (H1 & H2 & H3 & H4 & H5 & H6 & H7 & _).
    unfold executeStep.
    rewrite (key_of_handler "consultant" "analyze_prompt") by done.
    rewrite (key_of_handler "pm" "create_task_plan") by done.
    rewrite (key_of_handler "code_generator" "generate_module") by done.
    rewrite (key_of_handler "test_runner" "test_module") by done.
    rewrite (key_of_handler "linter" "lint_code") by done.
    rewrite (key_of_handler "error_analyzer" "analyze_issues") by done.
    rewrite (key_of_handler "code_generator" "refine_code") by done.
    reflexivity.
  - refine (bool_decide_unpack _ _). vm_compute. exact I.
Qed.

Lemma executeStep_handlers_witness :
  (exists key v, executeStep "linter" "lint_code" VNull = Ok (object [(key, v)])) /\
  executeStep "linter" "format_code" VNull
  = Throw (mkError "Unknown agent action: linter:format_code").
Proof.
  split.
  - apply (proj1 (proj2 (executeStep_handlers "linter" "lint_code" VNull VNull))).
    refine (bool_decide_unpack _ _). vm_compute. exact I.
  - apply (proj1 (proj2 (proj2 (executeStep_handlers "linter" "format_code"
                                  VNull VNull)))).
    refine (bool_decide_unpack _ _). vm_compute. exact I.
Defined.

(** ** Progress along a run *)

Lemma forward_done (r r' : StepRecord.t) :
  forward (StepRecord.status r) (StepRecord.status r') ->
  counts_as_done r = true -> counts_as_done r' = true.
Proof.
  unfold counts_as_done, is_status. intros Hf Hd.
  assert (Hr : rank (StepRecord.status r) = 2).
  { destruct (StepRecord.status r); try done. }
  by rewrite (forward_terminal _ _ Hr Hf).
Qed.

Lemma advances_done (older newer : Task.t) :
  advances older newer ->
  length (Task.steps older) = length (Task.steps newer) /\
  length (List.filter counts_as_done (Task.steps older))
  <= length (List.filter counts_as_done (Task.steps newer)).
Proof.
  unfold advances. intros HF. split; [by eapply Forall2_length |].
  induction HF as [| r r' l l' Hf _ IH]; simpl; [done |].
  destruct (counts_as_done r) eqn:Hd.
  - rewrite (forward_done _ _ Hf Hd). simpl. lia.
  - destruct (counts_as_done r'); simpl; lia.
Qed.

(** X8. During a run the count of steps done never goes back.  Of
    any two of the successive contents of the task, from its creation
    through every assignment of the run, the later has the same number
    of steps as the earlier and at least as many steps COMPLETED or
    SKIPPED, the two numbers from which [getTaskStatus] computes the
    progress. *)
Theorem steps_done_never_decrease
    (invoke : string -> string -> value -> except value)
    (table : gmap string Workflow.t) (taskId started finished : string)
    (workflowName : string) (params : value) (st : state)
    (workflow : Workflow.t) :
  table !! workflowName = Some workflow ->
  exists evs,
    journal (snd (startWorkflow invoke table taskId started finished
                    workflowName params st)) = evs ++ journal st /\
    let history :=
      snapshots taskId evs
        ++ [newTask taskId started workflowName workflow params] in
    forall i j later earlier,
      i < j -> history !! i = Some later -> history !! j = Some earlier ->
      length (Task.steps earlier) = length (Task.steps later) /\
      length (List.filter counts_as_done (Task.steps earlier))
      <= length (List.filter counts_as_done (Task.steps later)).
Proof.
  intros Hwf. unfold startWorkflow. rewrite Hwf. simpl snd.
  destruct (launch_report invoke taskId started finished workflowName workflow
              params st) as (evs & task & Hw & _ & _).
  exists evs. split; [apply (w_journal _ _ _ _ _ _ _ Hw) |].
  cbv zeta. intros i j later earlier Hij Hi Hj.
  apply advances_done.
  pose proof (w_history _ _ _ _ _ _ _ Hw) as Hsorted.
  revert Hsorted i j Hij Hi Hj.
  generalize (snapshots taskId evs
                ++ [newTask taskId started workflowName workflow params]).
  intros history Hsorted.
  induction Hsorted as [| newest rest _ IH Hall]; intros i j Hij Hi Hj; [done |].
  destruct j as [| j]; [lia |]. simpl in Hj.
  destruct i as [| i]; simpl in Hi.
  - injection Hi as ->. rewrite Forall_forall in Hall.
    apply Hall. by eapply list_elem_of_lookup_2.
  - apply (IH i j); [lia | done | done].
Qed.

Lemma steps_done_never_decrease_witness :
  exists evs,
    journal (snd demo) = evs ++ journal initial /\
    forall i j later earlier,
      i < j ->
      (snapshots "t1" evs
         ++ [newTask "t1" "12:00" "full_cycle" full_cycle demo_params]) !! i
      = Some later ->
      (snapshots "t1" evs
         ++ [newTask "t1" "12:00" "full_cycle" full_cycle demo_params]) !! j
      = Some earlier ->
      length (Task.steps earlier) = length (Task.steps later) /\
      length (List.filter counts_as_done (Task.steps earlier))
      <= length (List.filter counts_as_done (Task.steps later)).
Proof.
  apply (steps_done_never_decrease executeStep workflows "t1" "12:00" "12:07"
           "full_cycle" demo_params initial full_cycle).
  reflexivity.
Defined.

(** * The code-generation client: properties *)

(** ** Strings *)

Lemma toLowerCase_app (a b : string) :
  toLowerCase (a +:+ b) = toLowerCase a +:+ toLowerCase b.
Proof. induction a as [| c a IH]; simpl; [done |]. by rewrite IH. Qed.

Lemma lower_idem (c : Ascii.ascii) : lower (lower c) = lower c.
Proof.
  unfold lower.
  destruct (Nat.leb 65 (Ascii.nat_of_ascii c) && Nat.leb (Ascii.nat_of_ascii c) 90)
    eqn:Hc; [| by rewrite Hc].
  apply andb_prop in Hc as [H1%Nat.leb_le H2%Nat.leb_le].
  rewrite Ascii.nat_ascii_embedding by lia.
  replace (Nat.leb (Ascii.nat_of_ascii c + 32) 90) with false
    by (symmetry; apply Nat.leb_gt; lia).
  by rewrite andb_false_r.
Qed.

Lemma toLowerCase_idem (s : string) : toLowerCase (toLowerCase s) = toLowerCase s.
Proof. induction s as [| c s IH]; simpl; [done |]. by rewrite lower_idem, IH. Qed.

Lemma prefix_app (t b : string) : String.prefix t (t +:+ b) = true.
Proof.
  induction t as [| c t IH]; simpl; [by destruct b |].
  destruct (Ascii.ascii_dec c c); [exact IH | done].
Qed.

Lemma includes_app_l (a s t : string) :
  includes s t = true -> includes (a +:+ s) t = true.
Proof.
  intros Hs. induction a as [| c a IH]; simpl; [done |].
  rewrite IH. apply orb_true_r.
Qed.

Lemma includes_middle (a t b : string) : includes (a +:+ t +:+ b) t = true.
Proof.
  apply includes_app_l. destruct t; simpl; [by destruct b |].
  destruct (Ascii.ascii_dec a0 a0); [| done]. by rewrite prefix_app.
Qed.

Lemma detectLanguage_range (prompt : string) :
  Minimal.detectLanguage prompt = "python" \/
  Minimal.detectLanguage prompt = "java" \/
  Minimal.detectLanguage prompt = "javascript".
Proof.
  unfold Minimal.detectLanguage.
  destruct (_ || _ || _); [by left |]. destruct (_ && _); auto.
Qed.

(** X9. Language detection looks for its keywords anywhere in the
    prompt and in any letter case.  A prompt that mentions python, django
    or flask is detected as python, whatever else it mentions; a prompt
    that mentions javascript is never detected as java; the answer is
    one of python, java and javascript, and is the same for the prompt
    in lower case. *)
Theorem detectLanguage_keywords (before word after : string) :
  (toLowerCase word ∈ ["python"; "django"; "flask"] ->
   Minimal.detectLanguage (before +:+ word +:+ after) = "python") /\
  (toLowerCase word = "javascript" ->
   Minimal.detectLanguage (before +:+ word +:+ after) <> "java") /\
  Minimal.detectLanguage word ∈ ["python"; "java"; "javascript"] /\
  Minimal.detectLanguage (toLowerCase word) = Minimal.detectLanguage word.
Proof.
  unfold Minimal.detectLanguage. rewrite toLowerCase_idem.
  split; [| split; [| split; [| reflexivity]]].
  - intros Hw. rewrite !toLowerCase_app.
    apply elem_of_cons in Hw as [-> | Hw]; [| apply elem_of_cons in Hw as [-> | Hw]].
    + by rewrite includes_middle.
    + rewrite includes_middle. by rewrite orb_true_r.
    + apply list_elem_of_singleton in Hw as ->.
      rewrite includes_middle. by rewrite orb_true_r.
  - intros Hw. rewrite !toLowerCase_app, Hw.
    set (p := toLowerCase before +:+ "javascript" +:+ toLowerCase after).
    assert (Hj : includes p "javascript" = true) by apply includes_middle.
    rewrite Hj, andb_false_r. by destruct (_ || _ || _).
  - fold (Minimal.detectLanguage word).
    destruct (detectLanguage_range word) as [-> | [-> | ->]]; set_solver.
Qed.

Lemma detectLanguage_keywords_witness :
  Minimal.detectLanguage ("A Java client for a " +:+ "Flask" +:+ " service") = "python" /\
  Minimal.detectLanguage ("Port this Java applet to " +:+ "JavaScript" +:+ "!")
  <> "java".
Proof.
  split.
  - apply (proj1 (detectLanguage_keywords "A Java client for a " "Flask" " service")).
    vm_compute. do 2 apply list_elem_of_further. apply list_elem_of_here.
  - apply (proj1 (proj2 (detectLanguage_keywords "Port this Java applet to "
                           "JavaScript" "!"))).
    reflexivity.
Defined.

(** ** The generator and the validation *)

(** X10. [callCodeGenerator] throws only on request: it throws exactly
    when the options name a language that is neither javascript nor
    python nor one of the supported languages, and then with the message
    that names it.  Without a language in the options it never throws: a
    prompt detected as java is answered with JavaScript files.  The
    languages javascript and python are served even when the
    configuration does not list them, and a listed language other than
    these two is answered with JavaScript files.  What it returns is
    always the answer of one of the two generators for the prompt. *)
Theorem callCodeGenerator_throws_only_on_request (config : Minimal.Config)
    (generateJavaScriptCode generatePythonCode : string -> gmap string string)
    (prompt : string) (options : Minimal.Options) :
  let call :=
    Minimal.callCodeGenerator config generateJavaScriptCode generatePythonCode
      prompt options in
  let requested := truthy_string (Minimal.language options) in
  (forall e, call = Throw e <->
     exists l, requested = Some l /\ l <> "javascript" /\ l <> "python" /\
               (l ∉ Minimal.supportedLanguages config) /\
               e = Minimal.UnsupportedLanguage config l) /\
  (requested = None ->
   call = Ok (if String.eqb (Minimal.detectLanguage prompt) "python"
              then generatePythonCode prompt
              else generateJavaScriptCode prompt)) /\
  (requested = Some "javascript" -> call = Ok (generateJavaScriptCode prompt)) /\
  (requested = Some "python" -> call = Ok (generatePythonCode prompt)) /\
  (forall l, requested = Some l -> l <> "python" ->
             l ∈ Minimal.supportedLanguages config ->
             call = Ok (generateJavaScriptCode prompt)) /\
  (forall files, call = Ok files ->
     files = generateJavaScriptCode prompt \/ files = generatePythonCode prompt).
Proof.
  intros call requested. subst call requested. unfold Minimal.callCodeGenerator.
  assert (Hsplit : forall P1 P2 P3 P4 P5 P6 : Prop,
            P1 -> P2 -> P3 -> P4 -> P5 -> P6 ->
            P1 /\ P2 /\ P3 /\ P4 /\ P5 /\ P6) by tauto.
  destruct (truthy_string (Minimal.language options)) as [l |] eqn:Hl.
  - destruct (String.eqb_spec l "javascript") as [-> | Hjs];
      [| destruct (String.eqb_spec l "python") as [-> | Hpy];
         [| case_bool_decide as Hsup; simpl]];
      apply Hsplit;
      try (intros e; split;
           [intros; simplify_eq; eauto 10
           | intros (l' & ? & ? & ? & ? & ?); by simplify_eq]);
      try (intros; simplify_eq; by auto).
  - destruct (detectLanguage_range prompt) as [-> | [-> | ->]]; simpl;
      apply Hsplit;
      try (intros e; split;
           [intros; simplify_eq
           | intros (l' & ? & ? & ? & ? & ?); by simplify_eq]);
      try (intros; simplify_eq; by auto).
Qed.

Lemma checkPackageJson_spec JSON_parse text results :
  match Minimal.checkPackageJson JSON_parse text results with
  | (Ok _, results') =>
      unreadable (JSON_parse text) = false /\
      Minimal.Validation.passed results' = Minimal.Validation.passed results /\
      exists warnings,
        Minimal.Validation.issues results'
        = Minimal.Validation.issues results ++ warnings /\
        Forall (fun issue => is_failure issue = false /\
                             Minimal.Issue.message issue <> "README.md file is missing")
          warnings
  | (Throw _, results') => unreadable (JSON_parse text) = true /\ results' = results
  end.
Proof.
  unfold Minimal.checkPackageJson.
  destruct (JSON_parse text) as [packageJson | e]; [| done].
  destruct packageJson as [| | b | n | s | l | o]; simpl; try done;
    repeat match goal with
           | |- context [if negb (truthy ?v) then _ else _] =>
               destruct (truthy v); simpl
           | |- context [if negb ?b then _ else _] => destruct b; simpl
           end;
    (split; [done |]); (split; [done |]);
    first [ exists []; by rewrite app_nil_r
          | eexists [_]; split; [reflexivity | by repeat constructor]
          | eexists [_; _]; split; [by rewrite <- app_assoc | by repeat constructor] ].
Qed.

(** X11. The verdict of [validateCode].  The validation fails exactly
    when no file was generated or a non-empty package.json cannot be
    read (the parse throws, or yields [null]); it has passed exactly when
    no issue is an error.  A missing or empty README.md is reported as a
    warning, which alone never fails the validation; and for an empty set
    of files the issues are the error and that warning. *)
Theorem validateCode_verdict (JSON_parse : string -> except value)
    (codeFiles : gmap string string) :
  let verdict := Minimal.validateCode JSON_parse codeFiles in
  Minimal.Validation.passed verdict
  = negb (existsb is_failure (Minimal.Validation.issues verdict)) /\
  (Minimal.Validation.passed verdict = false <->
   codeFiles = ∅ \/
   exists text, truthy_string (codeFiles !! "package.json") = Some text /\
                unreadable (JSON_parse text) = true) /\
  (Minimal.warning "README.md file is missing" ∈ Minimal.Validation.issues verdict
   <-> truthy_string (codeFiles !! "README.md") = None) /\
  (codeFiles = ∅ ->
   Minimal.Validation.issues verdict
   = [Minimal.failure "No code files were generated";
      Minimal.warning "README.md file is missing"]).
Proof.
  intros verdict. subst verdict. unfold Minimal.validateCode.
  set (r0 := Minimal.Validation.mk true []).
  set (r1 := if bool_decide (codeFiles = ∅) then _ else r0).
  set (r2 := match truthy_string (codeFiles !! "README.md") with
             | Some _ => r1 | None => _ end).
  assert (H2 : Minimal.Validation.passed r2 = negb (bool_decide (codeFiles = ∅)) /\
               Minimal.Validation.passed r2
               = negb (existsb is_failure (Minimal.Validation.issues r2)) /\
               (Minimal.warning "README.md file is missing"
                  ∈ Minimal.Validation.issues r2
                <-> truthy_string (codeFiles !! "README.md") = None) /\
               (codeFiles = ∅ ->
                Minimal.Validation.issues r2
                = [Minimal.failure "No code files were generated";
                   Minimal.warning "README.md file is missing"])).
  { subst r2 r1 r0. case_bool_decide as He.
    - subst codeFiles. rewrite lookup_empty. simpl. repeat split; try done.
      intros _. apply list_elem_of_further, list_elem_of_here.
    - destruct (truthy_string (codeFiles !! "README.md")); simpl;
        repeat split; try done.
      + by intros ?%elem_of_nil.
      + intros _. apply list_elem_of_here. }
  clearbody r2. clear r1 r0. destruct H2 as (Hp & Hf & Hw & Hempty).
  destruct (truthy_string (codeFiles !! "package.json")) as [text |] eqn:Hpkg.
  - assert (Hne : codeFiles <> ∅).
    { intros ->. by rewrite lookup_empty in Hpkg. }
    rewrite bool_decide_eq_false_2 in Hp by done.
    pose proof (checkPackageJson_spec JSON_parse text r2) as Hc.
    destruct (Minimal.checkPackageJson JSON_parse text r2) as [[[] | e] r3].
    + destruct Hc as (Hr & Hp3 & ws & Hi & Hws).
      rewrite Hp3, Hi, existsb_app.
      assert (Hnone : existsb is_failure ws = false).
      { clear -Hws. induction Hws as [| i ws [Hi _] _ IH]; simpl; [done |].
        by rewrite Hi. }
      rewrite Hnone, orb_false_r. split; [done |]. split; [| split; [| done]].
      * rewrite Hp. split; [done |]. intros [He | (t & [= <-] & Hu)]; congruence.
      * rewrite elem_of_app, Hw. split; [| auto]. intros [Hin | Hin]; [done |].
        rewrite Forall_forall in Hws. by destruct (Hws _ Hin) as [_ Hm].
    + destruct Hc as (Hu & ->). simpl. rewrite existsb_app. simpl.
      rewrite orb_true_r. split; [done |]. split; [| split; [| done]].
      * split; [| done]. intros _. right. by exists text.
      * rewrite elem_of_app, Hw. split; [| auto]. intros [Hin | Hin]; [done |].
        apply list_elem_of_singleton in Hin. discriminate Hin.
  - split; [done |]. split; [| done]. rewrite Hp.
    case_bool_decide as He; simpl.
    + split; [auto | done].
    + split; [done |]. intros [Hc | (t & Ht & _)]; congruence.
Qed.

(** ** A generation, from [generateCode] to its settlement *)

Section Generations.

Variable config : Minimal.Config.
Variables generateJavaScriptCode generatePythonCode : string -> gmap string string.
Variable JSON_parse : string -> except value.
Variable path_join : string -> string -> string.

#[local] Abbreviation callCodeGenerator :=
  (Minimal.callCodeGenerator config generateJavaScriptCode generatePythonCode).
#[local] Abbreviation generateCode :=
  (Minimal.generateCode config generateJavaScriptCode generatePythonCode
     JSON_parse path_join).
#[local] Abbreviation verdict_of := (verdict_of config JSON_parse).
#[local] Abbreviation outputDir := (outputDir config path_join).

(** The task that a generation leaves, the files written and the errors
    logged. *)
Lemma generateCode_settled (env : Minimal.Env) (taskId prompt : string)
    (options : Minimal.Options) (st : Minimal.state) :
  let st' := snd (generateCode env taskId prompt options st) in
  let task status completed_at error results outputPath :=
    Minimal.Task.mk taskId prompt options status (Minimal.started env)
      completed_at error results outputPath in
  let twice e :=
    [("Code generation error for task " +:+ taskId, e);
     ("Task execution error for task " +:+ taskId, e)] in
  fst (generateCode env taskId prompt options st) = taskId /\
  Minimal.disk st' = Some ((map_to_list (Minimal.tasks st')).*2) /\
  match callCodeGenerator prompt options with
  | Throw e =>
      Minimal.tasks st'
      = <[taskId := task "FAILED" (Some (Minimal.handled env)) (Some (message e))
                      None None]> (Minimal.tasks st) /\
      Minimal.logged st' = twice e ++ Minimal.logged st
  | Ok code =>
      let results := Some (Minimal.Results.mk code (verdict_of code)) in
      match outputDir env options, Minimal.written env with
      | Some dir, Some e =>
          Minimal.tasks st'
          = <[taskId := task "FAILED" (Some (Minimal.handled env))
                          (Some (message e)) results None]> (Minimal.tasks st) /\
          Minimal.logged st' = twice e ++ Minimal.logged st
      | dir, _ =>
          Minimal.tasks st'
          = <[taskId := task "COMPLETED" (Some (Minimal.finished env)) None
                          results dir]> (Minimal.tasks st) /\
          Minimal.logged st' = Minimal.logged st
      end
  end.
Proof.
  unfold Minimal.generateCode, Minimal.executeCodeGeneration, Minimal.generation,
    Minimal.onRejected, outputDir, verdict_of.
  simpl. rewrite lookup_insert_eq.
  destruct (callCodeGenerator prompt options) as [code | e]; simpl.
  - destruct (Minimal.enable_basic_testing config),
      (truthy_string (Minimal.generations_path config)) as [g |],
      (Minimal.written env) as [e |]; simpl;
      rewrite ?lookup_insert_eq; simpl; rewrite ?insert_insert_eq; done.
  - rewrite ?lookup_insert_eq. simpl. rewrite ?insert_insert_eq. done.
Qed.

End Generations.

(** X12. A generation that neither the generator nor the file system
    interrupts ends COMPLETED, whatever the verdict of the validation:
    [generateCode] returns the id, and once the generation has settled
    the task carries the generated files with the verdict, the time of
    completion, the output directory when files are saved, and no error;
    nothing was logged as an error, [getTaskArtifacts] returns the
    generated files, and the other tasks are as they were. *)
Theorem generateCode_completes (config : Minimal.Config)
    (generateJavaScriptCode generatePythonCode : string -> gmap string string)
    (JSON_parse : string -> except value) (path_join : string -> string -> string)
    (env : Minimal.Env) (taskId prompt : string) (options : Minimal.Options)
    (st : Minimal.state) (code : gmap string string) :
  Minimal.callCodeGenerator config generateJavaScriptCode generatePythonCode
    prompt options = Ok code ->
  outputDir config path_join env options = None \/ Minimal.written env = None ->
  let run :=
    Minimal.generateCode config generateJavaScriptCode generatePythonCode
      JSON_parse path_join env taskId prompt options st in
  fst run = taskId /\
  exists task,
    Minimal.tasks (snd run) !! taskId = Some task /\
    Minimal.Task.id task = taskId /\
    Minimal.Task.prompt task = prompt /\
    Minimal.Task.started_at task = Minimal.started env /\
    Minimal.Task.status task = "COMPLETED" /\
    Minimal.Task.completed_at task = Some (Minimal.finished env) /\
    Minimal.Task.error task = None /\
    Minimal.Task.results task
    = Some (Minimal.Results.mk code (verdict_of config JSON_parse code)) /\
    Minimal.Task.outputPath task = outputDir config path_join env options /\
    Minimal.getTaskArtifacts taskId (snd run) = Ok code /\
    Minimal.logged (snd run) = Minimal.logged st /\
    forall other, other <> taskId ->
      Minimal.tasks (snd run) !! other = Minimal.tasks st !! other.
Proof.
  intros Hcall Hfs run. subst run.
  destruct (generateCode_settled config generateJavaScriptCode generatePythonCode
              JSON_parse path_join env taskId prompt options st)
    as (Hid & _ & Hrun).
  rewrite Hcall in Hrun. split; [exact Hid |].
  assert (Hdone : Minimal.tasks (snd (Minimal.generateCode config
                    generateJavaScriptCode generatePythonCode JSON_parse path_join
                    env taskId prompt options st))
                  = <[taskId := Minimal.Task.mk taskId prompt options "COMPLETED"
                                  (Minimal.started env) (Some (Minimal.finished env))
                                  None
                                  (Some (Minimal.Results.mk code
                                           (verdict_of config JSON_parse code)))
                                  (outputDir config path_join env options)]>
                      (Minimal.tasks st) /\
                  Minimal.logged (snd (Minimal.generateCode config
                    generateJavaScriptCode generatePythonCode JSON_parse path_join
                    env taskId prompt options st)) = Minimal.logged st).
  { cbv zeta in Hrun.
    destruct Hfs as [Hfs | Hfs]; [rewrite Hfs in Hrun |- *; exact Hrun |].
    rewrite Hfs in Hrun. by destruct (outputDir config path_join env options). }
  destruct Hdone as [Ht Hl]. eexists.
  unfold Minimal.getTaskArtifacts. rewrite Ht, lookup_insert_eq.
  split; [reflexivity |]. simpl. repeat split; try done.
  intros other Hne. by apply lookup_insert_ne.
Qed.

(** X13. A generation that is interrupted, by the generator refusing
    the language or by the file system while the files are saved, ends
    FAILED: [generateCode] still returns the id; the task carries the
    message of the error and no output directory; its completion time is
    the one read by the handler of [generateCode], which runs after the
    catch block of [executeCodeGeneration], and the error is logged by
    both; the files generated before a failure of the file system stay
    in the task, but [getTaskArtifacts] fails with TaskNotCompleted. *)
Theorem generateCode_fails (config : Minimal.Config)
    (generateJavaScriptCode generatePythonCode : string -> gmap string string)
    (JSON_parse : string -> except value) (path_join : string -> string -> string)
    (env : Minimal.Env) (taskId prompt : string) (options : Minimal.Options)
    (st : Minimal.state) (e : Error) :
  let call :=
    Minimal.callCodeGenerator config generateJavaScriptCode generatePythonCode
      prompt options in
  call = Throw e \/
  (is_Some (outputDir config path_join env options) /\
   Minimal.written env = Some e /\ exists code, call = Ok code) ->
  let run :=
    Minimal.generateCode config generateJavaScriptCode generatePythonCode
      JSON_parse path_join env taskId prompt options st in
  fst run = taskId /\
  exists task,
    Minimal.tasks (snd run) !! taskId = Some task /\
    Minimal.Task.status task = "FAILED" /\
    Minimal.Task.error task = Some (message e) /\
    Minimal.Task.completed_at task = Some (Minimal.handled env) /\
    Minimal.Task.outputPath task = None /\
    Minimal.Task.results task
    = match call with
      | Ok code => Some (Minimal.Results.mk code (verdict_of config JSON_parse code))
      | Throw _ => None
      end /\
    Minimal.getTaskArtifacts taskId (snd run)
    = Throw (Minimal.TaskNotCompleted taskId "FAILED") /\
    Minimal.logged (snd run)
    = [("Code generation error for task " +:+ taskId, e);
       ("Task execution error for task " +:+ taskId, e)] ++ Minimal.logged st /\
    forall other, other <> taskId ->
      Minimal.tasks (snd run) !! other = Minimal.tasks st !! other.
Proof.
  intros call Hfail run. subst call run.
  destruct (generateCode_settled config generateJavaScriptCode generatePythonCode
              JSON_parse path_join env taskId prompt options st)
    as (Hid & _ & Hrun).
  split; [exact Hid |].
  destruct Hfail as [Hcall | ([dir Hdir] & Hw & code & Hcall)];
    rewrite Hcall in Hrun |- *; cbv zeta in Hrun; [| rewrite Hdir, Hw in Hrun];
    destruct Hrun as [Ht Hl]; eexists;
    unfold Minimal.getTaskArtifacts; rewrite Ht, lookup_insert_eq;
    (split; [reflexivity |]); simpl; repeat split; try done;
    intros other Hne; by apply lookup_insert_ne.
Qed.

Lemma generateCode_completes_witness :
  fst (sample_generation None None) = "g1" /\
  exists task,
    Minimal.tasks (snd (sample_generation None None)) !! "g1" = Some task /\
    Minimal.Task.status task = "COMPLETED" /\
    Minimal.Task.outputPath task = Some ".happiness/generated/gen-12-00-02-000".
Proof.
  destruct (generateCode_completes mvp (sample_generator "js") (sample_generator "py")
              sample_parse sample_join (sample_env None) "g1" "a todo list"
              (Minimal.mkOptions None None) (Minimal.newClient None)
              (sample_generator "js" "a todo list"))
    as (Hid & task & Ht & _ & _ & _ & Hs & _ & _ & _ & Hp & _).
  - reflexivity.
  - right. reflexivity.
  - split; [exact Hid |]. exists task. split; [exact Ht |]. split; [exact Hs |].
    rewrite Hp. reflexivity.
Defined.

Lemma generateCode_fails_witness :
  fst (sample_generation (Some "ruby") None) = "g1" /\
  exists task,
    Minimal.tasks (snd (sample_generation (Some "ruby") None)) !! "g1" = Some task /\
    Minimal.Task.status task = "FAILED" /\
    Minimal.Task.error task
    = Some "Unsupported language: ruby. Supported languages are: javascript, python".
Proof.
  destruct (generateCode_fails mvp (sample_generator "js") (sample_generator "py")
              sample_parse sample_join (sample_env None) "g1" "a todo list"
              (Minimal.mkOptions (Some "ruby") None) (Minimal.newClient None)
              (Minimal.UnsupportedLanguage mvp "ruby"))
    as (Hid & task & Ht & Hs & He & _).
  - left. reflexivity.
  - split; [exact Hid |]. exists task. split; [exact Ht |]. split; [exact Hs |].
    rewrite He. reflexivity.
Defined.

(** ** Persistence *)

Lemma load_fold (tasksData : list Minimal.Task.t) :
  forall m : gmap string Minimal.Task.t,
    foldl (fun m task => <[Minimal.Task.id task := task]> m) m tasksData
    = list_to_map (reverse ((fun task => (Minimal.Task.id task, task)) <$> tasksData))
        ∪ m.
Proof.
  induction tasksData as [| task rest IH]; intros m; simpl.
  - by rewrite (left_id ∅ (∪)).
  - rewrite IH, reverse_cons, list_to_map_app. simpl.
    rewrite insert_empty, <- (assoc (∪)). f_equal.
    apply insert_union_singleton_l.
Qed.

Lemma load_well_keyed (tasksData : list Minimal.Task.t) :
  forall m : gmap string Minimal.Task.t,
    well_keyed m ->
    well_keyed (foldl (fun m task => <[Minimal.Task.id task := task]> m) m tasksData).
Proof.
  induction tasksData as [| task rest IH]; intros m Hm; simpl; [done |].
  apply IH. intros key t. destruct (decide (key = Minimal.Task.id task)) as [-> | Hne].
  - rewrite lookup_insert_eq. by intros [= <-].
  - rewrite lookup_insert_ne by done. apply Hm.
Qed.

Lemma load_saved (m : gmap string Minimal.Task.t) :
  well_keyed m ->
  foldl (fun m task => <[Minimal.Task.id task := task]> m) ∅ (map_to_list m).*2 = m.
Proof.
  intros Hm. rewrite load_fold, (right_id ∅ (∪)).
  assert (Hkeys : (fun task => (Minimal.Task.id task, task)) <$> (map_to_list m).*2
                  = map_to_list m).
  { rewrite <- list_fmap_compose. rewrite <- (list_fmap_id (map_to_list m)) at 2.
    apply Forall_fmap_ext, Forall_forall. intros [key task] Hin. simpl.
    apply elem_of_map_to_list in Hin. by rewrite (Hm _ _ Hin). }
  rewrite Hkeys.
  rewrite (list_to_map_proper _ (map_to_list m)).
  - apply list_to_map_to_list.
  - rewrite fmap_reverse, reverse_Permutation. apply NoDup_fst_map_to_list.
  - apply reverse_Permutation.
Qed.

(** X14. The tasks survive a restart.  Every client starts with its
    tasks registered under their own ids, and [generateCode] keeps them
    so.  Once a generation has settled, completed or failed, tasks.json
    holds the tasks as the memory holds them, and a client constructed
    on that file holds the same tasks and answers [getTaskStatus] and
    [getTaskArtifacts] as the first one does.  For every registry in that form,
    saving and constructing a client on the file gives the registry
    back. *)
Theorem tasks_survive_a_restart (config : Minimal.Config)
    (generateJavaScriptCode generatePythonCode : string -> gmap string string)
    (JSON_parse : string -> except value) (path_join : string -> string -> string)
    (env : Minimal.Env) (taskId prompt : string) (options : Minimal.Options)
    (st : Minimal.state) :
  (forall file, well_keyed (Minimal.tasks (Minimal.newClient file))) /\
  (well_keyed (Minimal.tasks st) ->
   Minimal.tasks (Minimal.newClient (Minimal.disk (Minimal.saveTasksToDisk st)))
   = Minimal.tasks st) /\
  (well_keyed (Minimal.tasks st) ->
   let st' := snd (Minimal.generateCode config generateJavaScriptCode
                     generatePythonCode JSON_parse path_join env taskId prompt
                     options st) in
   let restarted := Minimal.newClient (Minimal.disk st') in
   well_keyed (Minimal.tasks st') /\
   Minimal.disk st' = Some ((map_to_list (Minimal.tasks st')).*2) /\
   Minimal.tasks restarted = Minimal.tasks st' /\
   forall id,
     Minimal.getTaskStatus id restarted = Minimal.getTaskStatus id st' /\
     Minimal.getTaskArtifacts id restarted = Minimal.getTaskArtifacts id st').
Proof.
  split; [| split].
  - intros [tasksData |]; unfold Minimal.newClient, Minimal.loadTasksFromDisk; simpl.
    + apply load_well_keyed. intros key task. by rewrite lookup_empty.
    + intros key task. by rewrite lookup_empty.
  - intros Hm. unfold Minimal.newClient, Minimal.loadTasksFromDisk. simpl.
    by apply load_saved.
  - intros Hm st' restarted. subst st' restarted.
    destruct (generateCode_settled config generateJavaScriptCode generatePythonCode
                JSON_parse path_join env taskId prompt options st)
      as (_ & Hdisk & Hrun).
    assert (Hkeyed : well_keyed (Minimal.tasks (snd (Minimal.generateCode config
                       generateJavaScriptCode generatePythonCode JSON_parse
                       path_join env taskId prompt options st)))).
    { assert (Hins : forall task, Minimal.Task.id task = taskId ->
                well_keyed (<[taskId := task]> (Minimal.tasks st))).
      { intros task Hid key t. destruct (decide (key = taskId)) as [-> | Hne].
        - rewrite lookup_insert_eq. by intros [= <-].
        - rewrite lookup_insert_ne by done. apply Hm. }
      cbv zeta in Hrun.
      destruct (Minimal.callCodeGenerator _ _ _ _ _) as [code | e];
        [destruct (outputDir config path_join env options),
           (Minimal.written env) |];
        destruct Hrun as [-> _]; by apply Hins. }
    split; [exact Hkeyed |]. split; [exact Hdisk |].
    assert (Hsame : Minimal.tasks (Minimal.newClient (Minimal.disk (snd
                      (Minimal.generateCode config generateJavaScriptCode
                         generatePythonCode JSON_parse path_join env taskId
                         prompt options st))))
                    = Minimal.tasks (snd (Minimal.generateCode config
                        generateJavaScriptCode generatePythonCode JSON_parse
                        path_join env taskId prompt options st))).
    { rewrite Hdisk. unfold Minimal.newClient, Minimal.loadTasksFromDisk. simpl.
      by apply load_saved. }
    split; [exact Hsame |].
    intros id. unfold Minimal.getTaskStatus, Minimal.getTaskArtifacts.
    by rewrite Hsame.
Qed.

Lemma tasks_survive_a_restart_witness :
  let st' := snd (sample_generation None None) in
  Minimal.tasks (Minimal.newClient (Minimal.disk st')) = Minimal.tasks st'.
Proof.
  intros st'.
  destruct (proj2 (proj2 (tasks_survive_a_restart mvp (sample_generator "js")
                            (sample_generator "py") sample_parse sample_join
                            (sample_env None) "g1" "a todo list"
                            (Minimal.mkOptions None None) (Minimal.newClient None))))
    as (_ & _ & Hsame & _).
  - intros key task Hl. vm_compute in Hl. discriminate Hl.
  - exact Hsame.
Defined.

Lemma callCodeGenerator_throws_only_on_request_witness :
  Minimal.callCodeGenerator mvp (sample_generator "js") (sample_generator "py")
    "a todo list" (Minimal.mkOptions (Some "ruby") None)
  = Throw (Minimal.UnsupportedLanguage mvp "ruby") /\
  Minimal.callCodeGenerator mvp (sample_generator "js") (sample_generator "py")
    "a java service" (Minimal.mkOptions None None)
  = Ok (sample_generator "js" "a java service").
Proof.
  split.
  - apply (proj1 (callCodeGenerator_throws_only_on_request mvp
                    (sample_generator "js") (sample_generator "py")
                    "a todo list" (Minimal.mkOptions (Some "ruby") None))).
    exists "ruby". split; [reflexivity |]. split; [discriminate |].
    split; [discriminate |]. split; [| reflexivity].
    intros Hin. apply (bool_decide_pack _) in Hin. vm_compute in Hin. exact Hin.
  - apply (proj1 (proj2 (callCodeGenerator_throws_only_on_request mvp
                           (sample_generator "js") (sample_generator "py")
                           "a java service" (Minimal.mkOptions None None)))).
    reflexivity.
Defined.

Lemma validateCode_verdict_witness :
  Minimal.Validation.issues (Minimal.validateCode sample_parse ∅)
  = [Minimal.failure "No code files were generated";
     Minimal.warning "README.md file is missing"].
Proof.
  apply (proj2 (proj2 (proj2 (validateCode_verdict sample_parse ∅)))).
  reflexivity.
Defined.

(** ** The list of tasks *)

Lemma length_substring (n : nat) (s : string) :
  String.length (String.substring 0 n s) = Nat.min n (String.length s).
Proof.
  revert n. induction s as [| c s IH]; intros [| n]; simpl; try done.
  by rewrite IH.
Qed.

Lemma substring_all (n : nat) (s : string) :
  String.length s <= n -> String.substring 0 n s = s.
Proof.
  revert n. induction s as [| c s IH]; intros [| n] Hn; simpl in *; try done.
  - lia.
  - rewrite IH by lia. done.
Qed.

Lemma length_append (a b : string) :
  String.length (a +:+ b) = String.length a + String.length b.
Proof.
  induction a as [| c a IH]; [done |].
  change (S (String.length (a +:+ b)) = S (String.length a + String.length b)).
  by rewrite IH.
Qed.

Lemma append_empty (a : string) : a +:+ EmptyString = a.
Proof.
  induction a as [| c a IH]; [done |].
  change (String c (a +:+ EmptyString) = String c a). by rewrite IH.
Qed.

(** X15. [listTasks] of the code-generation client shows every task,
    whatever its status (a COMPLETED or FAILED task is listed), each once
    and with its prompt cut to its first fifty characters: a prompt of
    at most fifty characters is shown as it is, a longer one as its
    first fifty characters followed by three dots, so no more than
    fifty-three characters are ever shown. *)
Theorem listTasks_shows_every_task (st : Minimal.state) :
  length (Minimal.listTasks st) = size (Minimal.tasks st) /\
  (forall key task, Minimal.tasks st !! key = Some task ->
                    Minimal.summary task ∈ Minimal.listTasks st) /\
  (forall s, s ∈ Minimal.listTasks st ->
     exists key task,
       Minimal.tasks st !! key = Some task /\
       Minimal.TaskSummary.id s = Minimal.Task.id task /\
       Minimal.TaskSummary.status s = Minimal.Task.status task /\
       String.length (Minimal.TaskSummary.prompt s) <= 53 /\
       (String.length (Minimal.Task.prompt task) <= 50 ->
        Minimal.TaskSummary.prompt s = Minimal.Task.prompt task) /\
       (50 < String.length (Minimal.Task.prompt task) ->
        Minimal.TaskSummary.prompt s
        = String.substring 0 50 (Minimal.Task.prompt task) +:+ "..." /\
        String.length (Minimal.TaskSummary.prompt s) = 53)).
Proof.
  unfold Minimal.listTasks. split; [| split].
  - by rewrite !length_fmap, length_map_to_list.
  - intros key task Hl. apply list_elem_of_fmap. exists task. split; [done |].
    apply list_elem_of_fmap. exists (key, task). split; [done |].
    by apply elem_of_map_to_list.
  - intros s (task & -> & ([key t] & -> & Hin)%list_elem_of_fmap)%list_elem_of_fmap.
    apply elem_of_map_to_list in Hin. exists key, t. split; [done |].
    unfold Minimal.summary, Minimal.shortened.
    split; [done |]. split; [done |].
    change (Minimal.TaskSummary.prompt _)
      with (String.substring 0 50 (Minimal.Task.prompt t)
              +:+ (if Nat.ltb 50 (String.length (Minimal.Task.prompt t))
                   then "..." else EmptyString)).
    destruct (Nat.ltb_spec 50 (String.length (Minimal.Task.prompt t))) as [Hlong | Hshort].
    + rewrite length_append, length_substring, Nat.min_l by lia.
      change (String.length "...") with 3.
      split; [lia |]. split; [lia |]. intros _. split; [done | lia].
    + rewrite append_empty, substring_all by done.
      split; [lia |]. split; [done | lia].
Qed.

Lemma listTasks_shows_every_task_witness :
  exists s,
    s ∈ Minimal.listTasks (snd (sample_generation None None)) /\
    Minimal.TaskSummary.status s = "COMPLETED" /\
    Minimal.TaskSummary.prompt s = "a todo list".
Proof.
  destruct (generateCode_settled mvp (sample_generator "js") (sample_generator "py")
              sample_parse sample_join (sample_env None) "g1" "a todo list"
              (Minimal.mkOptions None None) (Minimal.newClient None))
    as (_ & _ & Ht & _).
  eexists. split.
  - apply (proj1 (proj2 (listTasks_shows_every_task
                           (snd (sample_generation None None)))) "g1").
    unfold sample_generation. rewrite Ht. apply lookup_insert_eq.
  - split; reflexivity.
Defined.

(** ** The template generators *)

Lemma prefix_app_r (t s b : string) :
  String.prefix t s = true -> String.prefix t (s +:+ b) = true.
Proof.
  revert s. induction t as [| c t IH]; intros s Hp.
  - by destruct (s +:+ b).
  - destruct s as [| c' s]; [done |].
    change (String.prefix (String c t) (String c' (s +:+ b)) = true).
    simpl in Hp |- *. destruct (Ascii.ascii_dec c c'); [by apply IH | done].
Qed.

Lemma includes_app_r (s b t : string) :
  includes s t = true -> includes (s +:+ b) t = true.
Proof.
  induction s as [| c s IH]; intros Hs.
  - simpl in Hs. rewrite orb_false_r in Hs. destruct t; [| done].
    destruct b; reflexivity.
  - change (String.prefix t (String c s) || includes s t = true) in Hs.
    change (String.prefix t (String c s +:+ b) || includes (s +:+ b) t = true).
    apply orb_prop in Hs as [Hp | Hs].
    + by rewrite (prefix_app_r _ _ _ Hp).
    + rewrite (IH Hs). apply orb_true_r.
Qed.

Lemma includes_lines (l : list string) (x t : string) :
  x ∈ l -> includes x t = true -> includes (lines l) t = true.
Proof.
  unfold lines. intros Hin Hx. induction l as [| y l IH]; [by apply elem_of_nil in Hin |].
  destruct l as [| z l].
  - apply list_elem_of_singleton in Hin as ->. exact Hx.
  - change (includes (y +:+ newline +:+ String.concat newline (z :: l)) t = true).
    apply elem_of_cons in Hin as [-> | Hin].
    + by apply includes_app_r.
    + apply includes_app_l, includes_app_l. by apply IH.
Qed.

Lemma lines_not_empty (x : string) (l : list string) :
  x <> EmptyString -> lines (x :: l) <> EmptyString.
Proof.
  unfold lines. intros Hx. destruct x as [| c x]; [done |].
  destruct l as [| y l]; [done |].
  change (String c (x +:+ newline +:+ String.concat newline (y :: l)) <> EmptyString).
  done.
Qed.

Lemma put_fresh (key text : string) (files : list (string * string)) :
  key ∉ files.*1 -> put key text files = files ++ [(key, text)].
Proof.
  induction files as [| [k v] files IH]; [done |].
  rewrite fmap_cons, not_elem_of_cons. intros [Hne Hnin]. simpl.
  destruct (String.eqb_spec k key) as [-> | _]; [done |]. by rewrite IH.
Qed.

Ltac fresh_key :=
  intros Hin; apply (bool_decide_pack _) in Hin; vm_compute in Hin; exact Hin.

(** Both generators end with the README, after the files chosen. *)
Lemma generated_files_end (t : Templates) (prompt : string) :
  (exists others,
     generateJavaScriptCode t prompt
     = others ++ [("README.md", readme_js prompt others)] /\
     ("README.md" ∉ others.*1) /\
     as_map others !! "package.json"
     = if mentions prompt "api" || mentions prompt "server"
          || mentions prompt "backend"
       then Some (package_json t) else None) /\
  (exists others isFlask,
     generatePythonCode t prompt
     = others ++ [("README.md", readme_py prompt isFlask others)] /\
     ("README.md" ∉ others.*1) /\
     as_map others !! "package.json" = None).
Proof.
  unfold generateJavaScriptCode, generatePythonCode. split.
  - destruct (mentions prompt "api" || _ || _), (mentions prompt "react" || _ || _);
      eexists; (split; [apply put_fresh; fresh_key |]);
      (split; [fresh_key | reflexivity]).
  - destruct (mentions prompt "flask" || _ || _), (mentions prompt "data" || _ || _);
      eexists _, _; (split; [apply put_fresh; fresh_key |]);
      (split; [fresh_key | reflexivity]).
Qed.

(** X16. The files that the template generators choose.  A README.md is
    always generated, as the last file, and it lists the files chosen
    before it.  For JavaScript, server.js and package.json come with the
    keywords api, server or backend, App.js and App.css with react,
    frontend or ui.  For Python, app.py and requirements.txt come with
    flask, web or api, analysis.py and requirements.txt with data,
    analysis or machine learning; when both apply, requirements.txt holds
    the requirements of the analysis only.  A Python prompt with none of
    these keywords yields the README alone, which tells to install
    requirements.txt and to run analysis.py, two files that are not
    generated. *)
Theorem generated_file_sets (t : Templates) (prompt : string) :
  let backend :=
    mentions prompt "api" || mentions prompt "server" || mentions prompt "backend" in
  let frontend :=
    mentions prompt "react" || mentions prompt "frontend" || mentions prompt "ui" in
  let flask :=
    mentions prompt "flask" || mentions prompt "web" || mentions prompt "api" in
  let data :=
    mentions prompt "data" || mentions prompt "analysis"
    || mentions prompt "machine learning" in
  let js := generateJavaScriptCode t prompt in
  let py := generatePythonCode t prompt in
  js.*1 = (if backend then ["server.js"; "package.json"] else [])
            ++ (if frontend then ["App.js"; "App.css"] else []) ++ ["README.md"] /\
  py.*1 = (if flask then ["app.py"; "requirements.txt"] else [])
            ++ (if data
                then "analysis.py" :: (if flask then [] else ["requirements.txt"])
                else [])
            ++ ["README.md"] /\
  (exists others, js = others ++ [("README.md", readme_js prompt others)]) /\
  (exists others, py = others ++ [("README.md", readme_py prompt flask others)]) /\
  (data = true -> as_map py !! "requirements.txt" = Some (data_requirements t)) /\
  (flask = false -> data = false ->
   exists text,
     py = [("README.md", text)] /\
     includes text "pip install -r requirements.txt" = true /\
     includes text "python analysis.py" = true).
Proof.
  intros backend frontend flask data js py.
  subst js py. unfold generateJavaScriptCode, generatePythonCode.
  fold backend frontend flask data.
  split; [by destruct backend, frontend |].
  split; [by destruct flask, data |].
  split; [destruct backend, frontend; eexists; apply put_fresh; fresh_key |].
  split; [destruct flask, data; eexists; apply put_fresh; fresh_key |].
  split.
  - intros ->. by destruct flask.
  - intros -> ->. eexists. split; [reflexivity |]. split.
    + eapply includes_lines;
        [do 16 apply list_elem_of_further; apply list_elem_of_here | reflexivity].
    + eapply includes_lines;
        [do 21 apply list_elem_of_further; apply list_elem_of_here | reflexivity].
Qed.

Lemma generated_file_sets_witness :
  as_map (generatePythonCode sample_templates "a flask site with data tables")
    !! "requirements.txt" = Some "pandas" /\
  exists text,
    generatePythonCode sample_templates "a chess engine" = [("README.md", text)] /\
    includes text "python analysis.py" = true.
Proof.
  split.
  - apply (proj1 (proj2 (proj2 (proj2 (proj2
             (generated_file_sets sample_templates
                "a flask site with data tables")))))).
    reflexivity.
  - destruct (proj2 (proj2 (proj2 (proj2 (proj2
                (generated_file_sets sample_templates "a chess engine"))))))
      as (text & Hpy & _ & Hrun); [reflexivity | reflexivity |].
    exists text. split; [exact Hpy | exact Hrun].
Defined.

Lemma as_map_snoc (others : list (string * string)) (key text : string) :
  key ∉ others.*1 ->
  as_map (others ++ [(key, text)]) !! key = Some text /\
  forall k, k <> key -> as_map (others ++ [(key, text)]) !! k = as_map others !! k.
Proof.
  intros Hnin. unfold as_map. rewrite list_to_map_app. simpl. split.
  - rewrite lookup_union_r by (by apply not_elem_of_list_to_map_1).
    apply lookup_insert_eq.
  - intros k Hne. destruct (list_to_map others !! k) as [v |] eqn:Hk.
    + by apply lookup_union_Some_l.
    + rewrite lookup_union_r by done. by rewrite lookup_insert_ne.
Qed.

Lemma validateCode_with_readme (JSON_parse : string -> except value)
    (files : gmap string string) (readme : string) :
  files !! "README.md" = Some readme -> readme <> EmptyString ->
  Minimal.validateCode JSON_parse files
  = match truthy_string (files !! "package.json") with
    | Some text =>
        match Minimal.checkPackageJson JSON_parse text
                (Minimal.Validation.mk true []) with
        | (Ok _, results) => results
        | (Throw error, results) =>
            Minimal.Validation.push
              (Minimal.failure ("Invalid package.json: " +:+ message error))
              (Minimal.Validation.set_passed false results)
        end
    | None => Minimal.Validation.mk true []
    end.
Proof.
  intros Hr Hne. unfold Minimal.validateCode.
  rewrite bool_decide_eq_false_2
    by (intros ->; by rewrite lookup_empty in Hr).
  rewrite Hr. simpl. destruct (String.eqb_spec readme EmptyString); done.
Qed.

(** The verdict on the files of each generator, the README being found
    and not empty. *)
Lemma generated_py_verdict (t : Templates) (JSON_parse : string -> except value)
    (prompt : string) :
  Minimal.validateCode JSON_parse (as_map (generatePythonCode t prompt))
  = Minimal.Validation.mk true [].
Proof.
  destruct (generated_files_end t prompt)
    as (_ & (opy & flask & Hpy & Hnpy & Hppy)).
  rewrite Hpy.
  destruct (as_map_snoc opy "README.md" (readme_py prompt flask opy) Hnpy)
    as [Hrpy Hopy].
  rewrite (validateCode_with_readme _ _ _ Hrpy)
    by (unfold readme_py; by apply lines_not_empty).
  by rewrite (Hopy "package.json"), Hppy.
Qed.

Lemma generated_js_verdict (t : Templates) (JSON_parse : string -> except value)
    (prompt : string) :
  Minimal.validateCode JSON_parse (as_map (generateJavaScriptCode t prompt))
  = if (mentions prompt "api" || mentions prompt "server"
        || mentions prompt "backend")
       && negb (String.eqb (package_json t) EmptyString)
    then
      match Minimal.checkPackageJson JSON_parse (package_json t)
              (Minimal.Validation.mk true []) with
      | (Ok _, results) => results
      | (Throw error, results) =>
          Minimal.Validation.push
            (Minimal.failure ("Invalid package.json: " +:+ message error))
            (Minimal.Validation.set_passed false results)
      end
    else Minimal.Validation.mk true [].
Proof.
  destruct (generated_files_end t prompt) as ((ojs & Hjs & Hnjs & Hpjs) & _).
  rewrite Hjs.
  destruct (as_map_snoc ojs "README.md" (readme_js prompt ojs) Hnjs) as [Hrjs Hojs].
  rewrite (validateCode_with_readme _ _ _ Hrjs)
    by (unfold readme_js; by apply lines_not_empty).
  rewrite (Hojs "package.json"), Hpjs by done.
  destruct (mentions prompt "api" || _ || _); simpl; [| done].
  by destruct (String.eqb (package_json t) EmptyString).
Qed.

(** X17. The validation of what the template generators produce.
    Python files always pass without any issue.  JavaScript files never
    lack files or a README; they fail the validation exactly when the
    prompt asks for a backend and the text of package.json is not empty
    and cannot be read; and without a backend they pass without any
    issue. *)
Theorem generated_code_validation (t : Templates)
    (JSON_parse : string -> except value) (prompt : string) :
  let backend :=
    mentions prompt "api" || mentions prompt "server" || mentions prompt "backend" in
  let js := Minimal.validateCode JSON_parse (as_map (generateJavaScriptCode t prompt)) in
  let py := Minimal.validateCode JSON_parse (as_map (generatePythonCode t prompt)) in
  py = Minimal.Validation.mk true [] /\
  (Minimal.Validation.passed js = false <->
   backend = true /\ package_json t <> EmptyString /\
   unreadable (JSON_parse (package_json t)) = true) /\
  (Minimal.failure "No code files were generated" ∉ Minimal.Validation.issues js) /\
  (Minimal.warning "README.md file is missing" ∉ Minimal.Validation.issues js) /\
  (backend = false -> js = Minimal.Validation.mk true []).
Proof.
  intros backend js py. subst js py.
  rewrite generated_py_verdict, generated_js_verdict. fold backend.
  split; [reflexivity |].
  destruct backend; simpl.
  - destruct (String.eqb_spec (package_json t) EmptyString) as [He | Hne]; simpl.
    + split; [split; [done | by intros (_ & Hn & _)] |].
      split; [by intros ?%elem_of_nil |]. split; [by intros ?%elem_of_nil | done].
    + pose proof (checkPackageJson_spec JSON_parse (package_json t)
                    (Minimal.Validation.mk true [])) as Hc.
      destruct (Minimal.checkPackageJson JSON_parse (package_json t) _)
        as [[[] | e] r].
      * destruct Hc as (Hu & Hp & ws & Hi & Hws). simpl in Hi. rewrite Hi, Hp.
        rewrite Forall_forall in Hws.
        split; [| split; [| split; [| done]]].
        -- split; [done |]. intros (_ & _ & Hu'). congruence.
        -- intros Hin. by destruct (Hws _ Hin) as [Hf _].
        -- intros Hin. by destruct (Hws _ Hin) as [_ Hm].
      * destruct Hc as (Hu & ->). simpl.
        split; [| split; [| split; [| done]]].
        -- split; [done |]. done.
        -- rewrite list_elem_of_singleton. by intros [=].
        -- rewrite list_elem_of_singleton. discriminate.
  - split; [split; [done | by intros (Hb & _)] |].
    split; [by intros ?%elem_of_nil |]. split; [by intros ?%elem_of_nil | done].
Qed.

Lemma generated_code_validation_witness :
  Minimal.validateCode sample_parse
    (as_map (generateJavaScriptCode sample_templates "a chess engine"))
  = Minimal.Validation.mk true [].
Proof.
  apply (proj2 (proj2 (proj2 (proj2
           (generated_code_validation sample_templates sample_parse
              "a chess engine"))))).
  reflexivity.
Defined.

Lemma callCodeGenerator_undirected (config : Minimal.Config)
    (generateJavaScriptCode generatePythonCode : string -> gmap string string)
    (prompt : string) (options : Minimal.Options) :
  truthy_string (Minimal.language options) = None ->
  Minimal.callCodeGenerator config generateJavaScriptCode generatePythonCode
    prompt options
  = Ok (if String.eqb (Minimal.detectLanguage prompt) "python"
        then generatePythonCode prompt
        else generateJavaScriptCode prompt).
Proof.
  intros Hl. unfold Minimal.callCodeGenerator. rewrite Hl.
  by destruct (detectLanguage_range prompt) as [-> | [-> | ->]].
Qed.

(** X18. With the template generators and no language in the options,
    a generation that the file system does not interrupt ends COMPLETED
    for every prompt; the files it carries hold a README.md and are what
    [getTaskArtifacts] returns.  Its verdict has passed, unless the
    validation is enabled, the prompt is not detected as python, it
    asks for a backend, and the text of package.json is not empty and
    cannot be read. *)
Theorem generation_from_templates_completes (config : Minimal.Config)
    (t : Templates) (JSON_parse : string -> except value)
    (path_join : string -> string -> string)
    (env : Minimal.Env) (taskId prompt : string) (options : Minimal.Options)
    (st : Minimal.state) :
  truthy_string (Minimal.language options) = None ->
  outputDir config path_join env options = None \/ Minimal.written env = None ->
  let run :=
    Minimal.generateCode config
      (fun prompt => as_map (generateJavaScriptCode t prompt))
      (fun prompt => as_map (generatePythonCode t prompt))
      JSON_parse path_join env taskId prompt options st in
  exists task code verdict,
    Minimal.tasks (snd run) !! taskId = Some task /\
    Minimal.Task.status task = "COMPLETED" /\
    Minimal.Task.results task = Some (Minimal.Results.mk code verdict) /\
    is_Some (code !! "README.md") /\
    Minimal.getTaskArtifacts taskId (snd run) = Ok code /\
    (Minimal.Validation.passed verdict = false ->
     Minimal.enable_basic_testing config = true /\
     Minimal.detectLanguage prompt <> "python" /\
     (mentions prompt "api" || mentions prompt "server"
      || mentions prompt "backend") = true /\
     package_json t <> EmptyString /\
     unreadable (JSON_parse (package_json t)) = true).
Proof.
  intros Hl Hfs run. subst run.
  destruct (generateCode_settled config
              (fun prompt => as_map (generateJavaScriptCode t prompt))
              (fun prompt => as_map (generatePythonCode t prompt))
              JSON_parse path_join env taskId prompt options st)
    as (_ & _ & Hrun).
  rewrite (callCodeGenerator_undirected _ _ _ _ _ Hl) in Hrun. cbv zeta in Hrun.
  set (code := if String.eqb (Minimal.detectLanguage prompt) "python"
               then as_map (generatePythonCode t prompt)
               else as_map (generateJavaScriptCode t prompt)) in Hrun.
  assert (Hdone : exists dir,
            Minimal.tasks (snd (Minimal.generateCode config
              (fun prompt => as_map (generateJavaScriptCode t prompt))
              (fun prompt => as_map (generatePythonCode t prompt))
              JSON_parse path_join env taskId prompt options st))
            = <[taskId := Minimal.Task.mk taskId prompt options "COMPLETED"
                            (Minimal.started env) (Some (Minimal.finished env))
                            None
                            (Some (Minimal.Results.mk code
                                     (verdict_of config JSON_parse code)))
                            dir]> (Minimal.tasks st)).
  { destruct Hfs as [Hfs | Hfs]; rewrite Hfs in Hrun.
    - exists None. apply Hrun.
    - destruct (outputDir config path_join env options) as [dir |];
        eexists; apply Hrun. }
  destruct Hdone as [dir Ht].
  exists (Minimal.Task.mk taskId prompt options "COMPLETED" (Minimal.started env)
            (Some (Minimal.finished env)) None
            (Some (Minimal.Results.mk code (verdict_of config JSON_parse code)))
            dir),
    code, (verdict_of config JSON_parse code).
  unfold Minimal.getTaskArtifacts. rewrite Ht, lookup_insert_eq. simpl.
  split; [done |]. split; [done |]. split; [done |].
  destruct (generated_files_end t prompt)
    as ((ojs & Hjs & Hnjs & _) & (opy & flask & Hpy & Hnpy & _)).
  split; [| split; [done |]].
  - subst code. destruct (String.eqb _ "python").
    + rewrite Hpy. eexists. by apply as_map_snoc.
    + rewrite Hjs. eexists. by apply as_map_snoc.
  - unfold verdict_of. destruct (Minimal.enable_basic_testing config); [| done].
    subst code. destruct (String.eqb_spec (Minimal.detectLanguage prompt) "python")
      as [Hpython | Hother].
    + by rewrite generated_py_verdict.
    + rewrite generated_js_verdict.
      destruct (mentions prompt "api" || _ || _); simpl; [| done].
      destruct (String.eqb_spec (package_json t) EmptyString) as [He | Hne];
        simpl; [done |].
      pose proof (checkPackageJson_spec JSON_parse (package_json t)
                    (Minimal.Validation.mk true [])) as Hc.
      destruct (Minimal.checkPackageJson JSON_parse (package_json t) _)
        as [[[] | e] r].
      * destruct Hc as (_ & Hp & _). rewrite Hp. done.
      * destruct Hc as (Hu & _). done.
Qed.

Lemma generation_from_templates_completes_witness :
  exists task code verdict,
    Minimal.tasks
      (snd (Minimal.generateCode mvp
              (fun prompt => as_map (generateJavaScriptCode sample_templates prompt))
              (fun prompt => as_map (generatePythonCode sample_templates prompt))
              sample_parse sample_join (sample_env None) "g1" "an api for notes"
              (Minimal.mkOptions None None) (Minimal.newClient None)))
    !! "g1" = Some task /\
    Minimal.Task.status task = "COMPLETED" /\
    Minimal.Task.results task = Some (Minimal.Results.mk code verdict).
Proof.
  destruct (generation_from_templates_completes mvp sample_templates sample_parse
              sample_join (sample_env None) "g1" "an api for notes"
              (Minimal.mkOptions None None) (Minimal.newClient None))
    as (task & code & verdict & Ht & Hs & Hr & _).
  - reflexivity.
  - right. reflexivity.
  - exists task, code, verdict. auto.
Defined.
